(** * Debug Intelligence MCP server: the cost-bounded pipeline

  A shallow embedding of the four engines of the server and of the two
  tool handlers that tie them together:

  - [LocalPatternEngine]   (engines/local-pattern-engine.ts)
  - [IntelligenceCache]    (engines/intelligence-cache.ts)
  - [ClaudeInterface]      (engines/claude-interface.ts)
  - [Scheduler]            (engines/processing-scheduler.ts)
  - [Server]               (index.ts: captureErrorContext, analyzeErrorPatterns)

  Conventions.  JavaScript numbers that only ever hold integers (call
  counts, retry counts, classifier confidences, timestamps in
  milliseconds) are [Z] or [nat]; numbers that hold fractions (costs,
  success rates, cached confidence scores) are rationals [Q].  Where the
  rounding of IEEE doubles decides what the program does or which number
  it reports, the arithmetic is that of binary64, see [Double]: the costs
  the scheduler estimates and adds up against a budget, the similarity
  score and the hit rate of the cache, the rank the cache sorts by and
  the risk score of a cached fix.  The other fractions (the cost of a
  gateway call, the rates that feedback updates, the savings) are
  computed exactly, which is the program's double up to its last binary
  places; a quotient of two integers that is rounded to an integer at
  once is computed exactly too.  Numbers are finite: [Infinity] and [NaN]
  are not modelled.  Strings are byte strings; case folding is the ASCII
  one.  Wall-clock reads ([new Date()], [Date.now()]) are arguments of the
  functions that perform them.  Console output, file persistence (whose
  failures the source catches and logs) and the [processing_time]
  bookkeeping fields are left out.  Handlers run one at a time:
  interleaving of pending promises is not modelled. *)

From Stdlib Require Import ZArith QArith Qminmax Qround Qpower Lqa Lia List Sorted String
  Ascii DecimalString.
From stdpp Require Import base gmap strings list.

Set Warnings "-register-all".

Open Scope string_scope.
Open Scope list_scope.

(* ===================================================================== *)
(** ** Strings as the source uses them *)
(* ===================================================================== *)

Module Str.

Definition chars (s : string) : list ascii := list_ascii_of_string s.

Definition lower_ascii (c : ascii) : ascii :=
  let n := nat_of_ascii c in
  if (65 <=? n)%nat && (n <=? 90)%nat then ascii_of_nat (n + 32) else c.

(** [String.prototype.toLowerCase] *)
Fixpoint toLowerCase (s : string) : string :=
  match s with
  | EmptyString => EmptyString
  | String c r => String (lower_ascii c) (toLowerCase r)
  end.

Fixpoint starts_with (sub s : list ascii) : bool :=
  match sub, s with
  | [], _ => true
  | _ :: _, [] => false
  | a :: sub', b :: s' => Ascii.eqb a b && starts_with sub' s'
  end.

Fixpoint includes_chars (sub s : list ascii) : bool :=
  starts_with sub s ||
  match s with
  | [] => false
  | _ :: s' => includes_chars sub s'
  end.

(** [s.includes(sub)] *)
Definition includes (s sub : string) : bool := includes_chars (chars sub) (chars s).

(** [s.substring(0, n)] *)
Definition prefix (n : nat) (s : string) : string := String.substring 0 n s.

(** Decimal rendering of an integer inside a template string. *)
Definition decimal (z : Z) : string := NilZero.string_of_int (Z.to_int z).

(** The double quote character, for literals that contain it. *)
Definition dq : string := String (ascii_of_nat 34) EmptyString.

(** JavaScript truthiness of a string, and [s || d]. *)
Definition nonempty (s : string) : bool :=
  match s with EmptyString => false | _ => true end.

Definition or_else (s : option string) (d : string) : string :=
  match s with
  | Some t => if nonempty t then t else d
  | None => d
  end.

End Str.

(* ===================================================================== *)
(** ** JavaScript values that cross the JSON boundary *)
(* ===================================================================== *)

Module Js.

Inductive JVal : Type :=
| JUndefined
| JNull
| JBool (b : bool)
| JNum (q : Q)
| JStr (s : string)
| JArr (items : list JVal)
| JObj (fields : list (string * JVal)).

(** ToBoolean *)
Definition truthy (v : JVal) : bool :=
  match v with
  | JUndefined | JNull => false
  | JBool b => b
  | JNum q => negb (Qeq_bool q 0)
  | JStr s => Str.nonempty s
  | JArr _ | JObj _ => true
  end.

(** [a || b] *)
Definition or_else (a b : JVal) : JVal := if truthy a then a else b.

(** ToBoolean of an object reference, whatever the object holds: [o]
    stands for a record that an object literal built. *)
Definition truthyObject {A : Type} (o : A) : bool := true.

(** Insertion into a list kept in the order of a comparator; [before y x]
    reads "the comparator is negative on [(y, x)]", so an element is put
    ahead of the later elements it ties with. *)
Fixpoint insertBy {A} (before : A -> A -> bool) (x : A) (l : list A) : list A :=
  match l with
  | [] => [x]
  | y :: r => if before y x then y :: insertBy before x r else x :: y :: r
  end.

(** [Array.prototype.sort] with a comparator: a stable sort. *)
Definition sortBy {A} (before : A -> A -> bool) (l : list A) : list A :=
  fold_right (insertBy before) [] l.

(** [Math.round] *)
Definition Math_round (q : Q) : Z := Qfloor (q + 0.5)%Q.

Fixpoint assoc (k : string) (fs : list (string * JVal)) : JVal :=
  match fs with
  | [] => JUndefined
  | (k', v) :: r => if String.eqb k k' then v else assoc k r
  end.

Fixpoint assoc_set (k : string) (v : JVal) (fs : list (string * JVal))
  : list (string * JVal) :=
  match fs with
  | [] => [(k, v)]
  | (k', v') :: r =>
      if String.eqb k k' then (k, v) :: r else (k', v') :: assoc_set k v r
  end.

(** Outcome of a JavaScript computation.  [IllTyped] marks a run that left
    the typed fragment of the model: a value stored in a field that the
    TypeScript interface declares [string] or [number] was of another
    type. *)
Inductive Outcome (A : Type) : Type :=
| Ok (a : A)
| Throw (message : string)
| IllTyped.
Arguments Ok {A} a.
Arguments Throw {A} message.
Arguments IllTyped {A}.

Definition bind {A B} (x : Outcome A) (f : A -> Outcome B) : Outcome B :=
  match x with
  | Ok a => f a
  | Throw m => Throw m
  | IllTyped => IllTyped
  end.

#[global] Instance Outcome_bind : MBind Outcome := fun A B f x => bind x f.
#[global] Instance Outcome_ret : MRet Outcome := @Ok.

(** The properties of [v], as a function of their names.  Reading a
    property of [undefined] or [null] is a TypeError, raised at the first
    read ([first] names it); the primitives and arrays have none of the
    properties this program reads. *)
Definition properties (v : JVal) (first : string) : Outcome (string -> JVal) :=
  match v with
  | JObj fs => Ok (fun k => assoc k fs)
  | JUndefined | JNull =>
      Throw ("Cannot read properties of undefined (reading '" +:+ first +:+ "')")
  | _ => Ok (fun _ => JUndefined)
  end.

(** The values a [for (const x of v)] loop visits. *)
Definition iterate (v : JVal) : Outcome (list JVal) :=
  match v with
  | JArr l => Ok l
  | JStr s => Ok (map (fun c => JStr (String c EmptyString)) (Str.chars s))
  | _ => Throw "value is not iterable"
  end.

End Js.

(* ===================================================================== *)
(** ** IEEE 754 doubles *)
(* ===================================================================== *)

(** Binary64 arithmetic on the rationals.  A double is the rational it
    holds; a rational that is no double stands for the double nearest to
    it, as a decimal literal of the source does, and [nearest] reads it.
    An operation of the source on doubles is the exact operation followed
    by [nearest]: round to nearest, ties to even, with gradual underflow.
    The numbers of this program are far below 2^1024, where JavaScript
    has [Infinity]; the rounding keeps a result from there on as the
    rational it gives. *)
Module Double.

(** [floor (log2 q)] for a positive [q] *)
Definition ilog2 (q : Q) : Z :=
  let e0 := (Z.log2 (Qnum q) - Z.log2 (Z.pos (Qden q)))%Z in
  if Qle_bool (2 ^ e0)%Q q then e0 else (e0 - 1)%Z.

(** The integer nearest to [t], the even one of two that are equally
    near. *)
Definition roundHalfEven (t : Q) : Z :=
  let f := Qfloor t in
  match (t - inject_Z f ?= 1 # 2)%Q with
  | Lt => f
  | Gt => (f + 1)%Z
  | Eq => if Z.even f then f else (f + 1)%Z
  end.

(** The distance between neighbouring doubles around a positive [q]: 52
    binary places below its leading bit, and 2^-1074 for the subnormal
    numbers below 2^-1022. *)
Definition ulp (q : Q) : Q := (2 ^ (Z.max (ilog2 q) (-1022) - 52))%Q.

Definition roundPositive (q : Q) : Q :=
  (inject_Z (roundHalfEven (q / ulp q)) * ulp q)%Q.

(** The double nearest to [x]. *)
Definition nearest (x : Q) : Q :=
  let q := Qred x in
  match (q ?= 0)%Q with
  | Eq => 0%Q
  | Gt => Qred (roundPositive q)
  | Lt => Qred (- roundPositive (- q))%Q
  end.

(** [x + y], [x - y], [x * y] and [x / y] on doubles *)
Definition add (x y : Q) : Q := nearest (x + y)%Q.
Definition sub (x y : Q) : Q := nearest (x - y)%Q.
Definition mul (x y : Q) : Q := nearest (x * y)%Q.
Definition div (x y : Q) : Q := nearest (x / y)%Q.

End Double.

(* ===================================================================== *)
(** ** [Map<string, V>], in insertion order *)
(* ===================================================================== *)

Module JsMap.

Fixpoint get {V} (k : string) (m : list (string * V)) : option V :=
  match m with
  | [] => None
  | (k', v) :: r => if String.eqb k k' then Some v else get k r
  end.

(** [m.set(k, v)]: an existing key keeps its place. *)
Fixpoint set {V} (k : string) (v : V) (m : list (string * V)) : list (string * V) :=
  match m with
  | [] => [(k, v)]
  | (k', v') :: r => if String.eqb k k' then (k, v) :: r else (k', v') :: set k v r
  end.

Fixpoint delete {V} (k : string) (m : list (string * V)) : list (string * V) :=
  match m with
  | [] => []
  | (k', v') :: r => if String.eqb k k' then r else (k', v') :: delete k r
  end.

Definition values {V} (m : list (string * V)) : list V := map snd m.

Definition keys {V} (m : list (string * V)) : list string := map fst m.

End JsMap.

(* ===================================================================== *)
(** ** Error contexts and the host *)
(* ===================================================================== *)

(** The arguments of [capture_error_context], as the tool schema types
    them: [error_message] and [repo_context] are required strings,
    [stack_trace] an optional string, [environment_info] an optional
    object.  ([recent_changes] and [local_match_confidence] are carried
    along by the source and never read by the engines.) *)
Record ErrorContext : Type := {
  error_message : string;
  stack_trace : option string;
  repo_context : string;
  environment_info : option (list (string * Js.JVal))
}.

(** ['low' | 'medium' | 'high' | 'critical'] *)
Inductive Priority : Type := low | medium | high | critical.

(** Node built-ins and the one string template whose text is never
    inspected.  Every theorem below holds for all hosts. *)
Class Host : Type := {
  (** [createHash('md5').update(s).digest('hex')] *)
  md5_hex : string -> string;
  (** [JSON.parse] on a text that starts with an opening brace: the parsed
      object, or [None] for a SyntaxError *)
  JSON_parse : string -> option (list (string * Js.JVal));
  (** [JSON.stringify] *)
  JSON_stringify : Js.JVal -> string;
  (** offset of local time from UTC in milliseconds, as used by
      [Date.prototype.toDateString] and [getDay] *)
  timezoneOffset : Z;
  (** the text built by [createBatchAnalysisPrompt]; only its length is
      observed, by [estimateTokenUsage] *)
  createBatchAnalysisPrompt : list ErrorContext -> bool -> string
}.

(** Calendar arithmetic on millisecond timestamps. *)
Module Clock.

Definition msPerDay : Z := 86400000.

(** Index of the local calendar day of a timestamp: two timestamps have
    the same [toDateString()] exactly when they have the same index. *)
Definition toDateString `{Host} (t : Z) : Z := (t + timezoneOffset) / msPerDay.

(** Index of the UTC calendar day. *)
Definition utcDay (t : Z) : Z := t / msPerDay.

(** [Date.prototype.getDay]: 0 is Sunday; 1 January 1970 was a Thursday. *)
Definition getDay `{Host} (t : Z) : Z := (toDateString t + 4) mod 7.

End Clock.

(* ===================================================================== *)
(** ** The regular expressions of the pattern library *)
(* ===================================================================== *)

(** Every [signature] of the library is written with literal characters,
    the dot, [.*] and alternation only; [compile] accepts exactly that
    fragment and [test_i] is [new RegExp(signature, 'i').test(text)] on it. *)
Module Regex.

Inductive Atom : Type :=
| Lit (c : ascii)
| AnyChar
| AnyStar.

Definition is_meta (c : ascii) : bool :=
  existsb (Ascii.eqb c) (Str.chars "\^$*+?()[]{}").

(** The dot does not match a line terminator. *)
Definition dot_matches (c : ascii) : bool :=
  negb (Ascii.eqb c (ascii_of_nat 10) || Ascii.eqb c (ascii_of_nat 13)).

Fixpoint atoms (cs : list ascii) : option (list Atom) :=
  match cs with
  | [] => Some []
  | c :: r =>
      if Ascii.eqb c "."%char then
        match r with
        | s :: r' =>
            if Ascii.eqb s "*"%char
            then option_map (cons AnyStar) (atoms r')
            else option_map (cons AnyChar) (atoms r)
        | [] => Some [AnyChar]
        end
      else if is_meta c then None
      else option_map (cons (Lit c)) (atoms r)
  end.

Fixpoint split_bar (cs : list ascii) (cur : list ascii) : list (list ascii) :=
  match cs with
  | [] => [rev cur]
  | c :: r =>
      if Ascii.eqb c "|"%char then rev cur :: split_bar r []
      else split_bar r (c :: cur)
  end.

Fixpoint all_some {A} (l : list (option A)) : option (list A) :=
  match l with
  | [] => Some []
  | Some a :: r => option_map (cons a) (all_some r)
  | None :: _ => None
  end.

Definition compile (signature : string) : option (list (list Atom)) :=
  all_some (map atoms (split_bar (Str.chars signature) [])).

(** Does the atom sequence match a prefix of the text? *)
Fixpoint match_here (p : list Atom) : list ascii -> bool :=
  match p with
  | [] => fun _ => true
  | Lit c :: p' => fun text =>
      match text with
      | t :: ts => Ascii.eqb (Str.lower_ascii c) (Str.lower_ascii t) && match_here p' ts
      | [] => false
      end
  | AnyChar :: p' => fun text =>
      match text with
      | t :: ts => dot_matches t && match_here p' ts
      | [] => false
      end
  | AnyStar :: p' =>
      fix star (text : list ascii) : bool :=
        match_here p' text ||
        match text with
        | t :: ts => dot_matches t && star ts
        | [] => false
        end
  end.

Fixpoint search (p : list Atom) (text : list ascii) : bool :=
  match_here p text ||
  match text with
  | _ :: ts => search p ts
  | [] => false
  end.

Definition test_i (signature text : string) : bool :=
  match compile signature with
  | Some alts => existsb (fun p => search p (Str.chars text)) alts
  | None => false
  end.

End Regex.

(* ===================================================================== *)
(** ** Local pattern engine (engines/local-pattern-engine.ts) *)
(* ===================================================================== *)

Module LocalPatternEngine.

Record ErrorPattern : Type := {
  id : string;
  type : string;
  signature : string;
  confidence_threshold : Z;
  common_causes : list string;
  prevention_strategies : list string;
  fix_templates : list string;
  success_rate : Z;
  last_updated : string
}.

Record ErrorMatch : Type := {
  pattern_id : string;
  pattern_type : string;
  confidence : Z;
  suggested_actions : list string
}.

Record LocalAnalysisResult : Type := {
  patterns : list ErrorPattern;
  confidence_scores : list Z;
  recommended_actions : list string
}.

(** The engine: [patterns] is the [Map] of the source in insertion order,
    [signatureCache] the memo table of [matchErrorPattern]. *)
Record Engine : Type := {
  patternMap : list (string * ErrorPattern);
  signatureCache : gmap string ErrorMatch
}.

Definition pythonPatterns : list ErrorPattern := [
  {| id := "python_import_module_not_found";
     type := "python_import_error";
     signature := "ModuleNotFoundError|ImportError.*No module named";
     confidence_threshold := 95;
     common_causes := [
       "Missing dependency in requirements.txt";
       "Virtual environment not activated";
       "Package not installed";
       "Incorrect module path" ];
     prevention_strategies := [
       "Use pip freeze > requirements.txt to capture dependencies";
       "Always work in virtual environments";
       "Verify package installation before importing" ];
     fix_templates := [
       "pip install {module_name}";
       "Add {module_name} to requirements.txt";
       "Check virtual environment activation" ];
     success_rate := 98;
     last_updated := "2025-01-07" |};
  {| id := "python_fastapi_validation_error";
     type := "python_api_error";
     signature := "ValidationError.*pydantic";
     confidence_threshold := 92;
     common_causes := [
       "Invalid request data format";
       "Missing required fields";
       "Type mismatch in Pydantic model";
       "Incorrect field validation" ];
     prevention_strategies := [
       "Use strict Pydantic models";
       "Add comprehensive field validation";
       "Test API with invalid data" ];
     fix_templates := [
       "Add field validation: field_name: Optional[Type] = None";
       "Fix request data format";
       "Update Pydantic model schema" ];
     success_rate := 89;
     last_updated := "2025-01-07" |};
  {| id := "python_asyncio_runtime_error";
     type := "python_async_error";
     signature := "RuntimeError.*asyncio.*already running|cannot be called from a running event loop";
     confidence_threshold := 94;
     common_causes := [
       "Calling asyncio.run() from within async context";
       "Nested event loops";
       "Incorrect async/await usage" ];
     prevention_strategies := [
       "Use await instead of asyncio.run() in async functions";
       "Check if event loop is already running";
       "Use asyncio.create_task() for concurrent operations" ];
     fix_templates := [
       "Replace asyncio.run(func()) with await func()";
       "Use asyncio.get_event_loop().run_until_complete() if needed";
       "Refactor to use proper async patterns" ];
     success_rate := 96;
     last_updated := "2025-01-07" |} ].

Definition jsPatterns : list ErrorPattern := [
  {| id := "js_cannot_read_property_undefined";
     type := "javascript_runtime_error";
     signature := "Cannot read property.*of undefined|TypeError.*undefined";
     confidence_threshold := 85;
     common_causes := [
       "Accessing property on undefined object";
       "Async operation not awaited";
       "Missing null/undefined check";
       "Incorrect object destructuring" ];
     prevention_strategies := [
       "Use optional chaining: obj?.property";
       "Add null/undefined checks";
       "Use TypeScript for type safety";
       "Initialize objects with default values" ];
     fix_templates := [
       "Use optional chaining: {object}?.{property}";
       "Add check: if ({object}) { ... }";
       "Use nullish coalescing: {object} ?? defaultValue" ];
     success_rate := 91;
     last_updated := "2025-01-07" |};
  {| id := "js_http_bridge_timeout";
     type := "javascript_network_error";
     signature := "ECONNRESET|ETIMEDOUT|socket hang up";
     confidence_threshold := 87;
     common_causes := [
       "HTTP request timeout";
       "Service unavailable";
       "Network connectivity issues";
       "Incorrect timeout configuration" ];
     prevention_strategies := [
       "Implement retry logic with exponential backoff";
       "Add circuit breaker pattern";
       "Monitor service health";
       "Configure appropriate timeouts" ];
     fix_templates := [
       "Add retry mechanism with await retry(func, {retries: 3})";
       "Increase timeout: {timeout: 30000}";
       "Implement circuit breaker pattern" ];
     success_rate := 84;
     last_updated := "2025-01-07" |};
  {| id := "js_memory_leak_growth";
     type := "javascript_performance_error";
     signature := "JavaScript heap out of memory|FATAL ERROR.*Allocation failed";
     confidence_threshold := 89;
     common_causes := [
       "Event listeners not removed";
       "Circular references";
       "Large objects not garbage collected";
       "Memory-intensive operations" ];
     prevention_strategies := [
       "Remove event listeners on cleanup";
       "Use WeakMap/WeakSet for references";
       "Monitor memory usage";
       "Implement memory-efficient algorithms" ];
     fix_templates := [
       "Add cleanup: removeEventListener()";
       "Use WeakMap instead of Map";
       "Implement memory monitoring" ];
     success_rate := 78;
     last_updated := "2025-01-07" |} ].

Definition dockerPatterns : list ErrorPattern := [
  {| id := "docker_port_already_in_use";
     type := "docker_runtime_error";
     signature := "port is already allocated|bind.*address already in use";
     confidence_threshold := 98;
     common_causes := [
       "Port conflict with existing service";
       "Previous container not stopped";
       "Multiple containers using same port";
       "Host port mapping conflict" ];
     prevention_strategies := [
       "Use docker-compose down before restart";
       "Check running containers: docker ps";
       "Use dynamic port allocation";
       "Implement port conflict detection" ];
     fix_templates := [
       "docker-compose down && docker-compose up";
       "Change port mapping: " +:+ Str.dq +:+ "3001:3000" +:+ Str.dq;
       "Kill process using port: lsof -ti:3000 | xargs kill" ];
     success_rate := 97;
     last_updated := "2025-01-07" |};
  {| id := "docker_network_not_found";
     type := "docker_network_error";
     signature := "network.*not found|failed to create network";
     confidence_threshold := 94;
     common_causes := [
       "Docker network not created";
       "Network name mismatch";
       "External network unavailable";
       "Docker daemon issues" ];
     prevention_strategies := [
       "Create networks explicitly in docker-compose";
       "Use consistent network naming";
       "Check network exists before use" ];
     fix_templates := [
       "docker network create {network_name}";
       "Add to docker-compose: networks: {network_name}: external: true";
       "Restart docker daemon if needed" ];
     success_rate := 93;
     last_updated := "2025-01-07" |};
  {| id := "docker_volume_mount_failed";
     type := "docker_filesystem_error";
     signature := "invalid mount config|bind source path does not exist";
     confidence_threshold := 91;
     common_causes := [
       "Source path does not exist";
       "Permission issues";
       "Incorrect volume syntax";
       "Windows/Linux path format mismatch" ];
     prevention_strategies := [
       "Verify source paths exist";
       "Use relative paths consistently";
       "Check file permissions";
       "Use named volumes for persistence" ];
     fix_templates := [
       "Create source directory: mkdir -p {source_path}";
       "Fix permissions: chmod 755 {source_path}";
       "Use named volume: volumes: {volume_name}:" ];
     success_rate := 88;
     last_updated := "2025-01-07" |} ].

Definition gitPatterns : list ErrorPattern := [
  {| id := "git_merge_conflict";
     type := "git_merge_error";
     signature := "CONFLICT.*Merge conflict|Automatic merge failed";
     confidence_threshold := 96;
     common_causes := [
       "Conflicting changes in same file";
       "Branch diverged significantly";
       "Multiple developers editing same code";
       "Incomplete previous merge" ];
     prevention_strategies := [
       "Pull before starting work";
       "Use feature branches";
       "Communicate code changes";
       "Merge frequently to avoid divergence" ];
     fix_templates := [
       "git status to see conflicted files";
       "Edit files to resolve <<<< HEAD conflicts";
       "git add . && git commit to complete merge" ];
     success_rate := 85;
     last_updated := "2025-01-07" |};
  {| id := "git_permission_denied";
     type := "git_auth_error";
     signature := "Permission denied.*publickey|Authentication failed";
     confidence_threshold := 94;
     common_causes := [
       "SSH key not configured";
       "SSH key not added to agent";
       "Wrong repository URL";
       "GitHub token expired" ];
     prevention_strategies := [
       "Set up SSH keys properly";
       "Use personal access tokens";
       "Verify repository permissions";
       "Keep credentials up to date" ];
     fix_templates := [
       "ssh-add ~/.ssh/id_rsa";
       "git remote set-url origin git@github.com:user/repo.git";
       "Update GitHub personal access token" ];
     success_rate := 92;
     last_updated := "2025-01-07" |} ].

Definition buildPatterns : list ErrorPattern := [
  {| id := "npm_install_network_error";
     type := "build_dependency_error";
     signature := "npm ERR.*network|ENOTFOUND registry.npmjs.org";
     confidence_threshold := 89;
     common_causes := ["Network connectivity"; "NPM registry issues"; "Proxy configuration"];
     prevention_strategies := ["Use npm cache"; "Configure proxy"; "Use alternative registry"];
     fix_templates := ["npm cache clean --force"; "npm config set registry https://registry.npmjs.org/"];
     success_rate := 87;
     last_updated := "2025-01-07" |} ].

Definition networkPatterns : list ErrorPattern := [
  {| id := "api_rate_limit_exceeded";
     type := "network_rate_limit_error";
     signature := "rate limit.*exceeded|429.*Too Many Requests";
     confidence_threshold := 97;
     common_causes := ["API rate limiting"; "Too many concurrent requests"];
     prevention_strategies := ["Implement request throttling"; "Use exponential backoff"];
     fix_templates := ["Add rate limiting: await sleep(1000)"; "Implement retry with backoff"];
     success_rate := 94;
     last_updated := "2025-01-07" |} ].

Definition dbPatterns : list ErrorPattern := [
  {| id := "db_connection_refused";
     type := "database_connection_error";
     signature := "Connection refused.*database|ECONNREFUSED.*5432";
     confidence_threshold := 93;
     common_causes := ["Database not running"; "Wrong connection parameters"];
     prevention_strategies := ["Health checks"; "Connection pooling"];
     fix_templates := ["Start database service"; "Check connection string"];
     success_rate := 91;
     last_updated := "2025-01-07" |} ].

Definition securityPatterns : list ErrorPattern := [
  {| id := "permission_denied_file_access";
     type := "security_permission_error";
     signature := "Permission denied|EACCES.*permission denied";
     confidence_threshold := 95;
     common_causes := ["File permission issues"; "User access rights"];
     prevention_strategies := ["Check file permissions"; "Run with appropriate user"];
     fix_templates := ["chmod 755 {file}"; "sudo chown user:group {file}"];
     success_rate := 89;
     last_updated := "2025-01-07" |} ].

(** [initializePatternDatabase]: the eight groups are added in this order
    and all ids are distinct, so the [Map] lists them in this order. *)
Definition initializePatternDatabase : list (string * ErrorPattern) :=
  map (fun p => (id p, p))
    (pythonPatterns ++ jsPatterns ++ dockerPatterns ++ gitPatterns ++
     buildPatterns ++ networkPatterns ++ dbPatterns ++ securityPatterns).

Definition newEngine : Engine :=
  {| patternMap := initializePatternDatabase; signatureCache := ∅ |}.

Definition createErrorSignature `{Host} (errorContext : ErrorContext) : string :=
  md5_hex (error_message errorContext +:+ "_" +:+
           Str.or_else (stack_trace errorContext) "" +:+ "_" +:+
           repo_context errorContext).

Definition calculateConfidence (pattern : ErrorPattern) (errorContext : ErrorContext)
    (combinedText : string) : Z :=
  let confidence := 70%Z in
  let confidence :=
    if Regex.test_i (signature pattern) combinedText
    then (confidence + 20)%Z else confidence in
  let confidence :=
    if Str.nonempty (repo_context errorContext) then
      let repoContext := Str.toLowerCase (repo_context errorContext) in
      let confidence :=
        if Str.includes (type pattern) "python" && Str.includes repoContext "python"
        then (confidence + 10)%Z else confidence in
      let confidence :=
        if Str.includes (type pattern) "javascript" && Str.includes repoContext "node"
        then (confidence + 10)%Z else confidence in
      if Str.includes (type pattern) "docker" && Str.includes repoContext "docker"
      then (confidence + 10)%Z else confidence
    else confidence in
  Z.min confidence 100.

(** The sentinel [bestMatch] starts from. *)
Definition unmatched : ErrorMatch :=
  {| pattern_id := "unknown";
     pattern_type := "unmatched";
     confidence := 0;
     suggested_actions := ["Queue for Claude analysis - novel error pattern"] |}.

Definition combinedTextOf (errorContext : ErrorContext) : string :=
  Str.toLowerCase (error_message errorContext +:+ " " +:+
                   Str.or_else (stack_trace errorContext) "").

(** One iteration of the loop over [this.patterns]. *)
Definition matchStep (errorContext : ErrorContext) (combinedText : string)
    (bestMatch : ErrorMatch) (entry : string * ErrorPattern) : ErrorMatch :=
  let '(patternId, pattern) := entry in
  if Regex.test_i (signature pattern) combinedText then
    let confidence := calculateConfidence pattern errorContext combinedText in
    if (confidence >? LocalPatternEngine.confidence bestMatch)%Z &&
       (confidence >=? confidence_threshold pattern)%Z
    then {| pattern_id := patternId;
            pattern_type := type pattern;
            confidence := confidence;
            suggested_actions := fix_templates pattern |}
    else bestMatch
  else bestMatch.

(** The loop itself, run on a memo miss. *)
Definition scanPatterns (patterns : list (string * ErrorPattern))
    (errorContext : ErrorContext) : ErrorMatch :=
  fold_left (matchStep errorContext (combinedTextOf errorContext)) patterns unmatched.

Definition matchErrorPattern `{Host} (engine : Engine) (errorContext : ErrorContext)
  : ErrorMatch * Engine :=
  let errorSignature := createErrorSignature errorContext in
  match signatureCache engine !! errorSignature with
  | Some cached => (cached, engine)
  | None =>
      let bestMatch := scanPatterns (patternMap engine) errorContext in
      (bestMatch,
       {| patternMap := patternMap engine;
          signatureCache := <[errorSignature := bestMatch]> (signatureCache engine) |})
  end.

Fixpoint lookupPattern (patterns : list (string * ErrorPattern)) (k : string)
  : option ErrorPattern :=
  match patterns with
  | [] => None
  | (k', p) :: r => if String.eqb k k' then Some p else lookupPattern r k
  end.

Fixpoint dedup (seen l : list string) : list string :=
  match l with
  | [] => []
  | x :: r =>
      if existsb (String.eqb x) seen then dedup seen r
      else x :: dedup (x :: seen) r
  end.

Fixpoint analyzeBatchLoop `{Host} (engine : Engine) (errorBatch : list ErrorContext)
    (acc : LocalAnalysisResult) : LocalAnalysisResult * Engine :=
  match errorBatch with
  | [] => (acc, engine)
  | error :: rest =>
      let '(m, engine') := matchErrorPattern engine error in
      let acc' :=
        if (confidence m >? 70)%Z then
          match lookupPattern (patternMap engine') (pattern_id m) with
          | Some pattern =>
              {| patterns := patterns acc ++ [pattern];
                 confidence_scores := confidence_scores acc ++ [confidence m];
                 recommended_actions := recommended_actions acc ++ suggested_actions m |}
          | None => acc
          end
        else acc in
      analyzeBatchLoop engine' rest acc'
  end.

Definition analyzeBatchLocally `{Host} (engine : Engine) (errorBatch : list ErrorContext)
  : LocalAnalysisResult * Engine :=
  let '(r, engine') :=
    analyzeBatchLoop engine errorBatch
      {| patterns := []; confidence_scores := []; recommended_actions := [] |} in
  ({| patterns := patterns r;
      confidence_scores := confidence_scores r;
      recommended_actions := dedup [] (recommended_actions r) |}, engine').

End LocalPatternEngine.

(* ===================================================================== *)
(** ** Result cache (engines/intelligence-cache.ts) *)
(* ===================================================================== *)

Module IntelligenceCache.

Import Js.

(** [solution_text], [applicable_repos], [fix_templates] and
    [prevention_strategies] are only stored and handed back, so they keep
    whatever JavaScript value was put there; [pattern_id] is the [Map] key
    and the two rates are computed with, so they are typed. *)
Record CachedSolution : Type := {
  pattern_id : string;
  solution_text : JVal;
  confidence_score : Q;
  success_rate : Q;
  applicable_repos : JVal;
  fix_templates : JVal;
  prevention_strategies : JVal;
  cached_date : Z;
  usage_count : nat;
  last_accessed : Z
}.

Record CacheStatistics : Type := {
  total_cached_solutions : nat;
  cache_hit_rate : Q;
  total_api_calls_saved : nat;
  estimated_cost_savings : Q
}.

Record Cache : Type := {
  solutionCache : gmap string CachedSolution;
  cacheStats : CacheStatistics;
  cacheHits : nat;
  cacheMisses : nat
}.

Definition newCache : Cache :=
  {| solutionCache := ∅;
     cacheStats := {| total_cached_solutions := 0; cache_hit_rate := 0;
                      total_api_calls_saved := 0; estimated_cost_savings := 0 |};
     cacheHits := 0;
     cacheMisses := 0 |}.

(** The hit rate is computed in doubles: the quotient of the two
    counters, its products with 100 and the quotient of the rounded
    number by 100. *)
Definition updateCacheStatistics (c : Cache) : Cache :=
  let totalRequests := (cacheHits c + cacheMisses c)%nat in
  let hitRate : Q :=
    if (0 <? totalRequests)%nat
    then Double.mul
           (Double.div (inject_Z (Z.of_nat (cacheHits c))) (inject_Z (Z.of_nat totalRequests)))
           100%Q
    else 0%Q in
  {| solutionCache := solutionCache c;
     cacheStats :=
       {| total_cached_solutions := size (solutionCache c);
          cache_hit_rate :=
            Double.div (inject_Z (Js.Math_round (Double.mul hitRate 100%Q))) 100%Q;
          total_api_calls_saved := cacheHits c;
          estimated_cost_savings := (inject_Z (Z.of_nat (cacheHits c)) * 0.05)%Q |};
     cacheHits := cacheHits c;
     cacheMisses := cacheMisses c |}.

Definition withSolutions (c : Cache) (m : gmap string CachedSolution) : Cache :=
  {| solutionCache := m; cacheStats := cacheStats c;
     cacheHits := cacheHits c; cacheMisses := cacheMisses c |}.

(** The in-place update of a hit: [cached.usage_count++] and the refresh of
    [cached.last_accessed]. *)
Definition touch (cached : CachedSolution) (now : Z) : CachedSolution :=
  {| pattern_id := pattern_id cached;
     solution_text := solution_text cached;
     confidence_score := confidence_score cached;
     success_rate := success_rate cached;
     applicable_repos := applicable_repos cached;
     fix_templates := fix_templates cached;
     prevention_strategies := prevention_strategies cached;
     cached_date := cached_date cached;
     usage_count := S (usage_count cached);
     last_accessed := now |}.

Definition getCachedSolution (c : Cache) (patternId : string) (now : Z)
  : option CachedSolution * Cache :=
  match solutionCache c !! patternId with
  | Some cached =>
      let cached' := touch cached now in
      (Some cached',
       {| solutionCache := <[patternId := cached']> (solutionCache c);
          cacheStats := cacheStats c;
          cacheHits := S (cacheHits c);
          cacheMisses := cacheMisses c |})
  | None =>
      (None,
       {| solutionCache := solutionCache c;
          cacheStats := cacheStats c;
          cacheHits := cacheHits c;
          cacheMisses := S (cacheMisses c) |})
  end.

Definition cacheSolution (c : Cache) (solution : CachedSolution) : Cache :=
  withSolutions c (<[pattern_id solution := solution]> (solutionCache c)).

(** [generatePatternId], on the properties of the pattern. *)
Definition generatePatternId `{Host} (field : string -> JVal) : string :=
  let content := JSON_stringify (JObj [
    ("type", or_else (field "pattern_type") (field "type"));
    ("message", or_else (or_else (field "root_cause") (field "insight"))
                  (field "error_message"));
    ("context", or_else (field "repo_context") (field "applicable_repos")) ]) in
  "pattern_" +:+ Str.prefix 12 (md5_hex content).

(** A value assigned to a field declared [string]. *)
Definition asString (v : JVal) : Outcome string :=
  match v with JStr s => Ok s | _ => IllTyped end.

(** A value assigned to a field declared [number]. *)
Definition asNumber (v : JVal) : Outcome Q :=
  match v with JNum q => Ok q | _ => IllTyped end.

(** The object literal built for one element of [patterns]. *)
Definition solutionOfPattern `{Host} (pattern : JVal) (now : Z) : Outcome CachedSolution :=
  field ← properties pattern "pattern_id";
  pattern_id ← (if truthy (field "pattern_id") then asString (field "pattern_id")
                else Ok (generatePatternId field));
  confidence_score ← (if truthy (field "confidence") then asNumber (field "confidence")
                      else Ok 70%Q);
  mret {| pattern_id := pattern_id;
          solution_text := or_else (field "fix_template") (JStr "General debugging guidance");
          confidence_score := confidence_score;
          success_rate := 85;
          applicable_repos := or_else (field "applicable_repos") (JArr [JStr "all"]);
          fix_templates :=
            match field "fix_template" with
            | JArr _ => field "fix_template"
            | _ => JArr [field "fix_template"]
            end;
          prevention_strategies :=
            if truthy (field "prevention_strategy")
            then JArr [field "prevention_strategy"] else JArr [];
          cached_date := now;
          usage_count := 0;
          last_accessed := now |}.

(** The object literal built for one element of [novel_insights]. *)
Definition solutionOfInsight `{Host} (insight : JVal) (now : Z) : Outcome CachedSolution :=
  field ← properties insight "pattern_type";
  confidence_score ← (if truthy (field "confidence") then asNumber (field "confidence")
                      else Ok 75%Q);
  mret {| pattern_id := generatePatternId field;
          solution_text := or_else (field "insight") (JStr "Novel debugging insight");
          confidence_score := confidence_score;
          success_rate := 80;
          applicable_repos := or_else (field "applicable_repos") (JArr [JStr "all"]);
          fix_templates := or_else (field "implementation_steps") (JArr []);
          prevention_strategies := or_else (field "prevention_recommendations") (JArr []);
          cached_date := now;
          usage_count := 0;
          last_accessed := now |}.

(** A [for ... of] loop that caches one solution per element; what was
    cached before an exception stays cached. *)
Fixpoint cacheEach (mk : JVal -> Outcome CachedSolution) (items : list JVal) (c : Cache)
  : Outcome unit * Cache :=
  match items with
  | [] => (Ok tt, c)
  | x :: rest =>
      match mk x with
      | Ok solution => cacheEach mk rest (cacheSolution c solution)
      | Throw m => (Throw m, c)
      | IllTyped => (IllTyped, c)
      end
  end.

Definition cacheAnalysisResults `{Host} (c : Cache) (analysisResult : list (string * JVal))
    (now : Z) : Outcome unit * Cache :=
  let patterns := assoc "patterns" analysisResult in
  let novel_insights := assoc "novel_insights" analysisResult in
  match iterate (or_else patterns (JArr [])) with
  | Ok ps =>
      match cacheEach (fun p => solutionOfPattern p now) ps c with
      | (Ok _, c1) =>
          match iterate (or_else novel_insights (JArr [])) with
          | Ok ins =>
              match cacheEach (fun i => solutionOfInsight i now) ins c1 with
              | (Ok _, c2) => (Ok tt, updateCacheStatistics c2)
              | failed => failed
              end
          | Throw m => (Throw m, c1)
          | IllTyped => (IllTyped, c1)
          end
      | failed => failed
      end
  | Throw m => (Throw m, c)
  | IllTyped => (IllTyped, c)
  end.

(** The in-place update of [updateSolutionEffectiveness]. *)
Definition applyFeedback (solution : CachedSolution) (wasSuccessful : bool) (now : Z)
  : CachedSolution :=
  let weight : Q := 0.1%Q in
  let newSuccessRate : Q := if wasSuccessful then 100%Q else 0%Q in
  {| pattern_id := pattern_id solution;
     solution_text := solution_text solution;
     confidence_score :=
       if wasSuccessful
       then Qmin 100 (confidence_score solution + 2)%Q
       else Qmax 50 (confidence_score solution - 5)%Q;
     success_rate :=
       ((success_rate solution * (1 - weight)) + (newSuccessRate * weight))%Q;
     applicable_repos := applicable_repos solution;
     fix_templates := fix_templates solution;
     prevention_strategies := prevention_strategies solution;
     cached_date := cached_date solution;
     usage_count := usage_count solution;
     last_accessed := now |}.

Definition updateSolutionEffectiveness (c : Cache) (patternId : string)
    (wasSuccessful : bool) (now : Z) : Cache :=
  match solutionCache c !! patternId with
  | Some solution =>
      withSolutions c (<[patternId := applyFeedback solution wasSuccessful now]> (solutionCache c))
  | None => c
  end.

End IntelligenceCache.

(* ===================================================================== *)
(** ** External analysis gateway (engines/claude-interface.ts) *)
(* ===================================================================== *)

Module ClaudeInterface.

Import Js.

Record ClaudeAnalysisResult : Type := {
  patterns : JVal;
  novel_insights : JVal;
  cross_repo_correlations : JVal;
  api_cost : Q;
  tokens_used : Z
}.

Definition MONTHLY_BUDGET_USD : Q := 25.
Definition DAILY_CALL_LIMIT : nat := 17.
Definition COST_PER_CALL_ESTIMATE : Q := 0.05.

(** *** UsageTracker *)

Record Usage : Type := {
  usage_tokens : Z;
  cost : Q;
  model : string;
  timestamp : Z;
  batch_size : nat
}.

Record UsageTracker : Type := { usageLog : list Usage }.

Record BudgetCheck : Type := {
  can_proceed : bool;
  calls_made_today : nat;
  remaining_budget : nat
}.

Record BudgetStatus : Type := {
  daily_usage : Q;
  remaining_daily_budget : Q;
  status_calls_made_today : nat
}.

Definition newTracker : UsageTracker := {| usageLog := [] |}.

Definition recordUsage (t : UsageTracker) (usage : Usage) : UsageTracker :=
  {| usageLog := usageLog t ++ [usage] |}.

(** [usageLog.filter(log => log.timestamp.toDateString() === today)] *)
Definition todayUsage `{Host} (t : UsageTracker) (now : Z) : list Usage :=
  List.filter (fun log => (Clock.toDateString (timestamp log) =? Clock.toDateString now)%Z)
    (usageLog t).

(** [reduce((sum, log) => sum + log.cost, 0)] *)
Definition sumCost (logs : list Usage) : Q :=
  fold_left (fun sum log => (sum + cost log)%Q) logs 0%Q.

Definition checkDailyBudget `{Host} (t : UsageTracker) (now : Z) : BudgetCheck :=
  let callsMadeToday := length (todayUsage t now) in
  {| can_proceed := (callsMadeToday <? DAILY_CALL_LIMIT)%nat;
     calls_made_today := callsMadeToday;
     remaining_budget := Nat.max 0 (DAILY_CALL_LIMIT - callsMadeToday) |}.

(** [getBudgetStatus], without its weekly and monthly figures. *)
Definition getBudgetStatus `{Host} (t : UsageTracker) (now : Z) : BudgetStatus :=
  let dailyCost := sumCost (todayUsage t now) in
  {| daily_usage := dailyCost;
     remaining_daily_budget := Qmax 0 ((25 / 30) - dailyCost)%Q;
     status_calls_made_today := length (todayUsage t now) |}.

Definition canUseClaude `{Host} (t : UsageTracker) (priority : Priority) (now : Z) : bool :=
  let budgetStatus := checkDailyBudget t now in
  match priority with
  | critical => (calls_made_today budgetStatus <? DAILY_CALL_LIMIT + 5)%nat
  | _ => can_proceed budgetStatus
  end.

(** *** BatchProcessor *)

Definition OPTIMAL_BATCH_SIZE : nat := 12.

Fixpoint removeDuplicateErrorsFrom (seen : list string) (errors : list ErrorContext)
  : list ErrorContext :=
  match errors with
  | [] => []
  | error :: rest =>
      let signature := error_message error +:+ "_" +:+ repo_context error in
      if existsb (String.eqb signature) seen
      then removeDuplicateErrorsFrom seen rest
      else error :: removeDuplicateErrorsFrom (signature :: seen) rest
  end.

Definition removeDuplicateErrors (errors : list ErrorContext) : list ErrorContext :=
  removeDuplicateErrorsFrom [] errors.

Definition complexity (e : ErrorContext) : nat :=
  String.length (Str.or_else (stack_trace e) "").

(** [errors.sort((a, b) => bComplexity - aComplexity)] *)
Definition prioritizeNovelErrors (errors : list ErrorContext) : list ErrorContext :=
  Js.sortBy (fun a b => (complexity b <? complexity a)%nat) errors.

Definition optimizeForCostEfficiency (errorBatch : list ErrorContext) : list ErrorContext :=
  let uniqueErrors := removeDuplicateErrors errorBatch in
  let optimizedBatch := firstn OPTIMAL_BATCH_SIZE uniqueErrors in
  prioritizeNovelErrors optimizedBatch.

(** *** The response and its cost *)

(** [response.content[0]]: a bare string, a block with a [text], a block
    without one, or nothing at all. *)
Inductive Content : Type :=
| CString (s : string)
| CText (text : string)
| CNoText
| CMissing.

(** What [claude.messages.create] did. *)
Inductive ApiOutcome : Type :=
| ApiError (message : string)
| ApiResponse (content0 : Content).

(** [Math.ceil(n / 4)] for a length [n] *)
Definition ceilDiv4 (n : nat) : Z := (Z.of_nat n + 3) / 4.

Definition estimateTokenUsage (prompt : string) (response : Content) : Outcome Z :=
  let promptTokens := ceilDiv4 (String.length prompt) in
  match response with
  | CString s => Ok (promptTokens + ceilDiv4 (String.length s))%Z
  | CText s => Ok (promptTokens + ceilDiv4 (String.length s))%Z
  | CNoText => Ok (promptTokens + ceilDiv4 0)%Z
  | CMissing => Throw "Cannot read properties of undefined (reading 'text')"
  end.

Definition calculateCallCost (tokensUsed : Z) : Q :=
  let inputTokens := (inject_Z tokensUsed * 0.7)%Q in
  let outputTokens := (inject_Z tokensUsed * 0.3)%Q in
  let inputCost := ((inputTokens / 1000000) * 0.25)%Q in
  let outputCost := ((outputTokens / 1000000) * 1.25)%Q in
  (inputCost + outputCost)%Q.

(** *** parseStructuredResponse *)

Fixpoint fromFirstOpen (cs : list ascii) : option (list ascii) :=
  match cs with
  | [] => None
  | c :: r => if Ascii.eqb c "{"%char then Some r else fromFirstOpen r
  end.

(** The longest prefix that ends in a closing brace. *)
Fixpoint uptoLastClose (cs : list ascii) : option (list ascii) :=
  match cs with
  | [] => None
  | c :: r =>
      match uptoLastClose r with
      | Some p => Some (c :: p)
      | None => if Ascii.eqb c "}"%char then Some [c] else None
      end
  end.

(** [textContent.match(/\{[\s\S]*\}/)]: from the first opening brace to
    the last closing brace after it. *)
Definition jsonMatch (textContent : string) : option string :=
  match fromFirstOpen (Str.chars textContent) with
  | Some r =>
      match uptoLastClose r with
      | Some p => Some (string_of_list_ascii ("{"%char :: p))
      | None => None
      end
  | None => None
  end.

Definition textContentOf (content : Content) : Outcome string :=
  match content with
  | CString s => Ok s
  | CText s => Ok s
  | CNoText => Throw "Cannot read properties of undefined (reading 'match')"
  | CMissing => Throw "Cannot read properties of undefined (reading 'text')"
  end.

Definition defaultField (k : string) (o : list (string * JVal)) : list (string * JVal) :=
  if truthy (assoc k o) then o else assoc_set k (JArr []) o.

(** The body of the [try] block. *)
Definition parseAttempt `{Host} (content : Content) : Outcome (list (string * JVal)) :=
  match textContentOf content with
  | Ok textContent =>
      match jsonMatch textContent with
      | None => Throw "No JSON found in Claude response"
      | Some json =>
          match JSON_parse json with
          | None => Throw "Unexpected token in JSON"
          | Some parsedResult =>
              Ok (defaultField "novel_insights" (defaultField "patterns" parsedResult))
          end
      end
  | Throw m => Throw m
  | IllTyped => IllTyped
  end.

(** The object returned by the [catch] block. *)
Definition parseFailure : list (string * JVal) :=
  [ ("patterns", JArr []);
    ("novel_insights", JArr []);
    ("cross_repo_correlations", JArr []);
    ("processing_notes", JStr "Failed to parse structured response") ].

Definition parseStructuredResponse `{Host} (content : Content) : list (string * JVal) :=
  match parseAttempt content with
  | Ok parsedResult => parsedResult
  | _ => parseFailure
  end.

(** *** analyzeBatchWithBudget *)

(** [tCheck] is the clock when the budget is checked, [tRecord] the clock
    when the usage record is built, after the service has answered. *)
Definition analyzeBatchWithBudget `{Host} (t : UsageTracker) (errorBatch : list ErrorContext)
    (crossRepoContext : bool) (tCheck : Z) (api : ApiOutcome) (tRecord : Z)
  : Outcome ClaudeAnalysisResult * UsageTracker :=
  let budgetStatus := checkDailyBudget t tCheck in
  if negb (can_proceed budgetStatus) then
    (Throw ("Daily budget exceeded. Used " +:+
            Str.decimal (Z.of_nat (calls_made_today budgetStatus)) +:+ "/" +:+
            Str.decimal (Z.of_nat DAILY_CALL_LIMIT) +:+ " calls"), t)
  else
    let optimizedBatch := optimizeForCostEfficiency errorBatch in
    let batchPrompt := createBatchAnalysisPrompt optimizedBatch crossRepoContext in
    match api with
    | ApiError m => (Throw ("Claude analysis failed: " +:+ m), t)
    | ApiResponse content0 =>
        match estimateTokenUsage batchPrompt content0 with
        | Ok tokensUsed =>
            let callCost := calculateCallCost tokensUsed in
            let t' := recordUsage t
              {| usage_tokens := tokensUsed;
                 cost := callCost;
                 model := "claude-3-haiku-20240307";
                 timestamp := tRecord;
                 batch_size := length optimizedBatch |} in
            let analysisResult := parseStructuredResponse content0 in
            (Ok {| patterns := or_else (assoc "patterns" analysisResult) (JArr []);
                   novel_insights := or_else (assoc "novel_insights" analysisResult) (JArr []);
                   cross_repo_correlations :=
                     or_else (assoc "cross_repo_correlations" analysisResult) (JArr []);
                   api_cost := callCost;
                   tokens_used := tokensUsed |}, t')
        | Throw m => (Throw ("Claude analysis failed: " +:+ m), t)
        | IllTyped => (IllTyped, t)
        end
    end.

End ClaudeInterface.

(* ===================================================================== *)
(** ** Base64, as far as [generateErrorId] needs it *)
(* ===================================================================== *)

Module Base64.

Definition alphabet : string :=
  "ABCDEFGHIJKLMNOPQRSTUVWXYZabcdefghijklmnopqrstuvwxyz0123456789+/".

Definition sextet (n : N) : ascii :=
  match String.get (N.to_nat n) alphabet with
  | Some c => c
  | None => "="%char
  end.

Definition pad : ascii := "="%char.

Fixpoint encodeBytes (bs : list ascii) : list ascii :=
  match bs with
  | a :: b :: c :: r =>
      let n := (N_of_ascii a * 65536 + N_of_ascii b * 256 + N_of_ascii c)%N in
      sextet (n / 262144) :: sextet ((n / 4096) mod 64) ::
      sextet ((n / 64) mod 64) :: sextet (n mod 64) :: encodeBytes r
  | [a; b] =>
      let n := (N_of_ascii a * 65536 + N_of_ascii b * 256)%N in
      [sextet (n / 262144); sextet ((n / 4096) mod 64); sextet ((n / 64) mod 64); pad]
  | [a] =>
      let n := (N_of_ascii a * 65536)%N in
      [sextet (n / 262144); sextet ((n / 4096) mod 64); pad; pad]
  | [] => []
  end.

(** [Buffer.from(s).toString('base64')] *)
Definition encode (s : string) : string :=
  string_of_list_ascii (encodeBytes (Str.chars s)).

End Base64.

(* ===================================================================== *)
(** ** Budget-aware scheduler (engines/processing-scheduler.ts) *)
(* ===================================================================== *)

Module Scheduler.

Import Js.

Record QueuedError : Type := {
  id : string;
  error_context : ErrorContext;
  priority : Priority;
  queued_at : Z;
  estimated_cost : Q;
  retry_count : nat
}.

Record QueueResult : Type := {
  position : nat;
  estimated_time : string;
  cost_estimate : Q
}.

Record BudgetCheck : Type := {
  can_proceed : bool;
  remaining_budget : Q;
  calls_made_today : nat
}.

(** [QueuedError] objects are shared between the queue and the batches
    that the processing windows build, and [processBatchWithClaude] updates
    them in place.  [heap] holds every such object by address; the
    [errorQueue] map and the batches hold addresses. *)
Record Scheduler : Type := {
  heap : list QueuedError;
  errorQueue : list (string * nat)
}.

Definition newScheduler : Scheduler := {| heap := []; errorQueue := [] |}.

Definition dailyBudgetLimit : Q := 0.83.

Definition priorityWeights (p : Priority) : Z :=
  match p with
  | critical => 100
  | high => 75
  | medium => 50
  | low => 25
  end.

(** [Array.from(this.errorQueue.values())], each object with its address *)
Definition queuedErrors (s : Scheduler) : list (nat * QueuedError) :=
  omap (fun a => option_map (pair a) (heap s !! a)) (JsMap.values (errorQueue s)).

Definition deleteQueued (s : Scheduler) (errorId : string) : Scheduler :=
  {| heap := heap s; errorQueue := JsMap.delete errorId (errorQueue s) |}.

(** *** Classification helpers *)

Definition environmentIs (errorContext : ErrorContext) (name : string) : bool :=
  match environment_info errorContext with
  | Some fields =>
      match assoc "environment" fields with
      | JStr e => String.eqb e name
      | _ => false
      end
  | None => false
  end.

Definition messageHas (errorContext : ErrorContext) (keyword : string) : bool :=
  Str.includes (Str.toLowerCase (error_message errorContext)) keyword.

Definition isProductionError (errorContext : ErrorContext) : bool :=
  environmentIs errorContext "production" || messageHas errorContext "production".

Definition isSecurityError (errorContext : ErrorContext) : bool :=
  existsb (messageHas errorContext)
    ["permission denied"; "unauthorized"; "authentication"; "security"].

Definition isBuildError (errorContext : ErrorContext) : bool :=
  messageHas errorContext "build" || messageHas errorContext "compilation".

Definition isAPIError (errorContext : ErrorContext) : bool :=
  messageHas errorContext "api" || messageHas errorContext "http" ||
  messageHas errorContext "request".

Definition isDevelopmentError (errorContext : ErrorContext) : bool :=
  environmentIs errorContext "development".

Definition isTestError (errorContext : ErrorContext) : bool :=
  messageHas errorContext "test" ||
  match stack_trace errorContext with
  | Some st => Str.includes (Str.toLowerCase st) "test"
  | None => false
  end.

Definition determinePriority (errorContext : ErrorContext) : Priority :=
  if isProductionError errorContext || isSecurityError errorContext then critical
  else if isBuildError errorContext || isAPIError errorContext then high
  else if isDevelopmentError errorContext || isTestError errorContext then medium
  else low.

Definition isWeekendError `{Host} (error : QueuedError) : bool :=
  let day := Clock.getDay (queued_at error) in
  (day =? 0)%Z || (day =? 6)%Z.

Definition hasCrossRepoRelevance (error : QueuedError) : bool :=
  existsb (messageHas (error_context error))
    ["docker"; "network"; "database"; "api"; "auth"].

Definition isHighImpact (error : QueuedError) : bool :=
  match priority error with
  | critical | high => true
  | _ => false
  end.

(** *** Enqueueing *)

Definition calculateQueuePosition (s : Scheduler) (error : QueuedError) : nat :=
  length (List.filter
            (fun queued =>
               (priorityWeights (priority (snd queued)) >=? priorityWeights (priority error))%Z)
            (queuedErrors s)).

Definition multiplier (p : Priority) : Q :=
  match p with
  | critical => 0.1
  | high => 0.5
  | medium => 1.0
  | low => 2.0
  end.

Definition estimateProcessingTime (position : nat) (p : Priority) : string :=
  let baseTime := inject_Z (Z.of_nat position * 30) in
  let estimatedMinutes := Math_round (baseTime * multiplier p)%Q in
  if (estimatedMinutes <? 60)%Z then Str.decimal estimatedMinutes +:+ " minutes"
  else if (estimatedMinutes <? 1440)%Z
       then Str.decimal (Math_round (inject_Z estimatedMinutes / 60)%Q) +:+ " hours"
       else Str.decimal (Math_round (inject_Z estimatedMinutes / 1440)%Q) +:+ " days".

Definition estimateProcessingCost (errorContext : ErrorContext) : Q :=
  let baseCost := Double.nearest 0.05%Q in
  let baseCost :=
    match stack_trace errorContext with
    | Some st =>
        if (1000 <? String.length st)%nat
        then Double.add baseCost (Double.nearest 0.02%Q) else baseCost
    | None => baseCost
    end in
  match environment_info errorContext with
  | Some fields =>
      if (5 <? length fields)%nat
      then Double.add baseCost (Double.nearest 0.01%Q) else baseCost
  | None => baseCost
  end.

(** ['error_' + Buffer.from(content).toString('base64').substring(0, 12)] *)
Definition generateErrorId (errorContext : ErrorContext) (dateNow : Z) : string :=
  let content := error_message errorContext +:+ "_" +:+ repo_context errorContext +:+
                 "_" +:+ Str.decimal dateNow in
  "error_" +:+ Str.prefix 12 (Base64.encode content).

(** [dateNow] is the clock read by [generateErrorId], [queuedAt] the one
    read for [queued_at]. *)
Definition queueForClaudeAnalysis (s : Scheduler) (errorContext : ErrorContext)
    (dateNow queuedAt : Z) : QueueResult * Scheduler :=
  let errorId := generateErrorId errorContext dateNow in
  let priority := determinePriority errorContext in
  let estimatedCost := estimateProcessingCost errorContext in
  let queuedError :=
    {| id := errorId;
       error_context := errorContext;
       priority := priority;
       queued_at := queuedAt;
       estimated_cost := estimatedCost;
       retry_count := 0 |} in
  let address := length (heap s) in
  let s' := {| heap := heap s ++ [queuedError];
               errorQueue := JsMap.set errorId address (errorQueue s) |} in
  let position := calculateQueuePosition s' queuedError in
  let estimatedTime := estimateProcessingTime position priority in
  ({| position := position;
      estimated_time := estimatedTime;
      cost_estimate := estimatedCost |}, s').

(** *** Budget check *)

(** [calculateTodaySpending] and [getTodayCallCount] return constants. *)
Definition calculateTodaySpending : Q := 0.25.
Definition getTodayCallCount : nat := 5.

Definition checkDailyBudget : BudgetCheck :=
  let todaySpending := calculateTodaySpending in
  let todayCalls := getTodayCallCount in
  let remainingBudget := Qmax 0 (dailyBudgetLimit - todaySpending)%Q in
  let canProceed := negb (Qle_bool remainingBudget 0.05) in
  {| can_proceed := canProceed;
     remaining_budget := remainingBudget;
     calls_made_today := todayCalls |}.

(** *** Dispatch *)

(** What the [try] block of [processBatchWithClaude] did: it stands for
    the call to the gateway, which the source leaves as a stub. *)
Inductive DispatchOutcome : Type := Completed | Raised.

Definition bumpRetry (q : QueuedError) : QueuedError :=
  {| id := id q;
     error_context := error_context q;
     priority := priority q;
     queued_at := queued_at q;
     estimated_cost := estimated_cost q;
     retry_count := S (retry_count q) |}.

(** The body of the [forEach] in the [catch] block, for the object at
    address [a]. *)
Definition requeue (s : Scheduler) (a : nat) : Scheduler :=
  match heap s !! a with
  | Some queuedError =>
      let queuedError' := bumpRetry queuedError in
      let heap' := <[a := queuedError']> (heap s) in
      if (retry_count queuedError' <? 3)%nat
      then {| heap := heap'; errorQueue := JsMap.set (id queuedError') a (errorQueue s) |}
      else {| heap := heap'; errorQueue := errorQueue s |}
  | None => s
  end.

Definition processBatchWithClaude (s : Scheduler) (errorBatch : list nat)
    (batchType : string) (outcome : DispatchOutcome) : Scheduler :=
  match outcome with
  | Completed => s
  | Raised => fold_left requeue errorBatch s
  end.

(** *** Processing windows *)

(** The gateway as the windows see it: the outcome of dispatching a batch. *)
Definition Gateway : Type := list nat -> DispatchOutcome.

(** [total + error.estimated_cost], a sum of doubles *)
Definition costWith (total : Q) (error : QueuedError) : Q :=
  Double.add total (Double.nearest (estimated_cost error)).

(** The selection loop of [processWeekendErrorBatch]; [budgetForBatch] and
    [totalCost] are doubles. *)
Fixpoint selectWithinBudget (budgetForBatch : Q) (errors : list (nat * QueuedError))
    (totalCost : Q) (s : Scheduler) : list nat * Scheduler :=
  match errors with
  | [] => ([], s)
  | (a, error) :: rest =>
      if Qle_bool (costWith totalCost error) budgetForBatch then
        let '(batch, s') :=
          selectWithinBudget budgetForBatch rest (costWith totalCost error)
            (deleteQueued s (id error)) in
        (a :: batch, s')
      else selectWithinBudget budgetForBatch rest totalCost s
  end.

(** The first half of [processWeekendErrorBatch]: the batch that is taken
    out of the queue. *)
Definition selectWeekendBatch `{Host} (s : Scheduler) (remainingBudget : Q)
  : list nat * Scheduler :=
  let weekendErrors :=
    sortBy
      (fun a b => (priorityWeights (priority (snd b)) <? priorityWeights (priority (snd a)))%Z)
      (List.filter (fun e => isWeekendError (snd e)) (queuedErrors s)) in
  let budgetForBatch := Qmin (Double.nearest remainingBudget) (Double.nearest 0.40%Q) in
  selectWithinBudget budgetForBatch weekendErrors 0 s.

Definition processWeekendErrorBatch `{Host} (s : Scheduler) (remainingBudget : Q)
    (gateway : Gateway) : Scheduler :=
  let '(errorBatch, s') := selectWeekendBatch s remainingBudget in
  match errorBatch with
  | [] => s'
  | _ => processBatchWithClaude s' errorBatch "weekend_batch" (gateway errorBatch)
  end.

(** [errors.forEach(error => this.errorQueue.delete(error.id))] *)
Definition deleteAll (s : Scheduler) (errors : list nat) : Scheduler :=
  fold_left
    (fun s a => match heap s !! a with
                | Some error => deleteQueued s (id error)
                | None => s
                end)
    errors s.

Definition processCrossRepoAnalysis (s : Scheduler) (remainingBudget : Q)
    (gateway : Gateway) : Scheduler :=
  let crossRepoErrors :=
    map fst (firstn 6 (List.filter (fun e => hasCrossRepoRelevance (snd e)) (queuedErrors s))) in
  match crossRepoErrors with
  | [] => s
  | _ =>
      let s1 := processBatchWithClaude s crossRepoErrors "cross_repo_analysis"
                  (gateway crossRepoErrors) in
      deleteAll s1 crossRepoErrors
  end.

Definition processWeeklySynthesis (s : Scheduler) (remainingBudget : Q)
    (gateway : Gateway) : Scheduler :=
  let synthesisErrors :=
    map fst (firstn 5 (List.filter (fun e => isHighImpact (snd e)) (queuedErrors s))) in
  match synthesisErrors with
  | [] => s
  | _ =>
      let s1 := processBatchWithClaude s synthesisErrors "weekly_synthesis"
                  (gateway synthesisErrors) in
      deleteAll s1 synthesisErrors
  end.

(** The loop of [processCriticalErrors]; [budgetForCritical] and
    [processedCost] are doubles. *)
Fixpoint criticalLoop (budgetForCritical : Q) (errors : list nat) (processedCost : Q)
    (gateway : Gateway) (s : Scheduler) : Scheduler :=
  match errors with
  | [] => s
  | a :: rest =>
      match heap s !! a with
      | Some error =>
          if Qle_bool (costWith processedCost error) budgetForCritical then
            let s1 := processBatchWithClaude s [a] "critical_error" (gateway [a]) in
            let s2 := deleteQueued s1 (id error) in
            criticalLoop budgetForCritical rest (costWith processedCost error) gateway s2
          else criticalLoop budgetForCritical rest processedCost gateway s
      | None => criticalLoop budgetForCritical rest processedCost gateway s
      end
  end.

Definition isCritical (error : QueuedError) : bool :=
  match priority error with
  | critical => true
  | _ => false
  end.

Definition processCriticalErrors (s : Scheduler) (remainingBudget : Q)
    (gateway : Gateway) : Scheduler :=
  let criticalErrors :=
    sortBy
      (fun a b => (queued_at (snd a) <? queued_at (snd b))%Z)
      (List.filter (fun e => isCritical (snd e)) (queuedErrors s)) in
  let budgetForCritical := Qmin (Double.nearest remainingBudget) (Double.nearest 0.10%Q) in
  criticalLoop budgetForCritical (map fst criticalErrors) 0 gateway s.

Definition getCurrentDaySchedule `{Host} (now : Z) : string :=
  let day := Clock.getDay now in
  if (day =? 1)%Z then "monday"
  else if (day =? 3)%Z then "wednesday"
  else if (day =? 5)%Z then "friday"
  else "daily".

Definition processQueue `{Host} (s : Scheduler) (now : Z) (gateway : Gateway) : Scheduler :=
  let dayOfWeek := getCurrentDaySchedule now in
  let budgetStatus := checkDailyBudget in
  if negb (can_proceed budgetStatus) then s
  else if String.eqb dayOfWeek "monday"
       then processWeekendErrorBatch s (remaining_budget budgetStatus) gateway
  else if String.eqb dayOfWeek "wednesday"
       then processCrossRepoAnalysis s (remaining_budget budgetStatus) gateway
  else if String.eqb dayOfWeek "friday"
       then processWeeklySynthesis s (remaining_budget budgetStatus) gateway
  else processCriticalErrors s (remaining_budget budgetStatus) gateway.

End Scheduler.

(* ===================================================================== *)
(** ** The tool handlers (index.ts) *)
(* ===================================================================== *)

Module Server.

Import Js.

Record Server : Type := {
  localPatternEngine : LocalPatternEngine.Engine;
  claudeInterface : ClaudeInterface.UsageTracker;
  intelligenceCache : IntelligenceCache.Cache;
  processingScheduler : Scheduler.Scheduler
}.

Definition newServer : Server :=
  {| localPatternEngine := LocalPatternEngine.newEngine;
     claudeInterface := ClaudeInterface.newTracker;
     intelligenceCache := IntelligenceCache.newCache;
     processingScheduler := Scheduler.newScheduler |}.

(** The JSON payload a handler answers with, by [analysis_type]. *)
Inductive ToolResult : Type :=
| local_pattern_match
    (confidence : Z) (pattern_type : string)
    (suggested_solution : option IntelligenceCache.CachedSolution) (api_cost : Q)
| queued_for_claude_analysis
    (queue_position : nat) (estimated_processing_time : string)
    (local_match_confidence : Z) (api_cost_estimate : Q)
| local_only
    (analysis : LocalPatternEngine.LocalAnalysisResult) (api_cost : Q)
| local_fallback_budget_exceeded
    (patterns_identified : list LocalPatternEngine.ErrorPattern)
    (budget_status : string) (api_cost : Q)
| claude_enhanced
    (patterns_identified novel_insights cross_repo_correlations : JVal)
    (api_cost : Q) (cached_for_future : bool)
| failed (error : string) (details : string)
| ill_typed.

(** The clock readings of one [captureErrorContext] call. *)
Record CaptureClock : Type := {
  tAccess : Z;      (* [new Date()] in getCachedSolution *)
  tDateNow : Z;     (* [Date.now()] in generateErrorId *)
  tQueued : Z       (* [new Date()] for queued_at *)
}.

Definition captureErrorContext `{Host} (srv : Server) (args : ErrorContext)
    (clock : CaptureClock) : ToolResult * Server :=
  let '(localMatch, engine') :=
    LocalPatternEngine.matchErrorPattern (localPatternEngine srv) args in
  if (LocalPatternEngine.confidence localMatch >? 85)%Z then
    let '(cachedSolution, cache') :=
      IntelligenceCache.getCachedSolution (intelligenceCache srv)
        (LocalPatternEngine.pattern_id localMatch) (tAccess clock) in
    (local_pattern_match
       (LocalPatternEngine.confidence localMatch)
       (LocalPatternEngine.pattern_type localMatch)
       cachedSolution 0,
     {| localPatternEngine := engine';
        claudeInterface := claudeInterface srv;
        intelligenceCache := cache';
        processingScheduler := processingScheduler srv |})
  else
    let '(queueResult, scheduler') :=
      Scheduler.queueForClaudeAnalysis (processingScheduler srv) args
        (tDateNow clock) (tQueued clock) in
    (queued_for_claude_analysis
       (Scheduler.position queueResult)
       (Scheduler.estimated_time queueResult)
       (LocalPatternEngine.confidence localMatch)
       (Scheduler.cost_estimate queueResult),
     {| localPatternEngine := engine';
        claudeInterface := claudeInterface srv;
        intelligenceCache := intelligenceCache srv;
        processingScheduler := scheduler' |}).

Record AnalyzeArgs : Type := {
  error_batch : list ErrorContext;
  analysis_depth : option string;
  cross_repo_context : option bool
}.

(** What one [analyzeErrorPatterns] call meets outside the program: the
    clock at the gateway's budget check, what the service does, the clock
    when usage is recorded and the clock when results are cached. *)
Record GatewayRun : Type := {
  tCheck : Z;
  api : ClaudeInterface.ApiOutcome;
  tRecord : Z;
  tCache : Z
}.

Definition analyzeErrorPatterns `{Host} (srv : Server) (args : AnalyzeArgs)
    (run : GatewayRun) : ToolResult * Server :=
  let analysis_depth := default "claude_if_needed" (analysis_depth args) in
  let cross_repo_context := default true (cross_repo_context args) in
  if String.eqb analysis_depth "local_only" then
    let '(localAnalysis, engine') :=
      LocalPatternEngine.analyzeBatchLocally (localPatternEngine srv) (error_batch args) in
    (local_only localAnalysis 0,
     {| localPatternEngine := engine';
        claudeInterface := claudeInterface srv;
        intelligenceCache := intelligenceCache srv;
        processingScheduler := processingScheduler srv |})
  else
    let canUseClaude := Scheduler.checkDailyBudget in
    if negb (truthyObject canUseClaude) && String.eqb analysis_depth "claude_if_needed" then
      let '(localAnalysis, engine') :=
        LocalPatternEngine.analyzeBatchLocally (localPatternEngine srv) (error_batch args) in
      (local_fallback_budget_exceeded
         (LocalPatternEngine.patterns localAnalysis) "daily_limit_reached" 0,
       {| localPatternEngine := engine';
          claudeInterface := claudeInterface srv;
          intelligenceCache := intelligenceCache srv;
          processingScheduler := processingScheduler srv |})
    else
      let '(claudeAnalysis, tracker') :=
        ClaudeInterface.analyzeBatchWithBudget (claudeInterface srv) (error_batch args)
          cross_repo_context (tCheck run) (api run) (tRecord run) in
      let srv1 :=
        {| localPatternEngine := localPatternEngine srv;
           claudeInterface := tracker';
           intelligenceCache := intelligenceCache srv;
           processingScheduler := processingScheduler srv |} in
      match claudeAnalysis with
      | Ok r =>
          let '(cached, cache') :=
            IntelligenceCache.cacheAnalysisResults (intelligenceCache srv)
              [ ("patterns", ClaudeInterface.patterns r);
                ("novel_insights", ClaudeInterface.novel_insights r);
                ("cross_repo_correlations", ClaudeInterface.cross_repo_correlations r) ]
              (tCache run) in
          let srv2 :=
            {| localPatternEngine := localPatternEngine srv;
               claudeInterface := tracker';
               intelligenceCache := cache';
               processingScheduler := processingScheduler srv |} in
          match cached with
          | Ok _ =>
              (claude_enhanced
                 (ClaudeInterface.patterns r)
                 (ClaudeInterface.novel_insights r)
                 (ClaudeInterface.cross_repo_correlations r)
                 (ClaudeInterface.api_cost r) true, srv2)
          | Throw m => (failed "Failed to analyze error patterns" m, srv2)
          | IllTyped => (ill_typed, srv2)
          end
      | Throw m => (failed "Failed to analyze error patterns" m, srv1)
      | IllTyped => (ill_typed, srv1)
      end.

End Server.

(* ===================================================================== *)
(** ** Upkeep of the result cache (engines/intelligence-cache.ts) *)
(* ===================================================================== *)

Module CacheUpkeep.

Import Js IntelligenceCache.

(** [getCacheStatistics] refreshes the statistics and hands them out. *)
Definition getCacheStatistics (c : Cache) : CacheStatistics * Cache :=
  let c' := updateCacheStatistics c in
  (cacheStats c', c').

(** The class [\w]: an ASCII letter, a digit or the underscore. *)
Definition isWordChar (ch : ascii) : bool :=
  let n := nat_of_ascii ch in
  ((48 <=? n)%nat && (n <=? 57)%nat) || ((65 <=? n)%nat && (n <=? 90)%nat) ||
  ((97 <=? n)%nat && (n <=? 122)%nat) || (n =? 95)%nat.

(** [s.split(/\W+/)]: the pieces between maximal runs of non-word
    characters.  [word] holds the piece being read, in reverse; [inGap]
    says that the last character read was a separator.  A separator at
    either end of [s] leaves an empty piece there, and the empty string
    splits into one empty piece. *)
Fixpoint splitWords (cs : list ascii) (word : list ascii) (inGap : bool) : list string :=
  match cs with
  | [] => [string_of_list_ascii (rev word)]
  | ch :: rest =>
      if isWordChar ch then splitWords rest (ch :: word) false
      else if inGap then splitWords rest word true
      else string_of_list_ascii (rev word) :: splitWords rest [] true
  end.

Definition split_W (s : string) : list string := splitWords (Str.chars s) [] false.

(** The two lengths and their sums are integers, which are doubles; the
    quotient and its product with 100 are rounded as doubles are, and
    [Math.round] then rounds the double that results. *)
Definition calculateSimilarity (str1 str2 : string) : Z :=
  let words1 := split_W (Str.toLowerCase str1) in
  let words2 := split_W (Str.toLowerCase str2) in
  let commonWords := List.filter (fun word => existsb (String.eqb word) words2) words1 in
  let similarity :=
    Double.mul
      (Double.div (inject_Z (Z.of_nat (length commonWords * 2)))
                  (inject_Z (Z.of_nat (length words1 + length words2))))
      100%Q in
  Math_round similarity.

(** [confidence_score * success_rate], a product of doubles; the
    comparator of the sort is negative exactly when the first product is
    the larger one. *)
Definition rank (solution : CachedSolution) : Q :=
  Double.mul (Double.nearest (confidence_score solution))
             (Double.nearest (success_rate solution)).

(** [searchSimilarPatterns]; [solutions] is [this.solutionCache.values()],
    the cached solutions in the order the [Map] lists them, and a missing
    [threshold] is 70. *)
Definition searchSimilarPatterns (solutions : list CachedSolution) (errorSignature : string)
    (threshold : option Q) : list CachedSolution :=
  let threshold := default 70%Q threshold in
  let similarSolutions :=
    List.filter
      (fun solution =>
         Qle_bool (Double.nearest threshold)
           (inject_Z (calculateSimilarity errorSignature (pattern_id solution))))
      solutions in
  sortBy (fun a b => negb (Qle_bool (rank a) (rank b))) similarSolutions.

(** The test of [cleanupCache]: cached before the cut-off and used fewer
    than 3 times, or succeeding in fewer than 30 of 100 cases and used
    more than 5 times. *)
Definition shouldRemove (solution : CachedSolution) (cutoffDate : Z) : bool :=
  ((cached_date solution <? cutoffDate)%Z && (usage_count solution <? 3)%nat) ||
  (negb (Qle_bool 30 (success_rate solution)) && (5 <? usage_count solution)%nat).

(** [cleanupCache]; the cut-off is [now] with its day of the month moved
    back by 90, which is 90 times 24 hours earlier on a host whose offset
    from UTC does not change in between. *)
Definition cleanupCache (c : Cache) (now : Z) : Cache :=
  let cutoffDate := (now - 90 * Clock.msPerDay)%Z in
  updateCacheStatistics
    (withSolutions c
       (filter (fun entry => shouldRemove (snd entry) cutoffDate = false) (solutionCache c))).

End CacheUpkeep.

(* ===================================================================== *)
(** ** Queue monitoring (engines/processing-scheduler.ts) *)
(* ===================================================================== *)

Module QueueReport.

Import Js.

(** [by_priority], an object with one counter per priority. *)
Record PriorityCounts : Type := {
  n_critical : nat;
  n_high : nat;
  n_medium : nat;
  n_low : nat
}.

Record QueueStatus : Type := {
  total_queued : nat;
  by_priority : PriorityCounts;
  oldest_error_age : string;
  estimated_processing_time : string
}.

(** [byPriority[error.priority]++] *)
Definition countPriority (counts : PriorityCounts) (p : Priority) : PriorityCounts :=
  match p with
  | critical => {| n_critical := S (n_critical counts); n_high := n_high counts;
                   n_medium := n_medium counts; n_low := n_low counts |}
  | high => {| n_critical := n_critical counts; n_high := S (n_high counts);
               n_medium := n_medium counts; n_low := n_low counts |}
  | medium => {| n_critical := n_critical counts; n_high := n_high counts;
                 n_medium := S (n_medium counts); n_low := n_low counts |}
  | low => {| n_critical := n_critical counts; n_high := n_high counts;
              n_medium := n_medium counts; n_low := S (n_low counts) |}
  end.

(** The callback of the [reduce] that looks for the oldest error. *)
Definition older (oldest current : Scheduler.QueuedError) : Scheduler.QueuedError :=
  if (Scheduler.queued_at current <? Scheduler.queued_at oldest)%Z then current else oldest.

(** [queuedErrors.reduce(older, queuedErrors[0])]: [undefined] on an empty
    array, since the initial value is. *)
Definition oldestError (queuedErrors : list Scheduler.QueuedError)
  : option Scheduler.QueuedError :=
  match queuedErrors with
  | [] => None
  | first :: _ => Some (fold_left older queuedErrors first)
  end.

Definition getQueueStatus (s : Scheduler.Scheduler) (dateNow : Z) : QueueStatus :=
  let queuedErrors := map snd (Scheduler.queuedErrors s) in
  let byPriority :=
    fold_left (fun counts error => countPriority counts (Scheduler.priority error))
      queuedErrors
      {| n_critical := 0; n_high := 0; n_medium := 0; n_low := 0 |} in
  let oldestAge :=
    match oldestError queuedErrors with
    | Some oldest =>
        Str.decimal
          (Math_round (inject_Z (dateNow - Scheduler.queued_at oldest) / (1000 * 60))%Q)
        +:+ " minutes"
    | None => "No queued errors"
    end in
  {| total_queued := length queuedErrors;
     by_priority := byPriority;
     oldest_error_age := oldestAge;
     estimated_processing_time :=
       Scheduler.estimateProcessingTime (length queuedErrors) medium |}.

End QueueReport.

(* ===================================================================== *)
(** ** The other tool handlers (index.ts) *)
(* ===================================================================== *)

Module Tools.

Import Js.

(** *** Helpers *)

(** [risk_tolerance], an enumeration of the tool schema. *)
Inductive RiskTolerance : Type := conservative | moderate | aggressive.

Record RiskAssessment : Type := {
  risk_score : Z;
  risk_level : string;
  recommended_testing : string
}.

(** [a < b] on numbers *)
Definition Qltb (a b : Q) : bool := negb (Qle_bool b a).

(** The difference and the product are those of doubles, and
    [Math.round] rounds the double that results. *)
Definition assessImplementationRisk (cachedSolution : IntelligenceCache.CachedSolution)
    (riskTolerance : RiskTolerance) : RiskAssessment :=
  let baseRisk :=
    Double.sub 100%Q (Double.nearest (IntelligenceCache.success_rate cachedSolution)) in
  let riskMultiplier : Q :=
    match riskTolerance with
    | conservative => Double.nearest 1.5%Q
    | moderate => Double.nearest 1.0%Q
    | aggressive => Double.nearest 0.7%Q
    end in
  {| risk_score := Math_round (Double.mul baseRisk riskMultiplier);
     risk_level :=
       if Qltb baseRisk 20 then "low" else if Qltb baseRisk 50 then "medium" else "high";
     recommended_testing := if Qltb 30 baseRisk then "extensive" else "standard" |}.

Definition prioritizeByRisk (cachedSolution : IntelligenceCache.CachedSolution)
    (riskTolerance : RiskTolerance) : string :=
  let successRate := IntelligenceCache.success_rate cachedSolution in
  if Qltb 90 successRate then "high"
  else if Qltb 70 successRate then "medium"
  else "low".

(** The handlers' own [generatePatternId]; it reads other properties than
    the cache's. *)
Definition generatePatternId `{Host} (field : string -> JVal) : string :=
  let content := JSON_stringify (JObj [
    ("type", or_else (field "type") (field "pattern_type"));
    ("message", or_else (field "error_message") (field "description"));
    ("context", or_else (field "repo_context") (field "context")) ]) in
  "pattern_" +:+ Str.prefix 12 (md5_hex content).

(** [pattern.pattern_id || this.generatePatternId(pattern)], as a [Map]
    key of the cache. *)
Definition patternIdOf `{Host} (pattern : JVal) : Outcome string :=
  field ← properties pattern "pattern_id";
  if truthy (field "pattern_id") then IntelligenceCache.asString (field "pattern_id")
  else Ok (generatePatternId field).

(** [getCachedSolution] with a key of any type: only a string is the key
    of an entry. *)
Definition getCachedSolutionAt (c : IntelligenceCache.Cache) (patternId : JVal) (now : Z)
  : option IntelligenceCache.CachedSolution * IntelligenceCache.Cache :=
  match patternId with
  | JStr s => IntelligenceCache.getCachedSolution c s now
  | _ =>
      (None,
       {| IntelligenceCache.solutionCache := IntelligenceCache.solutionCache c;
          IntelligenceCache.cacheStats := IntelligenceCache.cacheStats c;
          IntelligenceCache.cacheHits := IntelligenceCache.cacheHits c;
          IntelligenceCache.cacheMisses := S (IntelligenceCache.cacheMisses c) |})
  end.

Definition withCache (srv : Server.Server) (c : IntelligenceCache.Cache) : Server.Server :=
  {| Server.localPatternEngine := Server.localPatternEngine srv;
     Server.claudeInterface := Server.claudeInterface srv;
     Server.intelligenceCache := c;
     Server.processingScheduler := Server.processingScheduler srv |}.

(** *** Tool 4: track_fix_effectiveness *)




(** *** Tool 8: update_error_taxonomy *)

Inductive TaxonomyResult : Type :=
| taxonomy_completed
    (version : string) (patterns_added patterns_updated total_patterns : nat)
| taxonomy_failed (error : string) (details : string)
| taxonomy_ill_typed.

(** The loop over [new_patterns].  The [i]-th pattern reads the clock
    twice: [clock (2 * i)] for the look-up, [clock (2 * i + 1)] for the
    update or the insertion.  What was done before an exception stays
    done. *)
Fixpoint taxonomyLoop `{Host} (patterns : list JVal) (c : IntelligenceCache.Cache)
    (i : nat) (clock : nat -> Z) (updatedPatterns newPatterns : nat)
  : Outcome (nat * nat) * IntelligenceCache.Cache :=
  match patterns with
  | [] => (Ok (updatedPatterns, newPatterns), c)
  | pattern :: rest =>
      match patternIdOf pattern with
      | Ok patternId =>
          let '(existingPattern, c1) :=
            IntelligenceCache.getCachedSolution c patternId (clock (2 * i)%nat) in
          match existingPattern with
          | Some _ =>
              let c2 :=
                IntelligenceCache.updateSolutionEffectiveness c1 patternId true
                  (clock (2 * i + 1)%nat) in
              taxonomyLoop rest c2 (S i) clock (S updatedPatterns) newPatterns
          | None =>
              match IntelligenceCache.cacheAnalysisResults c1
                      [("patterns", JArr [pattern]); ("novel_insights", JArr [])]
                      (clock (2 * i + 1)%nat) with
              | (Ok _, c2) => taxonomyLoop rest c2 (S i) clock updatedPatterns (S newPatterns)
              | (Throw m, c2) => (Throw m, c2)
              | (IllTyped, c2) => (IllTyped, c2)
              end
          end
      | Throw m => (Throw m, c)
      | IllTyped => (IllTyped, c)
      end
  end.

(** [pattern_relationships] is only logged and is left out.
    [getTotalPatternCount] adds the size of the pattern library to the
    number of cached solutions, and refreshes the cache statistics on the
    way. *)
Definition updateErrorTaxonomy `{Host} (srv : Server.Server) (new_patterns : JVal)
    (taxonomy_version : option string) (clock : nat -> Z) : TaxonomyResult * Server.Server :=
  let taxonomy_version := default "1.0" taxonomy_version in
  match iterate new_patterns with
  | Ok patterns =>
      match taxonomyLoop patterns (Server.intelligenceCache srv) 0 clock 0 0 with
      | (Ok (updatedPatterns, newPatterns), c) =>
          let '(cacheStats, c') := CacheUpkeep.getCacheStatistics c in
          let total :=
            (length (LocalPatternEngine.patternMap (Server.localPatternEngine srv)) +
             IntelligenceCache.total_cached_solutions cacheStats)%nat in
          (taxonomy_completed taxonomy_version newPatterns updatedPatterns total,
           withCache srv c')
      | (Throw m, c) => (taxonomy_failed "Failed to update error taxonomy" m, withCache srv c)
      | (IllTyped, c) => (taxonomy_ill_typed, withCache srv c)
      end
  | Throw m => (taxonomy_failed "Failed to update error taxonomy" m, srv)
  | IllTyped => (taxonomy_ill_typed, srv)
  end.

(** *** Tool 6: enrich_with_external_intel *)

(** [external_sources] is never read. *)
Record EnrichArgs : Type := {
  novel_error_patterns : JVal;
  budget_limit : option Q
}.

Inductive EnrichResult : Type :=
| budget_insufficient (budget_remaining required_budget : Q)
| all_patterns_cached
| external_intelligence_acquired
    (novel_patterns_analyzed : nat) (new_insights_count : JVal)
    (api_cost estimated_future_savings : Q)
| enrich_failed (error : string) (details : string)
| enrich_ill_typed.

(** The loop that keeps the patterns the cache does not hold; the [i]-th
    look-up reads [clock i]. *)
Fixpoint filterNovel (patterns : list JVal) (c : IntelligenceCache.Cache) (i : nat)
    (clock : nat -> Z) : Outcome (list JVal) * IntelligenceCache.Cache :=
  match patterns with
  | [] => (Ok [], c)
  | pattern :: rest =>
      match properties pattern "pattern_id" with
      | Ok field =>
          let '(cached, c1) := getCachedSolutionAt c (field "pattern_id") (clock i) in
          match filterNovel rest c1 (S i) clock with
          | (Ok novelPatterns, c2) =>
              (Ok (match cached with
                   | Some _ => novelPatterns
                   | None => pattern :: novelPatterns
                   end), c2)
          | failed => failed
          end
      | Throw m => (Throw m, c)
      | IllTyped => (IllTyped, c)
      end
  end.

(** An object read as an error context: the two required strings and the
    two optional fields, as the tool schema types them. *)
Definition typedErrorContext (v : JVal) : Outcome ErrorContext :=
  match v with
  | JObj fs =>
      match assoc "error_message" fs, assoc "repo_context" fs with
      | JStr message, JStr repo =>
          stack ← match assoc "stack_trace" fs with
                  | JStr s => Ok (Some s)
                  | JUndefined | JNull => Ok None
                  | _ => IllTyped
                  end;
          env ← match assoc "environment_info" fs with
                | JObj e => Ok (Some e)
                | JUndefined | JNull => Ok None
                | _ => IllTyped
                end;
          mret {| error_message := message;
                  stack_trace := stack;
                  repo_context := repo;
                  environment_info := env |}
      | _, _ => IllTyped
      end
  | _ => IllTyped
  end.

Fixpoint typedBatch (batch : list JVal) : Outcome (list ErrorContext) :=
  match batch with
  | [] => Ok []
  | v :: rest =>
      errorContext ← typedErrorContext v;
      errors ← typedBatch rest;
      mret (errorContext :: errors)
  end.

(** [Math.trunc], which is what [slice] does to its bounds. *)
Definition Math_trunc (q : Q) : Z := if Qle_bool 0 q then Qfloor q else Qceiling q.

(** [l.slice(0, bound)]: a negative bound counts from the end. *)
Definition slice0 {A} (l : list A) (bound : Q) : list A :=
  let relativeEnd := Math_trunc bound in
  let len := Z.of_nat (length l) in
  let final :=
    if (relativeEnd <? 0)%Z then Z.max (len + relativeEnd) 0 else Z.min relativeEnd len in
  firstn (Z.to_nat final) l.

(** [v?.length || 0] *)
Definition lengthOr0 (v : JVal) : JVal :=
  match v with
  | JArr l => JNum (inject_Z (Z.of_nat (length l)))
  | JStr s => JNum (inject_Z (Z.of_nat (String.length s)))
  | JObj fs => or_else (assoc "length" fs) (JNum 0)
  | _ => JNum 0
  end.

(** The [i]-th cache look-up reads [clock i]; [run] is what the call to
    the gateway meets. *)
Definition enrichWithExternalIntel `{Host} (srv : Server.Server) (args : EnrichArgs)
    (clock : nat -> Z) (run : Server.GatewayRun) : EnrichResult * Server.Server :=
  let budget_limit := default 3%Q (budget_limit args) in
  let budgetStatus := Scheduler.checkDailyBudget in
  if negb (Scheduler.can_proceed budgetStatus) ||
     Qltb (Scheduler.remaining_budget budgetStatus) budget_limit
  then (budget_insufficient (Scheduler.remaining_budget budgetStatus) budget_limit, srv)
  else
    match iterate (novel_error_patterns args) with
    | Ok patterns =>
        match filterNovel patterns (Server.intelligenceCache srv) 0 clock with
        | (Ok novelPatterns, c1) =>
            match novelPatterns with
            | [] => (all_patterns_cached, withCache srv c1)
            | _ =>
                let batch :=
                  slice0 novelPatterns
                    (Qmin (inject_Z (Z.of_nat (length novelPatterns))) budget_limit) in
                match typedBatch batch with
                | Ok errorBatch =>
                    let '(enrichmentResult, tracker') :=
                      ClaudeInterface.analyzeBatchWithBudget (Server.claudeInterface srv)
                        errorBatch true (Server.tCheck run) (Server.api run)
                        (Server.tRecord run) in
                    match enrichmentResult with
                    | Ok r =>
                        let '(cached, c2) :=
                          IntelligenceCache.cacheAnalysisResults c1
                            [ ("patterns", ClaudeInterface.patterns r);
                              ("novel_insights", ClaudeInterface.novel_insights r);
                              ("cross_repo_correlations",
                               ClaudeInterface.cross_repo_correlations r) ]
                            (Server.tCache run) in
                        let srv2 :=
                          {| Server.localPatternEngine := Server.localPatternEngine srv;
                             Server.claudeInterface := tracker';
                             Server.intelligenceCache := c2;
                             Server.processingScheduler := Server.processingScheduler srv |} in
                        match cached with
                        | Ok _ =>
                            (external_intelligence_acquired
                               (length novelPatterns)
                               (lengthOr0 (ClaudeInterface.novel_insights r))
                               (ClaudeInterface.api_cost r)
                               (ClaudeInterface.api_cost r * 10)%Q, srv2)
                        | Throw m =>
                            (enrich_failed "Failed to enrich with external intelligence" m,
                             srv2)
                        | IllTyped => (enrich_ill_typed, srv2)
                        end
                    | Throw m =>
                        (enrich_failed "Failed to enrich with external intelligence" m,
                         withCache srv c1)
                    | IllTyped => (enrich_ill_typed, withCache srv c1)
                    end
                | Throw m =>
                    (enrich_failed "Failed to enrich with external intelligence" m,
                     withCache srv c1)
                | IllTyped => (enrich_ill_typed, withCache srv c1)
                end
            end
        | (Throw m, c1) =>
            (enrich_failed "Failed to enrich with external intelligence" m, withCache srv c1)
        | (IllTyped, c1) => (enrich_ill_typed, withCache srv c1)
        end
    | Throw m => (enrich_failed "Failed to enrich with external intelligence" m, srv)
    | IllTyped => (enrich_ill_typed, srv)
    end.

(** *** Tool 3: suggest_preventive_fixes *)

Record PreventiveArgs : Type := {
  error_pattern : JVal;
  target_repo : string;
  risk_tolerance : option RiskTolerance
}.

Inductive PreventiveResult : Type :=
| cached_preventive_fixes
    (target_repository : string) (immediate_actions prevention_strategies : JVal)
    (risk_assessment : RiskAssessment) (success_probability : Q)
    (implementation_priority : string) (confidence : Q) (api_cost : Q)
| local_pattern_preventive_fixes
    (target_repository : string) (suggested_actions : list string) (confidence : Z)
    (api_cost : Q)
| queued_for_claude_preventive_analysis
    (queue_position : nat) (estimated_time : string) (cost_estimate : Q)
| preventive_failed (error : string) (details : string)
| preventive_ill_typed.

(** The object [o] as [queueForClaudeAnalysis] reads it.  [generateErrorId]
    comes first and only builds a string.  [determinePriority] then calls
    [isProductionError]: unless [environment_info.environment] is
    ['production'], it evaluates [error_message.toLowerCase()], a TypeError
    on an object without [error_message], raised before anything is
    stored. *)
Definition queuedContext (o : list (string * JVal)) : Outcome ErrorContext :=
  match assoc "error_message" o with
  | JUndefined | JNull =>
      match assoc "environment_info" o with
      | JObj env =>
          match assoc "environment" env with
          | JStr e =>
              if String.eqb e "production" then IllTyped
              else Throw "Cannot read properties of undefined (reading 'toLowerCase')"
          | _ => Throw "Cannot read properties of undefined (reading 'toLowerCase')"
          end
      | _ => Throw "Cannot read properties of undefined (reading 'toLowerCase')"
      end
  | _ => typedErrorContext (JObj o)
  end.

Definition queueForClaudeAnalysis (s : Scheduler.Scheduler) (o : list (string * JVal))
    (dateNow queuedAt : Z) : Outcome (Scheduler.QueueResult * Scheduler.Scheduler) :=
  errorContext ← queuedContext o;
  mret (Scheduler.queueForClaudeAnalysis s errorContext dateNow queuedAt).

(** [error_pattern.environment_info || {}] *)
Definition environmentOf (v : JVal) : Outcome (option (list (string * JVal))) :=
  match or_else v (JObj []) with
  | JObj e => Ok (Some e)
  | _ => IllTyped
  end.

Definition suggestPreventiveFixes `{Host} (srv : Server.Server) (args : PreventiveArgs)
    (clock : Server.CaptureClock) : PreventiveResult * Server.Server :=
  let risk_tolerance := default moderate (risk_tolerance args) in
  match properties (error_pattern args) "pattern_id" with
  | Ok field =>
      let '(cachedSolution, cache') :=
        getCachedSolutionAt (Server.intelligenceCache srv) (field "pattern_id")
          (Server.tAccess clock) in
      match cachedSolution with
      | Some cached =>
          (cached_preventive_fixes
             (target_repo args)
             (IntelligenceCache.fix_templates cached)
             (IntelligenceCache.prevention_strategies cached)
             (assessImplementationRisk cached risk_tolerance)
             (IntelligenceCache.success_rate cached)
             (prioritizeByRisk cached risk_tolerance)
             (IntelligenceCache.confidence_score cached) 0,
           withCache srv cache')
      | None =>
          match IntelligenceCache.asString
                  (or_else (field "error_message") (JStr "Pattern-based analysis")),
                environmentOf (field "environment_info") with
          | Ok message, Ok env =>
              let '(localMatch, engine') :=
                LocalPatternEngine.matchErrorPattern (Server.localPatternEngine srv)
                  {| error_message := message;
                     stack_trace := None;
                     repo_context := target_repo args;
                     environment_info := env |} in
              let srv1 :=
                {| Server.localPatternEngine := engine';
                   Server.claudeInterface := Server.claudeInterface srv;
                   Server.intelligenceCache := cache';
                   Server.processingScheduler := Server.processingScheduler srv |} in
              if (LocalPatternEngine.confidence localMatch >? 70)%Z then
                (local_pattern_preventive_fixes
                   (target_repo args)
                   (LocalPatternEngine.suggested_actions localMatch)
                   (LocalPatternEngine.confidence localMatch) 0, srv1)
              else
                match queueForClaudeAnalysis (Server.processingScheduler srv)
                        [ ("error_pattern", error_pattern args);
                          ("target_repo", JStr (target_repo args));
                          ("analysis_type", JStr "preventive_fixes") ]
                        (Server.tDateNow clock) (Server.tQueued clock) with
                | Ok (queueResult, scheduler') =>
                    (queued_for_claude_preventive_analysis
                       (Scheduler.position queueResult)
                       (Scheduler.estimated_time queueResult)
                       (Scheduler.cost_estimate queueResult),
                     {| Server.localPatternEngine := engine';
                        Server.claudeInterface := Server.claudeInterface srv;
                        Server.intelligenceCache := cache';
                        Server.processingScheduler := scheduler' |})
                | Throw m => (preventive_failed "Failed to suggest preventive fixes" m, srv1)
                | IllTyped => (preventive_ill_typed, srv1)
                end
          | _, _ => (preventive_ill_typed, withCache srv cache')
          end
      end
  | Throw m => (preventive_failed "Failed to suggest preventive fixes" m, srv)
  | IllTyped => (preventive_ill_typed, srv)
  end.

(** *** Tool 5: scan_code_for_risks *)

(** The five regular expressions of [analyzeCodeChangeRisk], by what they
    look for. *)
Inductive RiskyPattern : Type :=
| asyncWithoutCatch
| consoleLog
| hardcodedCredentials
| dynamicCodeExecution
| innerHtmlFromUser.

Record RiskFactor : Type := {
  pattern : RiskyPattern;
  risk : Z;
  reason : string
}.

Definition riskyPatterns : list RiskFactor := [
  {| pattern := asyncWithoutCatch; risk := 30;
     reason := "Async operations without error handling" |};
  {| pattern := consoleLog; risk := 10;
     reason := "Debug code left in production" |};
  {| pattern := hardcodedCredentials; risk := 90;
     reason := "Hardcoded credentials" |};
  {| pattern := dynamicCodeExecution; risk := 80;
     reason := "Dynamic code execution" |};
  {| pattern := innerHtmlFromUser; risk := 70;
     reason := "Potential XSS vulnerability" |} ].

(** [file_path] is handed through; [content] is the text that is scanned. *)
Record CodeChange : Type := {
  file_path : JVal;
  content : option string
}.

Record ChangeRisk : Type := {
  change_file_path : JVal;
  change_risk_score : Z;
  risk_factors : list RiskFactor;
  recommendations : list string
}.

Record RiskReport : Type := {
  overall_risk_score : Z;
  report_risk_level : string;
  high_risk_patterns : list ChangeRisk;
  medium_risk_patterns : list ChangeRisk;
  low_risk_patterns : list ChangeRisk;
  all_recommendations : list string;
  commit_recommendation : string
}.

Definition categorizeRiskLevel (riskScore : Z) : string :=
  if (80 <=? riskScore)%Z then "critical"
  else if (60 <=? riskScore)%Z then "high"
  else if (40 <=? riskScore)%Z then "medium"
  else "low".

Section RiskScan.

(** [test p text]: does the regular expression [p] match somewhere in
    [text]?  Each expression is built anew for every change, so a test
    starts at the beginning of the text. *)
Variable test : RiskyPattern -> string -> bool.

Definition analyzeCodeChangeRisk (change : CodeChange) : ChangeRisk :=
  let riskFactors :=
    List.filter (fun rf => test (pattern rf) (Str.or_else (content change) "")) riskyPatterns in
  let riskScore := fold_left (fun score rf => (score + risk rf)%Z) riskFactors 0%Z in
  let riskScore := Z.min riskScore 100 in
  {| change_file_path := file_path change;
     change_risk_score := riskScore;
     risk_factors := riskFactors;
     recommendations := map (fun rf => "Fix: " +:+ reason rf) riskFactors |}.

(** The loop of [scanCodeForRisks] over the changes. *)
Fixpoint assess (changes : list CodeChange) (highRisk mediumRisk lowRisk : list ChangeRisk)
    (notes : list string)
  : list ChangeRisk * list ChangeRisk * list ChangeRisk * list string :=
  match changes with
  | [] => (highRisk, mediumRisk, lowRisk, notes)
  | change :: rest =>
      let riskAnalysis := analyzeCodeChangeRisk change in
      let notes' := notes ++ recommendations riskAnalysis in
      if (80 <=? change_risk_score riskAnalysis)%Z
      then assess rest (highRisk ++ [riskAnalysis]) mediumRisk lowRisk notes'
      else if (50 <=? change_risk_score riskAnalysis)%Z
      then assess rest highRisk (mediumRisk ++ [riskAnalysis]) lowRisk notes'
      else assess rest highRisk mediumRisk (lowRisk ++ [riskAnalysis]) notes'
  end.

(** [repo_history] is handed to [analyzeCodeChangeRisk], which does not
    read it; a missing [risk_threshold] is 70. *)
Definition scanCodeForRisks (code_changes : list CodeChange) (risk_threshold : option Q)
  : RiskReport :=
  let risk_threshold := default 70%Q risk_threshold in
  let '(highRisk, mediumRisk, lowRisk, notes) := assess code_changes [] [] [] [] in
  let totalPatterns := (length highRisk + length mediumRisk + length lowRisk)%nat in
  let overall :=
    if (0 <? totalPatterns)%nat then
      Math_round
        (inject_Z (Z.of_nat (length highRisk * 80 + length mediumRisk * 50 +
                             length lowRisk * 20)) /
         inject_Z (Z.of_nat totalPatterns))%Q
    else 0%Z in
  {| overall_risk_score := overall;
     report_risk_level := categorizeRiskLevel overall;
     high_risk_patterns := highRisk;
     medium_risk_patterns := mediumRisk;
     low_risk_patterns := lowRisk;
     all_recommendations := notes;
     commit_recommendation :=
       if Qltb risk_threshold (inject_Z overall) then "review_required"
       else "safe_to_commit" |}.

End RiskScan.

End Tools.

(* ===================================================================== *)
(** ** Notions the statements use *)
(* ===================================================================== *)

Module GatewayFacts.
Import Js ClaudeInterface.

(** The object [JSON.parse] returns for the text of [content], when there
    is a text, it holds a brace-delimited block and the block parses. *)
Definition extracted `{Host} (content : Content) : option (list (string * JVal)) :=
  match textContentOf content with
  | Ok textContent =>
      match jsonMatch textContent with
      | Some json => JSON_parse json
      | None => None
      end
  | _ => None
  end.
End GatewayFacts.

Module EngineFacts.
Import LocalPatternEngine.

(** A pattern qualifies for an error when its signature matches the
    combined text and the confidence reaches the pattern's threshold. *)
Definition qualifies (errorContext : ErrorContext) (p : ErrorPattern) : bool :=
  Regex.test_i (signature p) (combinedTextOf errorContext) &&
  (calculateConfidence p errorContext (combinedTextOf errorContext) >=? confidence_threshold p)%Z.

Definition matchOf (errorContext : ErrorContext) (entry : string * ErrorPattern) : ErrorMatch :=
  {| pattern_id := fst entry;
     pattern_type := type (snd entry);
     confidence := calculateConfidence (snd entry) errorContext (combinedTextOf errorContext);
     suggested_actions := fix_templates (snd entry) |}.

(** [m] is what the loop must hold after the entries [seen]. *)
Definition bestOf (errorContext : ErrorContext) (seen : list (string * ErrorPattern))
    (m : ErrorMatch) : Prop :=
  (m = unmatched /\ forall e, In e seen -> qualifies errorContext (snd e) = false) \/
  (exists e, In e seen /\ qualifies errorContext (snd e) = true /\ m = matchOf errorContext e /\
     forall e', In e' seen -> qualifies errorContext (snd e') = true ->
       (confidence (matchOf errorContext e') <= confidence m)%Z).
End EngineFacts.

Module QueueFacts.
Import Scheduler.

(** Every address held by the queue points into the heap. *)
Definition addressesValid (s : Scheduler) : Prop :=
  forall k a, In (k, a) (errorQueue s) -> (a < length (heap s))%nat.

(** The number of queued items that weigh at least [w]. *)
Definition atLeast (w : Z) (items : list (nat * QueuedError)) : nat :=
  length (List.filter (fun queued => (priorityWeights (priority (snd queued)) >=? w)%Z) items).
End QueueFacts.

Module BudgetFacts.
Import ClaudeInterface.

(** The trackers a server can hold at clock [now]: time passes, and the
    only writer of the usage log is [analyzeBatchWithBudget], called with
    clock readings that do not run backwards. *)
Inductive reachable `{Host} : Z -> UsageTracker -> Prop :=
| reach_start (now : Z) : reachable now newTracker
| reach_wait (now now' : Z) (t : UsageTracker) :
    reachable now t -> (now <= now')%Z -> reachable now' t
| reach_call (now : Z) (t : UsageTracker) (errorBatch : list ErrorContext)
    (crossRepoContext : bool) (tCheck : Z) (api : ApiOutcome) (tRecord : Z) :
    reachable now t -> (now <= tCheck)%Z -> (tCheck <= tRecord)%Z ->
    reachable tRecord
      (snd (analyzeBatchWithBudget t errorBatch crossRepoContext tCheck api tRecord)).

(** The daily ceiling in dollars, as [getBudgetStatus] writes it, and five
    emergency calls at the estimated cost of a call. *)
Definition dailyCeiling : Q := MONTHLY_BUDGET_USD / 30.
Definition emergencyAllowance : Q := 5 * COST_PER_CALL_ESTIMATE.
End BudgetFacts.

Module DispatchFacts.
Import Scheduler.

(** The queue is keyed by the ids of the objects it holds. *)
Definition wellFormed (s : Scheduler) : Prop :=
  List.NoDup (JsMap.keys (errorQueue s)) /\
  forall k a, In (k, a) (errorQueue s) -> exists q, heap s !! a = Some q /\ id q = k.

(** No two objects of the batch share an id. *)
Definition distinctIds (s : Scheduler) (batch : list nat) : Prop :=
  forall a b qa qb,
    In a batch -> In b batch -> heap s !! a = Some qa -> heap s !! b = Some qb ->
    id qa = id qb -> a = b.

(** What a processing window did with the object [q] that was queued at
    address [a] under the key [k]. *)
Inductive Fate (after : Scheduler) (batch : list nat) (outcome : DispatchOutcome)
    (k : string) (a : nat) (q : QueuedError) : Prop :=
| remains_queued :
    ~ In a batch ->
    JsMap.get k (errorQueue after) = Some a -> heap after !! a = Some q ->
    Fate after batch outcome k a q
| dispatched :
    In a batch -> outcome = Completed ->
    JsMap.get k (errorQueue after) = None -> heap after !! a = Some q ->
    Fate after batch outcome k a q
| requeued :
    In a batch -> outcome = Raised -> (retry_count q + 1 < 3)%nat ->
    JsMap.get k (errorQueue after) = Some a -> heap after !! a = Some (bumpRetry q) ->
    Fate after batch outcome k a q
| dropped :
    In a batch -> outcome = Raised -> (3 <= retry_count q + 1)%nat ->
    JsMap.get k (errorQueue after) = None -> heap after !! a = Some (bumpRetry q) ->
    Fate after batch outcome k a q.
End DispatchFacts.

Module CacheFacts.
Import IntelligenceCache.

(** A run of [getCachedSolution] calls, each with the id it asks for and
    the clock it reads. *)
Definition lookups (c : Cache) (asks : list (string * Z)) : Cache :=
  fold_left (fun c ask => snd (getCachedSolution c (fst ask) (snd ask))) asks c.

(** How often [patternId] is asked for. *)
Definition asked (patternId : string) (asks : list (string * Z)) : nat :=
  length (List.filter (fun ask => String.eqb (fst ask) patternId) asks).

(** How many of the calls ask for an id that [c] holds. *)
Definition answered (c : Cache) (asks : list (string * Z)) : nat :=
  length (List.filter (fun ask => bool_decide (is_Some (solutionCache c !! fst ask))) asks).

(** Two records give the same advice: they agree on everything but the
    two rates, the usage count and the time of the last access. *)
Definition sameAdvice (a b : CachedSolution) : Prop :=
  pattern_id a = pattern_id b /\
  solution_text a = solution_text b /\
  applicable_repos a = applicable_repos b /\
  fix_templates a = fix_templates b /\
  prevention_strategies a = prevention_strategies b /\
  cached_date a = cached_date b.

(** A list in the order [searchSimilarPatterns] promises: no solution
    comes before one of higher rank. *)
Definition byRank (l : list CachedSolution) : Prop :=
  forall i j a b,
    (i < j)%nat -> l !! i = Some a -> l !! j = Some b ->
    (CacheUpkeep.rank b <= CacheUpkeep.rank a)%Q.
End CacheFacts.

Module BatchFacts.
Import ClaudeInterface.

(** The text by which [removeDuplicateErrors] tells errors apart. *)
Definition signatureOf (error : ErrorContext) : string :=
  error_message error +:+ "_" +:+ repo_context error.

(** No error comes before one with a longer stack trace. *)
Definition longestFirst (batch : list ErrorContext) : Prop :=
  forall i j a b,
    (i < j)%nat -> batch !! i = Some a -> batch !! j = Some b ->
    (complexity b <= complexity a)%nat.
End BatchFacts.

Module WindowFacts.
Import Scheduler.

(** The total that the loop of a window holds after it has taken the
    objects at the addresses [batch], in this order, starting from
    [total]: the sum of their estimated costs as the code adds them up. *)
Definition runningCost (s : Scheduler) (batch : list nat) (total : Q) : Q :=
  fold_left
    (fun total a =>
       match heap s !! a with
       | Some error => costWith total error
       | None => total
       end)
    batch total.

(** The batch of the cross-repository window and the batch of the weekly
    synthesis, as the two windows pick them. *)
Definition crossRepoBatch (s : Scheduler) : list nat :=
  map fst (firstn 6 (List.filter (fun e => hasCrossRepoRelevance (snd e)) (queuedErrors s))).

Definition synthesisBatch (s : Scheduler) : list nat :=
  map fst (firstn 5 (List.filter (fun e => isHighImpact (snd e)) (queuedErrors s))).
End WindowFacts.

Module DoubleFacts.

(** [y] is a positive double: a mantissa below 2^53 times a power of two
    from 2^-1074 on. *)
Definition positiveDouble (y : Q) : Prop :=
  exists m e, (0 < m < 2 ^ 53)%Z /\ (-1074 <= e)%Z /\ (y == inject_Z m * 2 ^ e)%Q.
End DoubleFacts.

Module LibraryFacts.
Import LocalPatternEngine.

(** One of the three context bonuses of [calculateConfidence] applies:
    the pattern's type and the repository context name the same
    platform. *)
Definition contextHint (p : ErrorPattern) (errorContext : ErrorContext) : bool :=
  let repoContext := Str.toLowerCase (repo_context errorContext) in
  (Str.includes (type p) "python" && Str.includes repoContext "python") ||
  (Str.includes (type p) "javascript" && Str.includes repoContext "node") ||
  (Str.includes (type p) "docker" && Str.includes repoContext "docker").

(** The patterns of the library whose threshold is above 90 and whose
    type names none of the three platforms. *)
Definition outOfReach : list string :=
  [ "git_merge_conflict"; "git_permission_denied"; "api_rate_limit_exceeded";
    "db_connection_refused"; "permission_denied_file_access" ].

(** Every remembered match is the sentinel's confidence or a confidence
    the loop can give. *)
Definition memoSound (engine : Engine) : Prop :=
  forall k m,
    signatureCache engine !! k = Some m ->
    confidence m = 0%Z \/ (90 <= confidence m <= 100)%Z.
End LibraryFacts.

Module ScanFacts.
Import Tools.

(** Every analysis of the list has a risk score from [lo] to [hi]. *)
Definition scoresWithin (lo hi : Z) (l : list ChangeRisk) : Prop :=
  List.Forall (fun a => (lo <= change_risk_score a <= hi)%Z) l.
End ScanFacts.


(* ===================================================================== *)
(** ** Inputs the examples are evaluated on *)
(* ===================================================================== *)

Module Fixtures.
Import Js.

(** *** A discovered pattern and a service that reports it *)

Definition p1 : JVal :=
  JObj [("pattern_id", JStr "p1"); ("fix_template", JArr [JStr "do x"]); ("confidence", JNum 90)].

(** The text of [{"patterns":[p1]}]. *)
Definition p1Json : string :=
  "{" +:+ Str.dq +:+ "patterns" +:+ Str.dq +:+ ":[{" +:+
  Str.dq +:+ "pattern_id" +:+ Str.dq +:+ ":" +:+ Str.dq +:+ "p1" +:+ Str.dq +:+ "," +:+
  Str.dq +:+ "fix_template" +:+ Str.dq +:+ ":[" +:+ Str.dq +:+ "do x" +:+ Str.dq +:+ "]," +:+
  Str.dq +:+ "confidence" +:+ Str.dq +:+ ":90}]}".

Definition p1Response : ClaudeInterface.Content :=
  ClaudeInterface.CText ("Here is the analysis: " +:+ p1Json).

(** The record [cacheAnalysisResults] stores for [p1] at time [now]. *)
Definition p1Solution (now : Z) : IntelligenceCache.CachedSolution :=
  {| IntelligenceCache.pattern_id := "p1";
     IntelligenceCache.solution_text := JArr [JStr "do x"];
     IntelligenceCache.confidence_score := 90;
     IntelligenceCache.success_rate := 85;
     IntelligenceCache.applicable_repos := JArr [JStr "all"];
     IntelligenceCache.fix_templates := JArr [JStr "do x"];
     IntelligenceCache.prevention_strategies := JArr [];
     IntelligenceCache.cached_date := now;
     IntelligenceCache.usage_count := 0;
     IntelligenceCache.last_accessed := now |}.

(** A cache with one solution whose success rate is 80. *)
Definition solution80 : IntelligenceCache.CachedSolution :=
  {| IntelligenceCache.pattern_id := "p1";
     IntelligenceCache.solution_text := JStr "do x";
     IntelligenceCache.confidence_score := 90;
     IntelligenceCache.success_rate := 80;
     IntelligenceCache.applicable_repos := JArr [JStr "all"];
     IntelligenceCache.fix_templates := JArr [JStr "do x"];
     IntelligenceCache.prevention_strategies := JArr [];
     IntelligenceCache.cached_date := 1000;
     IntelligenceCache.usage_count := 0;
     IntelligenceCache.last_accessed := 1000 |}.

Definition cache80 : IntelligenceCache.Cache :=
  IntelligenceCache.cacheSolution IntelligenceCache.newCache solution80.

(** *** Hosts *)

(** A host in UTC that parses [p1Json] and nothing else; its hash is the
    identity. *)
Definition exampleHost : Host :=
  {| md5_hex := fun s => s;
     JSON_parse := fun s =>
       if String.eqb s p1Json then Some [("patterns", JArr [p1])] else None;
     JSON_stringify := fun _ => "{}";
     timezoneOffset := 0;
     createBatchAnalysisPrompt := fun _ _ => "BATCH ERROR ANALYSIS REQUEST" |}.

(** [n] words separated by spaces: [word] followed by a number, from 0
    on. *)
Definition numbered (word : string) (n : nat) : string :=
  String.concat " " (map (fun i => word +:+ Str.decimal (Z.of_nat i)) (seq 0 n)).

Fixpoint replicate (n : nat) (c : ascii) : string :=
  match n with
  | O => EmptyString
  | S k => String c (replicate k c)
  end.

(** A prompt of 480000 characters, as a batch of twelve errors with
    messages of 40000 characters gives, and a host that builds it. *)
Definition longPrompt : string := replicate (Z.to_nat 480000) "x"%char.

Definition longPromptHost : Host :=
  {| md5_hex := fun s => s;
     JSON_parse := fun _ => None;
     JSON_stringify := fun _ => "{}";
     timezoneOffset := 0;
     createBatchAnalysisPrompt := fun _ _ => longPrompt |}.

(** A host five hours west of Greenwich. *)
Definition easternHost : Host :=
  {| md5_hex := fun s => s;
     JSON_parse := fun _ => None;
     JSON_stringify := fun _ => "{}";
     timezoneOffset := -18000000;
     createBatchAnalysisPrompt := fun _ _ => "BATCH ERROR ANALYSIS REQUEST" |}.

(** *** Errors *)

(** Two build failures whose messages share their first nine bytes. *)
Definition buildErrorA : ErrorContext :=
  {| error_message := "Build failed: cannot resolve module a";
     stack_trace := None;
     repo_context := "cosmic-fountain";
     environment_info := None |}.

Definition buildErrorB : ErrorContext :=
  {| error_message := "Build failed: type error in module b";
     stack_trace := None;
     repo_context := "style-vault";
     environment_info := None |}.

(** Two error contexts whose memo keys coincide; only the first contains
    the text [socket hang up]. *)
Definition hangA : ErrorContext :=
  {| error_message := "socket hang";
     stack_trace := Some "up";
     repo_context := "_r";
     environment_info := None |}.

Definition hangB : ErrorContext :=
  {| error_message := "socket hang_up";
     stack_trace := None;
     repo_context := "r";
     environment_info := None |}.

(** The match of [hangA]. *)
Definition hangMatch : LocalPatternEngine.ErrorMatch :=
  {| LocalPatternEngine.pattern_id := "js_http_bridge_timeout";
     LocalPatternEngine.pattern_type := "javascript_network_error";
     LocalPatternEngine.confidence := 90;
     LocalPatternEngine.suggested_actions :=
       [ "Add retry mechanism with await retry(func, {retries: 3})";
         "Increase timeout: {timeout: 30000}";
         "Implement circuit breaker pattern" ] |}.

(** A production outage, queued on Saturday 3 January 1970 at noon UTC,
    and the scheduler that holds it alone. *)
Definition productionError : ErrorContext :=
  {| error_message := "production database unreachable";
     stack_trace := None;
     repo_context := "cosmic-fountain";
     environment_info := None |}.

Definition saturdayNoon : Z := 216000000.

Definition oneCritical : Scheduler.Scheduler :=
  snd (Scheduler.queueForClaudeAnalysis Scheduler.newScheduler productionError
         saturdayNoon saturdayNoon).

(** The object [oneCritical] holds at address 0. *)
Definition productionItem : Scheduler.QueuedError :=
  {| Scheduler.id := "error_cHJvZHVjdGlv";
     Scheduler.error_context := productionError;
     Scheduler.priority := critical;
     Scheduler.queued_at := saturdayNoon;
     Scheduler.estimated_cost := Double.nearest 0.05%Q;
     Scheduler.retry_count := 0 |}.

(** A gateway that is down. *)
Definition failingGateway : Scheduler.Gateway := fun _ => Scheduler.Raised.

(** Six errors of a weekend, queued in this order.  The second has a rich
    environment, the last three a long stack trace as well, so
    [estimateProcessingCost] gives 0.05, 0.05 + 0.01, 0.05 and three times
    0.05 + 0.02 + 0.01. *)
Definition richEnvironment : list (string * JVal) :=
  map (fun key => (key, JStr "x")) ["os"; "node"; "shell"; "region"; "host"; "user"].

Definition longTrace : string := string_of_list_ascii (repeat "x"%char 1001).

Definition shardError (n : nat) (long rich : bool) : ErrorContext :=
  {| error_message := "shard " +:+ Str.decimal (Z.of_nat n) +:+ " timed out";
     stack_trace := if long then Some longTrace else None;
     repo_context := "cosmic-fountain";
     environment_info := if rich then Some richEnvironment else None |}.

Definition weekendErrors : list ErrorContext :=
  [shardError 1 false false; shardError 2 false true; shardError 3 false false;
   shardError 4 true true; shardError 5 true true; shardError 6 true true].

Definition weekendSix : Scheduler.Scheduler :=
  fold_left
    (fun s errorContext =>
       snd (Scheduler.queueForClaudeAnalysis s errorContext saturdayNoon saturdayNoon))
    weekendErrors Scheduler.newScheduler.

(** *** Usage *)

(** [n] gateway calls in a row, all at the instant [t]. *)
Fixpoint callsAt `{Host} (n : nat) (t : Z) : ClaudeInterface.UsageTracker :=
  match n with
  | O => ClaudeInterface.newTracker
  | S k =>
      snd (ClaudeInterface.analyzeBatchWithBudget (callsAt k t) [buildErrorA] true t
             (ClaudeInterface.ApiResponse (ClaudeInterface.CText "{}")) t)
  end.

(** The record each of those calls leaves on [longPromptHost]. *)
Definition longUsage (t : Z) : ClaudeInterface.Usage :=
  {| ClaudeInterface.usage_tokens := 120001;
     ClaudeInterface.cost := ClaudeInterface.calculateCallCost 120001;
     ClaudeInterface.model := "claude-3-haiku-20240307";
     ClaudeInterface.timestamp := t;
     ClaudeInterface.batch_size := 1 |}.

Definition usageAt (t : Z) : ClaudeInterface.Usage :=
  {| ClaudeInterface.usage_tokens := 1000;
     ClaudeInterface.cost := ClaudeInterface.calculateCallCost 1000;
     ClaudeInterface.model := "claude-3-haiku-20240307";
     ClaudeInterface.timestamp := t;
     ClaudeInterface.batch_size := 1 |}.

(** A server that has made its 17 calls of the day. *)
Definition serverAtLimit : Server.Server :=
  {| Server.localPatternEngine := LocalPatternEngine.newEngine;
     Server.claudeInterface := {| ClaudeInterface.usageLog := repeat (usageAt 1000) 17 |};
     Server.intelligenceCache := IntelligenceCache.newCache;
     Server.processingScheduler := Scheduler.newScheduler |}.

(** *** Requests *)

Definition escalateArgs (batch : list ErrorContext) : Server.AnalyzeArgs :=
  {| Server.error_batch := batch;
     Server.analysis_depth := Some "claude_if_needed";
     Server.cross_repo_context := None |}.

Definition runAt (t : Z) (api : ClaudeInterface.ApiOutcome) : Server.GatewayRun :=
  {| Server.tCheck := t; Server.api := api; Server.tRecord := t; Server.tCache := t |}.

End Fixtures.

(* ===================================================================== *)
(** ** The result cache *)
(* ===================================================================== *)

Import IntelligenceCache.

Lemma getCachedSolution_hit (c : Cache) (pid : string) (sol : CachedSolution) (now : Z) :
  solutionCache c !! pid = Some sol ->
  getCachedSolution c pid now =
    (Some (touch sol now),
     {| solutionCache := <[pid := touch sol now]> (solutionCache c);
        cacheStats := cacheStats c;
        cacheHits := S (cacheHits c);
        cacheMisses := cacheMisses c |}).
Proof. intros Hs. unfold getCachedSolution. rewrite Hs. reflexivity. Qed.

(** C7. Idempotent cache hits: for a pattern id that is in the cache, two
    consecutive [getCachedSolution] calls return the cached record with
    its [solution_text] and [fix_templates] (and every field but two) as
    they were; each hit adds one to [usage_count] and sets [last_accessed],
    and no other entry of the cache changes. *)
Theorem getCachedSolution_twice_frame (c : Cache) (pid : string) (sol : CachedSolution)
    (now1 now2 : Z) :
  solutionCache c !! pid = Some sol ->
  let first := getCachedSolution c pid now1 in
  let second := getCachedSolution (snd first) pid now2 in
  exists r1 r2,
    fst first = Some r1 /\ fst second = Some r2 /\
    solutionCache (snd first) !! pid = Some r1 /\
    solutionCache (snd second) !! pid = Some r2 /\
    (* untouched by either hit *)
    solution_text r1 = solution_text sol /\ solution_text r2 = solution_text sol /\
    fix_templates r1 = fix_templates sol /\ fix_templates r2 = fix_templates sol /\
    pattern_id r2 = pattern_id sol /\
    confidence_score r2 = confidence_score sol /\
    success_rate r2 = success_rate sol /\
    applicable_repos r2 = applicable_repos sol /\
    prevention_strategies r2 = prevention_strategies sol /\
    cached_date r2 = cached_date sol /\
    (* the two fields a hit writes *)
    usage_count r1 = S (usage_count sol) /\ usage_count r2 = S (S (usage_count sol)) /\
    last_accessed r1 = now1 /\ last_accessed r2 = now2 /\
    (* the other entries of the cache *)
    (forall other, other <> pid ->
       solutionCache (snd second) !! other = solutionCache c !! other).
Proof.
  intros Hs first second. subst first second.
  rewrite (getCachedSolution_hit c pid sol now1 Hs). cbn [fst snd].
  rewrite (getCachedSolution_hit _ pid (touch sol now1) now2)
    by (cbn; apply lookup_insert_eq).
  cbn [fst snd solutionCache].
  exists (touch sol now1), (touch (touch sol now1) now2).
  repeat split; try reflexivity.
  - apply lookup_insert_eq.
  - apply lookup_insert_eq.
  - intros other Hne. rewrite !lookup_insert_ne by congruence. reflexivity.
Qed.

Lemma getCachedSolution_twice_frame_witness :
  exists r2, fst (getCachedSolution (snd (getCachedSolution Fixtures.cache80 "p1" 5)) "p1" 9) = Some r2
             /\ solution_text r2 = Js.JStr "do x" /\ usage_count r2 = 2%nat.
Proof.
  destruct (getCachedSolution_twice_frame Fixtures.cache80 "p1" Fixtures.solution80 5 9)
    as (r1 & r2 & _ & H2 & _ & _ & _ & Ht & _ & _ & _ & _ & _ & _ & _ & _ & _ & Hu & _).
  - vm_compute. reflexivity.
  - exists r2. repeat split; assumption.
Defined.

Lemma solutionOfPattern_p1 `{Host} (now : Z) :
  solutionOfPattern Fixtures.p1 now = Js.Ok (Fixtures.p1Solution now).
Proof. reflexivity. Qed.

Lemma cacheAnalysisResults_p1 `{Host} (c : Cache) (now : Z) :
  cacheAnalysisResults c [("patterns", Js.JArr [Fixtures.p1])] now =
    (Js.Ok tt, updateCacheStatistics (cacheSolution c (Fixtures.p1Solution now))).
Proof.
  unfold cacheAnalysisResults.
  change (Js.iterate (Js.or_else (Js.assoc "patterns" [("patterns", Js.JArr [Fixtures.p1])])
                        (Js.JArr []))) with (Js.Ok [Fixtures.p1]).
  cbn [cacheEach]. rewrite solutionOfPattern_p1. reflexivity.
Qed.

(** C8. Cache round trip: caching the one discovered pattern
    [{pattern_id: "p1", fix_template: ["do x"], confidence: 90}] and then
    getting ["p1"] returns a record whose [solution_text] is that fix
    template, whose [confidence_score] is 90 and whose [usage_count] is 1
    (stored at 0, raised by the get).  This holds from every cache: an
    entry already stored under ["p1"] is replaced. *)
Theorem cache_round_trip `{Host} (c : Cache) (tCache tGet : Z) :
  let put := cacheAnalysisResults c [("patterns", Js.JArr [Fixtures.p1])] tCache in
  let got := getCachedSolution (snd put) "p1" tGet in
  fst put = Js.Ok tt /\
  exists r,
    fst got = Some r /\
    solution_text r = Js.JArr [Js.JStr "do x"] /\
    fix_templates r = Js.JArr [Js.JStr "do x"] /\
    confidence_score r = 90%Q /\
    success_rate r = 85%Q /\
    usage_count r = 1%nat /\
    solutionCache (snd got) !! "p1" = Some r.
Proof.
  intros put got. subst put got.
  rewrite cacheAnalysisResults_p1. cbn [fst snd].
  split; [reflexivity|].
  rewrite (getCachedSolution_hit _ "p1" (Fixtures.p1Solution tCache) tGet)
    by (cbn; apply lookup_insert_eq).
  exists (touch (Fixtures.p1Solution tCache) tGet). cbn.
  repeat split; try reflexivity. apply lookup_insert_eq.
Qed.


Lemma Qmin_cases (a b : Q) :
  (Qmin a b <= a /\ Qmin a b <= b /\ (Qmin a b == a \/ Qmin a b == b))%Q.
Proof.
  destruct (Q.min_spec a b) as [[Hlt He]|[Hle He]]; rewrite He; repeat split; lra.
Qed.

Lemma Qmax_cases (a b : Q) :
  (a <= Qmax a b /\ b <= Qmax a b /\ (Qmax a b == a \/ Qmax a b == b))%Q.
Proof.
  destruct (Q.max_spec a b) as [[Hlt He]|[Hle He]]; rewrite He; repeat split; lra.
Qed.



(* ===================================================================== *)
(** ** Parsing the response of the service *)
(* ===================================================================== *)

Import Js ClaudeInterface GatewayFacts.

Lemma assoc_set_same (k : string) (v : JVal) (o : list (string * JVal)) :
  assoc k (assoc_set k v o) = v.
Proof.
  induction o as [|[k' v'] o IH]; cbn.
  - rewrite String.eqb_refl. reflexivity.
  - destruct (String.eqb k k') eqn:E; cbn; rewrite ?String.eqb_refl, ?E; auto.
Qed.

Lemma assoc_set_other (k k' : string) (v : JVal) (o : list (string * JVal)) :
  k <> k' -> assoc k (assoc_set k' v o) = assoc k o.
Proof.
  intros Hne. induction o as [|[k2 v2] o IH]; cbn.
  - destruct (String.eqb k k') eqn:E; [apply String.eqb_eq in E; contradiction|reflexivity].
  - destruct (String.eqb k' k2) eqn:E2; cbn.
    + apply String.eqb_eq in E2. subst k2.
      destruct (String.eqb k k') eqn:E; [apply String.eqb_eq in E; contradiction|reflexivity].
    + destruct (String.eqb k k2); auto.
Qed.

Lemma assoc_defaultField_same (k : string) (o : list (string * JVal)) :
  assoc k (defaultField k o) = or_else (assoc k o) (JArr []).
Proof.
  unfold defaultField, or_else. destruct (truthy (assoc k o)); [reflexivity|].
  apply assoc_set_same.
Qed.

Lemma assoc_defaultField_other (k k' : string) (o : list (string * JVal)) :
  k <> k' -> assoc k (defaultField k' o) = assoc k o.
Proof.
  intros Hne. unfold defaultField. destruct (truthy (assoc k' o)); [reflexivity|].
  apply assoc_set_other; assumption.
Qed.

Lemma or_else_idem (a : JVal) : or_else (or_else a (JArr [])) (JArr []) = or_else a (JArr []).
Proof. unfold or_else. destruct (truthy a) eqn:E; [rewrite E|]; reflexivity. Qed.

Lemma or_else_missing (a b : JVal) : a = JUndefined -> or_else a b = b.
Proof. intros ->. reflexivity. Qed.

Lemma parseStructuredResponse_cases `{Host} (content : Content) :
  parseStructuredResponse content =
    match extracted content with
    | Some raw => defaultField "novel_insights" (defaultField "patterns" raw)
    | None => parseFailure
    end.
Proof.
  unfold parseStructuredResponse, parseAttempt, extracted.
  destruct (textContentOf content) as [text|m|]; try reflexivity.
  destruct (jsonMatch text) as [json|]; try reflexivity.
  destruct (JSON_parse json); reflexivity.
Qed.

(** C9. Parsing the gateway's response never raises.  When no JSON object
    can be extracted from the response (no text, no brace-delimited block,
    or a block that does not parse), [parseStructuredResponse] returns the
    object with empty [patterns], [novel_insights] and
    [cross_repo_correlations] and the note "Failed to parse structured
    response".  When an object is extracted, [patterns] and
    [novel_insights] that are missing become empty lists.  In both cases
    [analyzeBatchWithBudget] returns a result, in which each of the three
    list fields that is missing is the empty list. *)
Theorem gateway_parsing_never_raises `{Host} (content : Content) :
  let parsed := parseStructuredResponse content in
  (* parseStructuredResponse: an object in every case *)
  match extracted content with
  | None =>
      parsed = parseFailure /\
      assoc "patterns" parsed = JArr [] /\
      assoc "novel_insights" parsed = JArr [] /\
      assoc "cross_repo_correlations" parsed = JArr [] /\
      assoc "processing_notes" parsed = JStr "Failed to parse structured response"
  | Some raw =>
      parsed = defaultField "novel_insights" (defaultField "patterns" raw) /\
      assoc "patterns" parsed = or_else (assoc "patterns" raw) (JArr []) /\
      assoc "novel_insights" parsed = or_else (assoc "novel_insights" raw) (JArr []) /\
      (assoc "patterns" raw = JUndefined -> assoc "patterns" parsed = JArr []) /\
      (assoc "novel_insights" raw = JUndefined -> assoc "novel_insights" parsed = JArr [])
  end /\
  (* analyzeBatchWithBudget: the call succeeds whatever the parse gave *)
  forall (t : UsageTracker) (errorBatch : list ErrorContext) (crossRepoContext : bool)
         (tCheck tRecord tokens : Z),
    can_proceed (checkDailyBudget t tCheck) = true ->
    estimateTokenUsage
      (createBatchAnalysisPrompt (optimizeForCostEfficiency errorBatch) crossRepoContext)
      content = Ok tokens ->
    exists r,
      fst (analyzeBatchWithBudget t errorBatch crossRepoContext tCheck
             (ApiResponse content) tRecord) = Ok r /\
      match extracted content with
      | None =>
          patterns r = JArr [] /\ novel_insights r = JArr [] /\
          cross_repo_correlations r = JArr []
      | Some raw =>
          patterns r = or_else (assoc "patterns" raw) (JArr []) /\
          novel_insights r = or_else (assoc "novel_insights" raw) (JArr []) /\
          cross_repo_correlations r =
            or_else (assoc "cross_repo_correlations" raw) (JArr []) /\
          (assoc "patterns" raw = JUndefined -> patterns r = JArr []) /\
          (assoc "novel_insights" raw = JUndefined -> novel_insights r = JArr []) /\
          (assoc "cross_repo_correlations" raw = JUndefined ->
             cross_repo_correlations r = JArr [])
      end.
Proof.
  intros parsed. subst parsed. split.
  - rewrite parseStructuredResponse_cases.
    destruct (extracted content) as [raw|].
    + repeat first
        [ rewrite assoc_defaultField_same
        | rewrite assoc_defaultField_other by discriminate ].
      repeat split; try reflexivity; intros ->; reflexivity.
    + repeat split; reflexivity.
  - intros t errorBatch crossRepoContext tCheck tRecord tokens Hgo Htok.
    unfold analyzeBatchWithBudget. rewrite Hgo. cbn [negb]. rewrite Htok. cbn [fst].
    eexists. split; [reflexivity|]. cbn [patterns novel_insights cross_repo_correlations].
    rewrite parseStructuredResponse_cases.
    destruct (extracted content) as [raw|].
    + repeat first
        [ rewrite assoc_defaultField_same
        | rewrite assoc_defaultField_other by discriminate ].
      rewrite !or_else_idem.
      repeat split; try reflexivity; intros ->; reflexivity.
    + repeat split; reflexivity.
Qed.

Lemma gateway_parsing_never_raises_witness :
  exists r,
    fst (@ClaudeInterface.analyzeBatchWithBudget Fixtures.exampleHost ClaudeInterface.newTracker
           [Fixtures.buildErrorA] true 1000
           (ClaudeInterface.ApiResponse (ClaudeInterface.CText "Sorry, no structured output."))
           1000) = Js.Ok r /\
    ClaudeInterface.patterns r = Js.JArr [] /\
    ClaudeInterface.novel_insights r = Js.JArr [] /\
    ClaudeInterface.cross_repo_correlations r = Js.JArr [].
Proof.
  destruct (proj2 (@gateway_parsing_never_raises Fixtures.exampleHost
                     (ClaudeInterface.CText "Sorry, no structured output."))
              ClaudeInterface.newTracker [Fixtures.buildErrorA] true 1000%Z 1000%Z 14%Z
              eq_refl eq_refl)
    as (r & Hr & Hfields).
  exists r. split; [exact Hr|]. exact Hfields.
Defined.

(* ===================================================================== *)
(** ** The handlers *)
(* ===================================================================== *)

Import Server.

Lemma todayUsage_length `{Host} (t : UsageTracker) (now : Z) :
  (length (todayUsage t now) <= length (usageLog t))%nat.
Proof. unfold todayUsage. apply filter_length_le. Qed.

Lemma checkDailyBudget_short_log `{Host} (t : UsageTracker) (now : Z) :
  (length (usageLog t) < DAILY_CALL_LIMIT)%nat ->
  can_proceed (checkDailyBudget t now) = true.
Proof.
  intros Hlen. unfold checkDailyBudget. cbn [can_proceed].
  apply Nat.ltb_lt. pose proof (todayUsage_length t now). lia.
Qed.

Lemma analyzeBatchWithBudget_ok `{Host} (t : UsageTracker) (errorBatch : list ErrorContext)
    (crossRepoContext : bool) (tCheck tRecord : Z) (content : Content) (tokens : Z) :
  can_proceed (checkDailyBudget t tCheck) = true ->
  estimateTokenUsage
    (createBatchAnalysisPrompt (optimizeForCostEfficiency errorBatch) crossRepoContext)
    content = Ok tokens ->
  analyzeBatchWithBudget t errorBatch crossRepoContext tCheck (ApiResponse content) tRecord =
    (Ok {| patterns := or_else (assoc "patterns" (parseStructuredResponse content)) (JArr []);
           novel_insights :=
             or_else (assoc "novel_insights" (parseStructuredResponse content)) (JArr []);
           cross_repo_correlations :=
             or_else (assoc "cross_repo_correlations" (parseStructuredResponse content))
               (JArr []);
           api_cost := calculateCallCost tokens;
           tokens_used := tokens |},
     recordUsage t
       {| usage_tokens := tokens;
          cost := calculateCallCost tokens;
          model := "claude-3-haiku-20240307";
          timestamp := tRecord;
          batch_size := length (optimizeForCostEfficiency errorBatch) |}).
Proof.
  intros Hgo Htok. unfold analyzeBatchWithBudget. rewrite Hgo. cbn [negb].
  rewrite Htok. reflexivity.
Qed.

Lemma analyzeBatchWithBudget_exhausted `{Host} (t : UsageTracker)
    (errorBatch : list ErrorContext) (crossRepoContext : bool) (tCheck tRecord : Z)
    (api : ApiOutcome) :
  can_proceed (checkDailyBudget t tCheck) = false ->
  analyzeBatchWithBudget t errorBatch crossRepoContext tCheck api tRecord =
    (Throw ("Daily budget exceeded. Used " +:+
            Str.decimal (Z.of_nat (calls_made_today (checkDailyBudget t tCheck))) +:+
            "/" +:+ Str.decimal (Z.of_nat DAILY_CALL_LIMIT) +:+ " calls"), t).
Proof. intros Hno. unfold analyzeBatchWithBudget. rewrite Hno. reflexivity. Qed.

(** C5. Budget exhaustion: when the gateway's daily budget check says that
    no call may be made, an [analyzeErrorPatterns] request of depth
    [claude_if_needed] does not call the service and leaves the server as
    it was, but what it returns is the failure "Failed to analyze error
    patterns" with the detail "Daily budget exceeded", not a
    [local_fallback_budget_exceeded] result: the handler tests the budget
    object itself for falsity, and an object is never false. *)
Theorem analyzeErrorPatterns_budget_exhausted `{Host} (srv : Server) (args : AnalyzeArgs)
    (run : GatewayRun) :
  default "claude_if_needed" (analysis_depth args) = "claude_if_needed" ->
  can_proceed (checkDailyBudget (claudeInterface srv) (tCheck run)) = false ->
  analyzeErrorPatterns srv args run =
    (failed "Failed to analyze error patterns"
       ("Daily budget exceeded. Used " +:+
        Str.decimal (Z.of_nat (calls_made_today
                                 (checkDailyBudget (claudeInterface srv) (tCheck run)))) +:+
        "/" +:+ Str.decimal (Z.of_nat DAILY_CALL_LIMIT) +:+ " calls"),
     srv).
Proof.
  intros Hdepth Hno. unfold analyzeErrorPatterns. rewrite Hdepth.
  change (String.eqb "claude_if_needed" "local_only") with false. cbv iota.
  change (negb (truthyObject Scheduler.checkDailyBudget)) with false.
  cbn [andb].
  rewrite analyzeBatchWithBudget_exhausted by assumption.
  destruct srv; reflexivity.
Qed.

Lemma analyzeErrorPatterns_budget_exhausted_witness :
  @analyzeErrorPatterns Fixtures.exampleHost Fixtures.serverAtLimit
     (Fixtures.escalateArgs [Fixtures.buildErrorA])
     (Fixtures.runAt 2000 (ApiResponse Fixtures.p1Response)) =
  (failed "Failed to analyze error patterns" "Daily budget exceeded. Used 17/17 calls",
   Fixtures.serverAtLimit).
Proof.
  exact (@analyzeErrorPatterns_budget_exhausted Fixtures.exampleHost Fixtures.serverAtLimit
           (Fixtures.escalateArgs [Fixtures.buildErrorA])
           (Fixtures.runAt 2000 (ApiResponse Fixtures.p1Response)) eq_refl eq_refl).
Defined.

(** 0.55 millionths of a dollar per token. *)
Lemma calculateCallCost_linear (tokens : Z) :
  (calculateCallCost tokens == inject_Z tokens * 0.00000055)%Q.
Proof. unfold calculateCallCost. field. Qed.

Lemma calculateCallCost_pos (tokens : Z) : (0 < tokens)%Z -> (0 < calculateCallCost tokens)%Q.
Proof.
  intros Hpos. rewrite calculateCallCost_linear.
  assert (0 < inject_Z tokens)%Q by (rewrite Zlt_Qlt in Hpos; exact Hpos).
  lra.
Qed.

Lemma calculateCallCost_nonneg (tokens : Z) : (0 <= tokens)%Z -> (0 <= calculateCallCost tokens)%Q.
Proof.
  intros Hpos. rewrite calculateCallCost_linear.
  assert (0 <= inject_Z tokens)%Q by (rewrite Zle_Qle in Hpos; exact Hpos).
  lra.
Qed.

Lemma ceilDiv4_nonneg (n : nat) : (0 <= ceilDiv4 n)%Z.
Proof. unfold ceilDiv4. apply Z.div_pos; lia. Qed.

Lemma jsonMatch_p1Response :
  jsonMatch ("Here is the analysis: " +:+ Fixtures.p1Json) = Some Fixtures.p1Json.
Proof. vm_compute. reflexivity. Qed.

Lemma cacheAnalysisResults_only_p1 `{Host} (c : IntelligenceCache.Cache)
    (o : list (string * JVal)) (now : Z) :
  assoc "patterns" o = JArr [Fixtures.p1] ->
  assoc "novel_insights" o = JArr [] ->
  IntelligenceCache.cacheAnalysisResults c o now =
    (Ok tt, IntelligenceCache.updateCacheStatistics
              (IntelligenceCache.cacheSolution c (Fixtures.p1Solution now))).
Proof.
  intros Hp Hn. unfold IntelligenceCache.cacheAnalysisResults. rewrite Hp, Hn.
  change (iterate (or_else (JArr [Fixtures.p1]) (JArr []))) with (Ok [Fixtures.p1]).
  cbn [IntelligenceCache.cacheEach]. rewrite solutionOfPattern_p1.
  reflexivity.
Qed.

(** One paid call that reports [p1], from any server that may still call. *)
Lemma analyzeErrorPatterns_p1 `{Host} (srv : Server) (batch : list ErrorContext)
    (run : GatewayRun) :
  JSON_parse Fixtures.p1Json = Some [("patterns", JArr [Fixtures.p1])] ->
  api run = ApiResponse Fixtures.p1Response ->
  can_proceed (checkDailyBudget (claudeInterface srv) (tCheck run)) = true ->
  exists tokens,
    (0 < tokens)%Z /\
    analyzeErrorPatterns srv (Fixtures.escalateArgs batch) run =
      (claude_enhanced (JArr [Fixtures.p1]) (JArr []) (JArr []) (calculateCallCost tokens) true,
       {| localPatternEngine := localPatternEngine srv;
          claudeInterface :=
            recordUsage (claudeInterface srv)
              {| usage_tokens := tokens;
                 cost := calculateCallCost tokens;
                 model := "claude-3-haiku-20240307";
                 timestamp := tRecord run;
                 batch_size := length (optimizeForCostEfficiency batch) |};
          intelligenceCache :=
            IntelligenceCache.updateCacheStatistics
              (IntelligenceCache.cacheSolution (intelligenceCache srv)
                 (Fixtures.p1Solution (tCache run)));
          processingScheduler := processingScheduler srv |}).
Proof.
  intros Hparse Hapi Hgo.
  set (prompt := createBatchAnalysisPrompt (optimizeForCostEfficiency batch) true).
  set (tokens := (ceilDiv4 (String.length prompt) +
                  ceilDiv4 (String.length ("Here is the analysis: " +:+ Fixtures.p1Json)))%Z).
  exists tokens. split.
  { subst tokens. pose proof (ceilDiv4_nonneg (String.length prompt)).
    assert (0 < ceilDiv4 (String.length ("Here is the analysis: " +:+ Fixtures.p1Json)))%Z
      by (vm_compute; reflexivity).
    lia. }
  assert (Hparsed : parseStructuredResponse Fixtures.p1Response =
                    [("patterns", JArr [Fixtures.p1]); ("novel_insights", JArr [])]).
  { rewrite parseStructuredResponse_cases. unfold extracted.
    cbn [textContentOf Fixtures.p1Response]. rewrite jsonMatch_p1Response, Hparse.
    reflexivity. }
  unfold analyzeErrorPatterns.
  cbn [Fixtures.escalateArgs analysis_depth cross_repo_context error_batch default
       from_option id].
  change (String.eqb "claude_if_needed" "local_only") with false. cbv iota.
  change (negb (truthyObject Scheduler.checkDailyBudget)) with false. cbn [andb].
  rewrite Hapi.
  rewrite (analyzeBatchWithBudget_ok _ _ _ _ _ _ tokens Hgo) by reflexivity.
  rewrite Hparsed.
  cbn [patterns novel_insights cross_repo_correlations api_cost assoc or_else truthy
       String.eqb Ascii.eqb Bool.eqb].
  rewrite cacheAnalysisResults_only_p1 by reflexivity.
  reflexivity.
Qed.

(** C1. A pattern is paid for again: on a fresh server, the same batch
    analyzed twice by [analyzeErrorPatterns], with the service reporting
    the pattern [p1] both times, is sent to the service both times.  Both
    calls cost money and are recorded in the usage log, although [p1] is
    in the cache after the first; the second call replaces the cached
    entry. *)
Theorem analyzeErrorPatterns_pays_again `{Host} (batch : list ErrorContext)
    (run1 run2 : GatewayRun) :
  JSON_parse Fixtures.p1Json = Some [("patterns", JArr [Fixtures.p1])] ->
  api run1 = ApiResponse Fixtures.p1Response ->
  api run2 = ApiResponse Fixtures.p1Response ->
  let first := analyzeErrorPatterns newServer (Fixtures.escalateArgs batch) run1 in
  let second := analyzeErrorPatterns (snd first) (Fixtures.escalateArgs batch) run2 in
  exists cost1 cost2,
    (* the first call pays and introduces p1 *)
    fst first = claude_enhanced (JArr [Fixtures.p1]) (JArr []) (JArr []) cost1 true /\
    (0 < cost1)%Q /\
    IntelligenceCache.solutionCache (intelligenceCache (snd first)) !! "p1" =
      Some (Fixtures.p1Solution (tCache run1)) /\
    (* with p1 cached, the same batch is sent and paid for again *)
    fst second = claude_enhanced (JArr [Fixtures.p1]) (JArr []) (JArr []) cost2 true /\
    (0 < cost2)%Q /\
    IntelligenceCache.solutionCache (intelligenceCache (snd second)) !! "p1" =
      Some (Fixtures.p1Solution (tCache run2)) /\
    map cost (usageLog (claudeInterface (snd second))) = [cost1; cost2].
Proof.
  intros Hparse Hapi1 Hapi2 first second. subst first second.
  destruct (analyzeErrorPatterns_p1 newServer batch run1 Hparse Hapi1) as (k1 & Hk1 & E1).
  { apply checkDailyBudget_short_log. cbn. unfold DAILY_CALL_LIMIT. lia. }
  rewrite E1. cbn [fst snd].
  match goal with
  | |- context [analyzeErrorPatterns ?s _ run2] =>
      destruct (analyzeErrorPatterns_p1 s batch run2 Hparse Hapi2) as (k2 & Hk2 & E2)
  end.
  { apply checkDailyBudget_short_log. cbn. unfold DAILY_CALL_LIMIT. lia. }
  rewrite E2. cbn [fst snd claudeInterface intelligenceCache].
  exists (calculateCallCost k1), (calculateCallCost k2).
  repeat split;
    first [ apply calculateCallCost_pos; assumption
          | cbn; apply lookup_insert_eq
          | reflexivity ].
Qed.

Lemma analyzeErrorPatterns_pays_again_witness :
  exists cost2,
    fst (@analyzeErrorPatterns Fixtures.exampleHost
           (snd (@analyzeErrorPatterns Fixtures.exampleHost newServer
                   (Fixtures.escalateArgs [Fixtures.buildErrorA])
                   (Fixtures.runAt 1000 (ApiResponse Fixtures.p1Response))))
           (Fixtures.escalateArgs [Fixtures.buildErrorA])
           (Fixtures.runAt 2000 (ApiResponse Fixtures.p1Response))) =
      claude_enhanced (JArr [Fixtures.p1]) (JArr []) (JArr []) cost2 true /\
    (0 < cost2)%Q.
Proof.
  destruct (@analyzeErrorPatterns_pays_again Fixtures.exampleHost [Fixtures.buildErrorA]
              (Fixtures.runAt 1000 (ApiResponse Fixtures.p1Response))
              (Fixtures.runAt 2000 (ApiResponse Fixtures.p1Response))
              eq_refl eq_refl eq_refl)
    as (cost1 & cost2 & _ & _ & _ & E2 & P2 & _).
  exists cost2. split; assumption.
Defined.

(* ===================================================================== *)
(** ** The local classifier *)
(* ===================================================================== *)

Import LocalPatternEngine EngineFacts.

Lemma calculateConfidence_range (p : ErrorPattern) (ctx : ErrorContext) (text : string) :
  Regex.test_i (signature p) text = true ->
  (90 <= calculateConfidence p ctx text <= 100)%Z.
Proof.
  intros Hm. unfold calculateConfidence. rewrite Hm. cbv zeta.
  repeat match goal with
         | |- context [if ?b then _ else _] => destruct b
         end; lia.
Qed.

Lemma matchStep_bestOf (ctx : ErrorContext) (seen : list (string * ErrorPattern))
    (m : ErrorMatch) (e : string * ErrorPattern) :
  bestOf ctx seen m ->
  bestOf ctx (seen ++ [e]) (matchStep ctx (combinedTextOf ctx) m e).
Proof.
  intros Hbest. destruct e as [pid p]. unfold matchStep.
  destruct (Regex.test_i (signature p) (combinedTextOf ctx)) eqn:Hre.
  - pose proof (calculateConfidence_range p ctx _ Hre) as Hrange.
    set (c := calculateConfidence p ctx (combinedTextOf ctx)) in *.
    destruct (c >=? confidence_threshold p)%Z eqn:Hth.
    + (* the entry qualifies *)
      assert (Hq : qualifies ctx p = true).
      { unfold qualifies. rewrite Hre. exact Hth. }
      destruct (c >? confidence m)%Z eqn:Hgt; cbn [andb].
      * right. exists (pid, p). split; [apply in_or_app; right; left; reflexivity|].
        split; [exact Hq|]. split; [reflexivity|].
        intros e' Hin Hq'. apply in_app_or in Hin. destruct Hin as [Hin|[<-|[]]].
        -- destruct Hbest as [[-> Hnone]|(e0 & _ & _ & -> & Hmax)].
           ++ rewrite (Hnone e' Hin) in Hq'. discriminate.
           ++ specialize (Hmax e' Hin Hq'). cbn [confidence matchOf] in *.
              fold c. apply Z.gtb_lt in Hgt. cbn [snd]. lia.
        -- cbn. lia.
      * destruct Hbest as [[-> Hnone]|(e0 & Hin0 & Hq0 & -> & Hmax)].
        -- exfalso. cbn [confidence unmatched] in Hgt.
           rewrite Z.gtb_ltb in Hgt. apply Z.ltb_ge in Hgt. lia.
        -- right. exists e0. split; [apply in_or_app; left; exact Hin0|].
           split; [exact Hq0|]. split; [reflexivity|].
           intros e' Hin Hq'. apply in_app_or in Hin. destruct Hin as [Hin|[<-|[]]].
           ++ apply Hmax; assumption.
           ++ cbn [confidence matchOf snd] in *. fold c.
              rewrite Z.gtb_ltb in Hgt. apply Z.ltb_ge in Hgt. exact Hgt.
    + (* matched, below its threshold *)
      rewrite andb_false_r.
      assert (Hq : qualifies ctx p = false).
      { unfold qualifies. rewrite Hre. exact Hth. }
      destruct Hbest as [[-> Hnone]|(e0 & Hin0 & Hq0 & -> & Hmax)].
      * left. split; [reflexivity|]. intros e' Hin.
        apply in_app_or in Hin. destruct Hin as [Hin|[<-|[]]]; auto.
      * right. exists e0. split; [apply in_or_app; left; exact Hin0|].
        split; [exact Hq0|]. split; [reflexivity|].
        intros e' Hin Hq'. apply in_app_or in Hin. destruct Hin as [Hin|[<-|[]]].
        -- apply Hmax; assumption.
        -- cbn [snd] in Hq'. congruence.
  - assert (Hq : qualifies ctx p = false).
    { unfold qualifies. rewrite Hre. reflexivity. }
    destruct Hbest as [[-> Hnone]|(e0 & Hin0 & Hq0 & -> & Hmax)].
    + left. split; [reflexivity|]. intros e' Hin.
      apply in_app_or in Hin. destruct Hin as [Hin|[<-|[]]]; auto.
    + right. exists e0. split; [apply in_or_app; left; exact Hin0|].
      split; [exact Hq0|]. split; [reflexivity|].
      intros e' Hin Hq'. apply in_app_or in Hin. destruct Hin as [Hin|[<-|[]]].
      * apply Hmax; assumption.
      * cbn [snd] in Hq'. congruence.
Qed.

Lemma fold_matchStep_bestOf (ctx : ErrorContext) (rest seen : list (string * ErrorPattern))
    (m : ErrorMatch) :
  bestOf ctx seen m ->
  bestOf ctx (seen ++ rest) (fold_left (matchStep ctx (combinedTextOf ctx)) rest m).
Proof.
  revert seen m. induction rest as [|e rest IH]; intros seen m Hbest; cbn [fold_left].
  - rewrite app_nil_r. exact Hbest.
  - replace (seen ++ e :: rest) with ((seen ++ [e]) ++ rest)
      by (rewrite <- app_assoc; reflexivity).
    apply IH. apply matchStep_bestOf. exact Hbest.
Qed.

(** On a memo miss the loop returns the sentinel when no pattern
    qualifies, and otherwise a qualifying pattern of highest confidence. *)
Lemma scanPatterns_contract (patterns : list (string * ErrorPattern)) (ctx : ErrorContext) :
  bestOf ctx patterns (scanPatterns patterns ctx).
Proof.
  unfold scanPatterns. apply (fold_matchStep_bestOf ctx patterns []).
  left. split; [reflexivity|]. intros e [].
Qed.

Lemma matchErrorPattern_miss `{Host} (engine : Engine) (ctx : ErrorContext) :
  signatureCache engine !! createErrorSignature ctx = None ->
  fst (matchErrorPattern engine ctx) = scanPatterns (patternMap engine) ctx.
Proof. intros Hmiss. unfold matchErrorPattern. rewrite Hmiss. reflexivity. Qed.

Lemma matchErrorPattern_hit `{Host} (engine : Engine) (ctx : ErrorContext) (m : ErrorMatch) :
  signatureCache engine !! createErrorSignature ctx = Some m ->
  matchErrorPattern engine ctx = (m, engine).
Proof. intros Hhit. unfold matchErrorPattern. rewrite Hhit. reflexivity. Qed.

Lemma matchErrorPattern_newEngine `{Host} (ctx : ErrorContext) :
  matchErrorPattern newEngine ctx =
    (scanPatterns initializePatternDatabase ctx,
     {| patternMap := initializePatternDatabase;
        signatureCache :=
          <[createErrorSignature ctx := scanPatterns initializePatternDatabase ctx]> ∅ |}).
Proof.
  unfold matchErrorPattern, newEngine. cbn [signatureCache patternMap].
  rewrite lookup_empty. reflexivity.
Qed.

(** C3. The memo of [matchErrorPattern] can answer for another error: the
    contexts [hangA] and [hangB] get the same memo key, so after [hangA]
    has been matched (pattern [js_http_bridge_timeout], confidence 90),
    [hangB] is answered with that match although no signature of the
    library matches its text and the loop would return the sentinel. *)
Theorem matchErrorPattern_memo_answers_for_other_error `{Host} :
  let first := matchErrorPattern newEngine Fixtures.hangA in
  let second := matchErrorPattern (snd first) Fixtures.hangB in
  (* the second error matches no signature at all *)
  existsb (fun e => Regex.test_i (signature (snd e)) (combinedTextOf Fixtures.hangB))
    initializePatternDatabase = false /\
  scanPatterns initializePatternDatabase Fixtures.hangB = unmatched /\
  (* and is answered with the first error's match *)
  fst second = fst first /\
  pattern_id (fst second) = "js_http_bridge_timeout" /\
  confidence (fst second) = 90%Z.
Proof.
  intros first second. subst first second.
  assert (Hkey : createErrorSignature Fixtures.hangB = createErrorSignature Fixtures.hangA)
    by reflexivity.
  assert (Hscan : scanPatterns initializePatternDatabase Fixtures.hangA = Fixtures.hangMatch)
    by (vm_compute; reflexivity).
  split; [vm_compute; reflexivity|]. split; [vm_compute; reflexivity|].
  rewrite matchErrorPattern_newEngine. cbn [fst snd].
  rewrite (matchErrorPattern_hit _ Fixtures.hangB
             (scanPatterns initializePatternDatabase Fixtures.hangA))
    by (cbn [signatureCache]; rewrite Hkey; apply lookup_insert_eq).
  cbn [fst]. rewrite Hscan. repeat split; reflexivity.
Qed.

(* ===================================================================== *)
(** ** Queue positions *)
(* ===================================================================== *)

Import Scheduler QueueFacts.

Lemma queuedErrors_grow (hp : list QueuedError) (q : QueuedError) (vals : list nat) :
  (forall a, In a vals -> (a < length hp)%nat) ->
  omap (fun a => option_map (pair a) ((hp ++ [q]) !! a)) vals =
  omap (fun a => option_map (pair a) (hp !! a)) vals.
Proof.
  induction vals as [|a vals IH]; intros Hvalid; [reflexivity|].
  cbn [omap list_omap]. rewrite (lookup_app_l hp [q] a) by (apply Hvalid; left; reflexivity).
  rewrite IH by (intros b Hb; apply Hvalid; right; exact Hb). reflexivity.
Qed.

(** The position reported by an enqueue: one more than the number of
    queued items, other than the one stored under the new item's id, that
    weigh at least as much. *)
Lemma queue_position_formula (s : Scheduler) (errorContext : ErrorContext)
    (dateNow queuedAt : Z) :
  addressesValid s ->
  position (fst (queueForClaudeAnalysis s errorContext dateNow queuedAt)) =
    S (atLeast (priorityWeights (determinePriority errorContext))
         (queuedErrors (deleteQueued s (generateErrorId errorContext dateNow)))).
Proof.
  intros Hvalid. unfold queueForClaudeAnalysis. cbn [fst position].
  unfold calculateQueuePosition, atLeast, queuedErrors, deleteQueued.
  cbn [heap errorQueue priority].
  set (k := generateErrorId errorContext dateNow).
  set (w := priorityWeights (determinePriority errorContext)).
  set (q := {| id := k; retry_count := 0 |}).
  set (P := fun queued : nat * QueuedError => (priorityWeights (priority (snd queued)) >=? w)%Z).
  unfold addressesValid in Hvalid.
  revert Hvalid. generalize (errorQueue s) as m.
  induction m as [|[k' a'] m IH]; intros Hvalid.
  - cbn. rewrite lookup_app_r by lia. rewrite Nat.sub_diag. cbn.
    assert (HP : P (length (heap s), q) = true) by (unfold P; cbn; apply Z.geb_le; lia).
    rewrite HP. reflexivity.
  - cbn [JsMap.set JsMap.delete].
    destruct (String.eqb k k') eqn:E.
    + cbn [JsMap.values map snd omap list_omap].
      rewrite lookup_app_r by lia. rewrite Nat.sub_diag. cbn [lookup list_lookup option_map].
      assert (HP : P (length (heap s), q) = true) by (unfold P; cbn; apply Z.geb_le; lia).
      cbn [List.filter]. rewrite HP. cbn [length]. f_equal. f_equal. f_equal.
      apply queuedErrors_grow. intros b Hb. apply in_map_iff in Hb.
      destruct Hb as ([kb vb] & <- & Hin). apply (Hvalid kb). right. exact Hin.
    + cbn [JsMap.values map snd omap list_omap].
      rewrite (lookup_app_l (heap s) [q] a') by (apply (Hvalid k'); left; reflexivity).
      assert (IH' := IH (fun k0 a0 Hin => Hvalid k0 a0 (or_intror Hin))).
      unfold JsMap.values in IH'.
      destruct (heap s !! a') as [qa|]; cbn [option_map].
      * cbn [List.filter]. destruct (P (a', qa)); cbn [length]; rewrite IH'; reflexivity.
      * exact IH'.
Qed.

Lemma queue_position_at_least_one (s : Scheduler) (errorContext : ErrorContext)
    (dateNow queuedAt : Z) :
  addressesValid s ->
  (1 <= position (fst (queueForClaudeAnalysis s errorContext dateNow queuedAt)))%nat.
Proof. intros Hvalid. rewrite queue_position_formula by assumption. lia. Qed.

Lemma JsMap_delete_absent {V} (k : string) (m : list (string * V)) :
  JsMap.get k m = None -> JsMap.delete k m = m.
Proof.
  induction m as [|[k' v] m IH]; cbn; [reflexivity|].
  destruct (String.eqb k k'); [discriminate|]. intros Hn. rewrite IH by assumption. reflexivity.
Qed.

(** With an id that is not in the queue, the position is the one the
    specification states. *)
Lemma queue_position_fresh_id (s : Scheduler) (errorContext : ErrorContext)
    (dateNow queuedAt : Z) :
  addressesValid s ->
  JsMap.get (generateErrorId errorContext dateNow) (errorQueue s) = None ->
  position (fst (queueForClaudeAnalysis s errorContext dateNow queuedAt)) =
    S (atLeast (priorityWeights (determinePriority errorContext)) (queuedErrors s)).
Proof.
  intros Hvalid Hfresh. rewrite queue_position_formula by assumption.
  unfold deleteQueued, queuedErrors. cbn [heap errorQueue].
  rewrite JsMap_delete_absent by assumption. reflexivity.
Qed.

(** C10. An enqueue can evict a queued item: two errors whose messages
    share their first nine bytes get the same queue id, so the second
    enqueue replaces the first item in the queue.  The position it
    reports is 1 although one item of the same weight was queued before
    it. *)
Theorem queueForClaudeAnalysis_evicts_same_prefix :
  let first :=
    queueForClaudeAnalysis newScheduler Fixtures.buildErrorA 1700000000000 1700000000000 in
  let second :=
    queueForClaudeAnalysis (snd first) Fixtures.buildErrorB 1700000360000 1700000360000 in
  position (fst first) = 1%nat /\
  (* one item is queued, and it weighs as much as the new one *)
  atLeast (priorityWeights (determinePriority Fixtures.buildErrorB))
    (queuedErrors (snd first)) = 1%nat /\
  (* both items get the id of their common nine-byte prefix *)
  generateErrorId Fixtures.buildErrorA 1700000000000 = "error_QnVpbGQgZmFp" /\
  generateErrorId Fixtures.buildErrorB 1700000360000 = "error_QnVpbGQgZmFp" /\
  (* the position is 1, not 2, and the first item has left the queue *)
  position (fst second) = 1%nat /\
  map (fun queued => error_message (error_context (snd queued))) (queuedErrors (snd second)) =
    ["Build failed: type error in module b"].
Proof. vm_compute. repeat split; reflexivity. Qed.

(* ===================================================================== *)
(** ** The usage ledger *)
(* ===================================================================== *)

Import ClaudeInterface BudgetFacts.

Lemma toDateString_mono `{Host} (a b : Z) :
  (a <= b)%Z -> (Clock.toDateString a <= Clock.toDateString b)%Z.
Proof.
  intros Hab. unfold Clock.toDateString, Clock.msPerDay.
  apply Z.div_le_mono; lia.
Qed.

Lemma sumCost_snoc (l : list Usage) (u : Usage) : sumCost (l ++ [u]) = (sumCost l + cost u)%Q.
Proof. unfold sumCost. rewrite fold_left_app. reflexivity. Qed.

Lemma todayUsage_recordUsage `{Host} (t : UsageTracker) (u : Usage) (q : Z) :
  todayUsage (recordUsage t u) q =
    todayUsage t q ++
    (if (Clock.toDateString (timestamp u) =? Clock.toDateString q)%Z then [u] else []).
Proof. unfold todayUsage, recordUsage. cbn [usageLog]. rewrite List.filter_app. reflexivity. Qed.

Lemma todayUsage_same_day `{Host} (t : UsageTracker) (q q' : Z) :
  Clock.toDateString q = Clock.toDateString q' -> todayUsage t q = todayUsage t q'.
Proof. intros Hd. unfold todayUsage. rewrite Hd. reflexivity. Qed.

Lemma todayUsage_later_day `{Host} (t : UsageTracker) (now q : Z) :
  (forall u, In u (usageLog t) -> (timestamp u <= now)%Z) ->
  (Clock.toDateString now < Clock.toDateString q)%Z ->
  todayUsage t q = [].
Proof.
  intros Hpast Hlater. unfold todayUsage.
  induction (usageLog t) as [|u l IH]; [reflexivity|].
  cbn [List.filter].
  pose proof (toDateString_mono (timestamp u) now (Hpast u (or_introl eq_refl))) as Hu.
  destruct (Z.eqb_spec (Clock.toDateString (timestamp u)) (Clock.toDateString q)); [lia|].
  apply IH. intros v Hv. apply Hpast. right. exact Hv.
Qed.

Lemma estimateTokenUsage_nonneg (prompt : string) (content : Content) (tokens : Z) :
  estimateTokenUsage prompt content = Js.Ok tokens -> (0 <= tokens)%Z.
Proof.
  unfold estimateTokenUsage.
  destruct content; intros E; inversion E; subst;
    repeat match goal with
           | |- context [ceilDiv4 ?n] => pose proof (ceilDiv4_nonneg n); generalize dependent (ceilDiv4 n)
           end; intros; lia.
Qed.

(** What a gateway call does to the tracker: nothing, or one record
    stamped [tRecord] after a budget check that passed at [tCheck]. *)
Lemma analyzeBatchWithBudget_tracker `{Host} (t : UsageTracker) (errorBatch : list ErrorContext)
    (crossRepoContext : bool) (tCheck : Z) (api : ApiOutcome) (tRecord : Z) :
  snd (analyzeBatchWithBudget t errorBatch crossRepoContext tCheck api tRecord) = t \/
  (can_proceed (checkDailyBudget t tCheck) = true /\
   exists u,
     snd (analyzeBatchWithBudget t errorBatch crossRepoContext tCheck api tRecord) =
       recordUsage t u /\
     timestamp u = tRecord /\ (0 <= cost u)%Q).
Proof.
  unfold analyzeBatchWithBudget.
  destruct (can_proceed (checkDailyBudget t tCheck)) eqn:Hgo; cbn [negb]; [|left; reflexivity].
  destruct api as [m|content]; [left; reflexivity|].
  destruct (estimateTokenUsage _ content) as [tokens|m|] eqn:Htok;
    [|left; reflexivity|left; reflexivity].
  right. split; [reflexivity|]. eexists. cbn [snd]. split; [reflexivity|].
  cbn [timestamp cost]. split; [reflexivity|].
  apply calculateCallCost_nonneg. eapply estimateTokenUsage_nonneg. exact Htok.
Qed.

Lemma reachable_invariant `{Host} (now : Z) (t : UsageTracker) :
  reachable now t ->
  (forall u, In u (usageLog t) -> (timestamp u <= now)%Z) /\
  (forall q, (length (todayUsage t q) <= DAILY_CALL_LIMIT)%nat).
Proof.
  induction 1 as [now|now now' t Hr [IHpast IHcap] Hle
                 |now t errorBatch cross tCheck api tRecord Hr [IHpast IHcap] Hle1 Hle2].
  - split; [intros u []|]. intros q. cbn. unfold DAILY_CALL_LIMIT. lia.
  - split; [|exact IHcap]. intros u Hu. specialize (IHpast u Hu). lia.
  - destruct (analyzeBatchWithBudget_tracker t errorBatch cross tCheck api tRecord)
      as [->|(Hgo & u & -> & Hstamp & _)].
    + split; [|exact IHcap]. intros u Hu. specialize (IHpast u Hu). lia.
    + split.
      * intros v Hv. unfold recordUsage in Hv. cbn [usageLog] in Hv.
        apply in_app_or in Hv. destruct Hv as [Hv|[<-|[]]].
        -- specialize (IHpast v Hv). lia.
        -- lia.
      * intros q. rewrite todayUsage_recordUsage, length_app, Hstamp.
        destruct (Z.eqb_spec (Clock.toDateString tRecord) (Clock.toDateString q)) as [Hsame|Hdiff];
          cbn [length]; [|specialize (IHcap q); lia].
        unfold checkDailyBudget in Hgo. cbn [can_proceed] in Hgo. apply Nat.ltb_lt in Hgo.
        destruct (Z.eq_dec (Clock.toDateString tCheck) (Clock.toDateString tRecord)) as [Hd|Hd].
        -- rewrite <- (todayUsage_same_day t tCheck q) by congruence. lia.
        -- pose proof (toDateString_mono tCheck tRecord Hle2).
           rewrite (todayUsage_later_day t tCheck q).
           ++ cbn. unfold DAILY_CALL_LIMIT. lia.
           ++ intros v Hv. specialize (IHpast v Hv). lia.
           ++ lia.
Qed.

Lemma sumCost_nonneg_step (l : list Usage) (extra : list Usage) :
  (forall u, In u extra -> (0 <= cost u)%Q) ->
  (sumCost l <= sumCost (l ++ extra))%Q.
Proof.
  induction extra as [|u extra IH] using rev_ind; intros Hpos.
  - rewrite app_nil_r. lra.
  - rewrite app_assoc, sumCost_snoc.
    assert (0 <= cost u)%Q by (apply Hpos; apply in_or_app; right; left; reflexivity).
    assert (sumCost l <= sumCost (l ++ extra))%Q
      by (apply IH; intros v Hv; apply Hpos; apply in_or_app; left; exact Hv).
    lra.
Qed.

(** C2. Budget monotonicity, as the code has it.  On every tracker that
    gateway calls running one after another can produce: the number of
    calls counted for any day is at most [DAILY_CALL_LIMIT] (so below the
    limit plus five emergency calls); for a local day that has not begun
    the call count and the spend are 0; within one local day the figures
    do not depend on the time of day; and a gateway call lowers neither
    the call count nor the spend of any day.  Days are calendar days of
    the host's time zone. *)
Theorem daily_calls_bounded_and_monotone `{Host} (now : Z) (t : UsageTracker) :
  reachable now t ->
  (* the call ceiling, and with it the ceiling with five emergency calls *)
  (forall q,
     (calls_made_today (checkDailyBudget t q) <= DAILY_CALL_LIMIT)%nat /\
     (calls_made_today (checkDailyBudget t q) < DAILY_CALL_LIMIT + 5)%nat) /\
  (* nothing is counted on a local day that has not begun *)
  (forall q,
     (Clock.toDateString now < Clock.toDateString q)%Z ->
     calls_made_today (checkDailyBudget t q) = 0%nat /\
     daily_usage (getBudgetStatus t q) = 0%Q) /\
  (* within a local day the figures do not depend on the time of day *)
  (forall q q',
     Clock.toDateString q = Clock.toDateString q' ->
     checkDailyBudget t q = checkDailyBudget t q' /\
     getBudgetStatus t q = getBudgetStatus t q') /\
  (* and a gateway call lowers the figures of no day *)
  (forall errorBatch crossRepoContext tCheck api tRecord q,
     let t' := snd (analyzeBatchWithBudget t errorBatch crossRepoContext tCheck api tRecord) in
     (calls_made_today (checkDailyBudget t q) <=
      calls_made_today (checkDailyBudget t' q))%nat /\
     (daily_usage (getBudgetStatus t q) <= daily_usage (getBudgetStatus t' q))%Q).
Proof.
  intros Hreach. destruct (reachable_invariant now t Hreach) as [Hpast Hcap].
  split; [|split; [|split]].
  - intros q. cbn [checkDailyBudget calls_made_today]. specialize (Hcap q). split; lia.
  - intros q Hlater. unfold checkDailyBudget, getBudgetStatus.
    cbn [calls_made_today daily_usage].
    rewrite (todayUsage_later_day t now q Hpast Hlater). split; reflexivity.
  - intros q q' Hsame. unfold checkDailyBudget, getBudgetStatus.
    rewrite (todayUsage_same_day t q q' Hsame). split; reflexivity.
  - intros errorBatch cross tCheck api tRecord q t'. subst t'.
    unfold checkDailyBudget, getBudgetStatus. cbn [calls_made_today daily_usage].
    destruct (analyzeBatchWithBudget_tracker t errorBatch cross tCheck api tRecord)
      as [->|(_ & u & -> & _ & Hcost)].
    + split; [lia|lra].
    + rewrite todayUsage_recordUsage. split.
      * rewrite length_app. lia.
      * apply sumCost_nonneg_step. intros v Hv.
        destruct (_ =? _)%Z; [destruct Hv as [<-|[]]; exact Hcost|destruct Hv].
Qed.

Lemma reachable_callsAt `{Host} (n : nat) (t : Z) : reachable t (Fixtures.callsAt n t).
Proof.
  induction n as [|n IH]; cbn [Fixtures.callsAt].
  - apply reach_start.
  - apply (reach_call t); [exact IH|lia|lia].
Qed.

Lemma length_replicate (n : nat) (c : ascii) : String.length (Fixtures.replicate n c) = n.
Proof. induction n as [|n IH]; cbn; [reflexivity|]. rewrite IH. reflexivity. Qed.

Lemma estimateTokenUsage_longPrompt :
  estimateTokenUsage Fixtures.longPrompt (CText "{}") = Js.Ok 120001%Z.
Proof.
  unfold estimateTokenUsage, ceilDiv4, Fixtures.longPrompt.
  rewrite length_replicate, Z2Nat.id by lia. reflexivity.
Qed.

Lemma callsAt_longPrompt (n : nat) (t : Z) :
  (n <= DAILY_CALL_LIMIT)%nat ->
  usageLog (@Fixtures.callsAt Fixtures.longPromptHost n t) = repeat (Fixtures.longUsage t) n.
Proof.
  induction n as [|n IH]; intros Hn; [reflexivity|].
  cbn [Fixtures.callsAt].
  rewrite (@analyzeBatchWithBudget_ok Fixtures.longPromptHost _ _ _ _ _ _ 120001%Z).
  - cbn [snd recordUsage usageLog]. rewrite IH by lia.
    change (length (optimizeForCostEfficiency [Fixtures.buildErrorA])) with 1%nat.
    fold (Fixtures.longUsage t). cbn [repeat]. symmetry. apply repeat_cons.
  - apply checkDailyBudget_short_log. rewrite IH by lia. rewrite repeat_length. lia.
  - exact estimateTokenUsage_longPrompt.
Qed.

Lemma todayUsage_all_now `{Host} (t : UsageTracker) (now : Z) :
  (forall u, In u (usageLog t) -> timestamp u = now) -> todayUsage t now = usageLog t.
Proof.
  intros Hall. unfold todayUsage. induction (usageLog t) as [|u l IH]; [reflexivity|].
  cbn [List.filter]. rewrite (Hall u (or_introl eq_refl)), Z.eqb_refl.
  rewrite IH; [reflexivity|]. intros v Hv. apply Hall. right. exact Hv.
Qed.

(** C2, as stated, fails twice.  Seventeen calls of one day, each allowed
    by the budget check, spend more than the daily ceiling of 25/30
    dollars plus five emergency calls at the estimated 0.05 dollars: the
    check counts calls and never looks at the spend.  And on a host west
    of Greenwich the spend of the day falls from a positive amount to 0
    between 03:00 and 06:00 of one UTC day, because days are local. *)
Lemma daily_spend_counterexample :
  (* seventeen permitted calls of one day cost more than ceiling plus allowance *)
  (exists t,
     @reachable Fixtures.longPromptHost 1000 t /\
     calls_made_today (@checkDailyBudget Fixtures.longPromptHost t 1000) = 17%nat /\
     (dailyCeiling + emergencyAllowance <
      daily_usage (@getBudgetStatus Fixtures.longPromptHost t 1000))%Q) /\
  (* west of Greenwich the spend of the day falls back to 0 within a UTC day *)
  (exists t,
     @reachable Fixtures.easternHost 21600000 t /\
     Clock.utcDay 10800000 = Clock.utcDay 21600000 /\
     (0 < daily_usage (@getBudgetStatus Fixtures.easternHost t 10800000))%Q /\
     daily_usage (@getBudgetStatus Fixtures.easternHost t 21600000) = 0%Q).
Proof.
  split.
  - exists (@Fixtures.callsAt Fixtures.longPromptHost 17 1000).
    split; [apply reachable_callsAt|].
    assert (Hlog := callsAt_longPrompt 17 1000 (Nat.le_refl _)).
    assert (Htoday : @todayUsage Fixtures.longPromptHost
                       (@Fixtures.callsAt Fixtures.longPromptHost 17 1000) 1000 =
                     repeat (Fixtures.longUsage 1000) 17).
    { rewrite todayUsage_all_now; [exact Hlog|].
      rewrite Hlog. intros u Hu. apply repeat_spec in Hu. subst u. reflexivity. }
    unfold checkDailyBudget, getBudgetStatus. cbn [calls_made_today daily_usage].
    rewrite Htoday. split; vm_compute; reflexivity.
  - exists (@Fixtures.callsAt Fixtures.easternHost 1 10800000).
    split; [apply (reach_wait 10800000); [apply reachable_callsAt|lia]|].
    split; [reflexivity|]. split; vm_compute; reflexivity.
Qed.

Lemma daily_calls_bounded_and_monotone_witness :
  (calls_made_today
     (@checkDailyBudget Fixtures.exampleHost (@Fixtures.callsAt Fixtures.exampleHost 1 1000) 1000)
   <= DAILY_CALL_LIMIT)%nat /\
  calls_made_today
    (@checkDailyBudget Fixtures.exampleHost (@Fixtures.callsAt Fixtures.exampleHost 1 1000)
       90000000) = 0%nat.
Proof.
  destruct (@daily_calls_bounded_and_monotone Fixtures.exampleHost 1000
              (@Fixtures.callsAt Fixtures.exampleHost 1 1000)
              (@reachable_callsAt Fixtures.exampleHost 1 1000))
    as (Hcap & Hreset & _).
  split.
  - apply Hcap.
  - apply Hreset. vm_compute. reflexivity.
Defined.

(* ===================================================================== *)
(** ** Failed dispatches *)
(* ===================================================================== *)

Import Scheduler DispatchFacts.

(** *** The map *)

Lemma JsMap_get_set_same {V} (k : string) (v : V) (m : list (string * V)) :
  JsMap.get k (JsMap.set k v m) = Some v.
Proof.
  induction m as [|[k' v'] m IH]; cbn.
  - rewrite String.eqb_refl. reflexivity.
  - destruct (String.eqb k k') eqn:E; cbn; rewrite ?String.eqb_refl, ?E; auto.
Qed.

Lemma JsMap_get_set_other {V} (k k' : string) (v : V) (m : list (string * V)) :
  k <> k' -> JsMap.get k (JsMap.set k' v m) = JsMap.get k m.
Proof.
  intros Hne. induction m as [|[k2 v2] m IH]; cbn.
  - destruct (String.eqb_spec k k'); [contradiction|reflexivity].
  - destruct (String.eqb_spec k' k2) as [->|Hk2]; cbn.
    + destruct (String.eqb_spec k k2); [contradiction|reflexivity].
    + destruct (String.eqb k k2); auto.
Qed.

Lemma JsMap_get_none {V} (k : string) (m : list (string * V)) :
  ~ In k (JsMap.keys m) -> JsMap.get k m = None.
Proof.
  induction m as [|[k' v'] m IH]; cbn; [reflexivity|]. intros Hn.
  destruct (String.eqb_spec k k') as [->|Hk]; [exfalso; apply Hn; left; reflexivity|].
  apply IH. intros Hin. apply Hn. right. exact Hin.
Qed.

Lemma JsMap_get_delete_same {V} (k : string) (m : list (string * V)) :
  List.NoDup (JsMap.keys m) -> JsMap.get k (JsMap.delete k m) = None.
Proof.
  induction m as [|[k' v'] m IH]; cbn; [reflexivity|]. intros Hnd.
  apply List.NoDup_cons_iff in Hnd. destruct Hnd as [Hnotin Hnd].
  destruct (String.eqb_spec k k') as [->|Hk].
  - apply JsMap_get_none. exact Hnotin.
  - cbn. destruct (String.eqb_spec k k'); [contradiction|]. apply IH. exact Hnd.
Qed.

Lemma JsMap_get_delete_other {V} (k k' : string) (m : list (string * V)) :
  k <> k' -> JsMap.get k (JsMap.delete k' m) = JsMap.get k m.
Proof.
  intros Hne. induction m as [|[k2 v2] m IH]; cbn; [reflexivity|].
  destruct (String.eqb_spec k' k2) as [->|Hk2]; cbn.
  - destruct (String.eqb_spec k k2); [contradiction|reflexivity].
  - destruct (String.eqb k k2); auto.
Qed.

Lemma JsMap_keys_delete {V} (k k' : string) (m : list (string * V)) :
  In k (JsMap.keys (JsMap.delete k' m)) -> In k (JsMap.keys m).
Proof.
  induction m as [|[k2 v2] m IH]; cbn; [auto|].
  destruct (String.eqb k' k2); cbn; [auto|]. intros [->|Hin]; auto.
Qed.

Lemma JsMap_NoDup_delete {V} (k : string) (m : list (string * V)) :
  List.NoDup (JsMap.keys m) -> List.NoDup (JsMap.keys (JsMap.delete k m)).
Proof.
  induction m as [|[k2 v2] m IH]; cbn; [auto|]. intros Hnd.
  apply List.NoDup_cons_iff in Hnd. destruct Hnd as [Hnotin Hnd].
  destruct (String.eqb k k2); [exact Hnd|]. cbn.
  apply List.NoDup_cons; [|apply IH; exact Hnd].
  intros Hin. apply Hnotin. eapply JsMap_keys_delete. exact Hin.
Qed.

Lemma JsMap_In_get {V} (k : string) (v : V) (m : list (string * V)) :
  List.NoDup (JsMap.keys m) -> In (k, v) m -> JsMap.get k m = Some v.
Proof.
  induction m as [|[k' v'] m IH]; cbn; [intros _ []|]. intros Hnd Hin.
  apply List.NoDup_cons_iff in Hnd. destruct Hnd as [Hnotin Hnd].
  destruct Hin as [E|Hin].
  - inversion E; subst. rewrite String.eqb_refl. reflexivity.
  - destruct (String.eqb_spec k k') as [->|Hk]; [|apply IH; assumption].
    exfalso. apply Hnotin. unfold JsMap.keys. apply in_map_iff. exists (k', v). auto.
Qed.

(** *** One failed item *)

Lemma requeue_heap_same (s : Scheduler) (a : nat) (q : QueuedError) :
  heap s !! a = Some q -> heap (requeue s a) !! a = Some (bumpRetry q).
Proof.
  intros Hq. unfold requeue. rewrite Hq.
  assert (a < length (heap s))%nat by (eapply lookup_lt_Some; exact Hq).
  destruct (retry_count (bumpRetry q) <? 3)%nat; cbn [heap];
    apply list_lookup_insert_eq; assumption.
Qed.

Lemma requeue_heap_other (s : Scheduler) (a b : nat) :
  a <> b -> heap (requeue s a) !! b = heap s !! b.
Proof.
  intros Hne. unfold requeue. destruct (heap s !! a) as [q|]; [|reflexivity].
  destruct (retry_count (bumpRetry q) <? 3)%nat; cbn [heap];
    apply list_lookup_insert_ne; assumption.
Qed.

Lemma requeue_queue_kept (s : Scheduler) (a : nat) (q : QueuedError) :
  heap s !! a = Some q -> (retry_count q + 1 < 3)%nat ->
  errorQueue (requeue s a) = JsMap.set (id q) a (errorQueue s).
Proof.
  intros Hq Hlt. unfold requeue. rewrite Hq.
  assert (E : (retry_count (bumpRetry q) <? 3)%nat = true)
    by (apply Nat.ltb_lt; cbn; lia).
  rewrite E. reflexivity.
Qed.

Lemma requeue_queue_dropped (s : Scheduler) (a : nat) (q : QueuedError) :
  heap s !! a = Some q -> (3 <= retry_count q + 1)%nat ->
  errorQueue (requeue s a) = errorQueue s.
Proof.
  intros Hq Hge. unfold requeue. rewrite Hq.
  assert (E : (retry_count (bumpRetry q) <? 3)%nat = false)
    by (apply Nat.ltb_ge; cbn; lia).
  rewrite E. reflexivity.
Qed.

Lemma requeue_queue_other (s : Scheduler) (a : nat) (k : string) :
  (forall q, heap s !! a = Some q -> id q <> k) ->
  JsMap.get k (errorQueue (requeue s a)) = JsMap.get k (errorQueue s).
Proof.
  intros Hid. unfold requeue. destruct (heap s !! a) as [q|] eqn:Hq; [|reflexivity].
  destruct (retry_count (bumpRetry q) <? 3)%nat; cbn [errorQueue]; [|reflexivity].
  apply JsMap_get_set_other. cbn. intros ->. exact (Hid q eq_refl eq_refl).
Qed.

(** The id stored at an address never changes. *)
Lemma requeue_id (s : Scheduler) (a b : nat) :
  option_map id (heap (requeue s a) !! b) = option_map id (heap s !! b).
Proof.
  destruct (Nat.eq_dec a b) as [<-|Hne].
  - destruct (heap s !! a) as [q|] eqn:Hq.
    + rewrite (requeue_heap_same s a q Hq). reflexivity.
    + unfold requeue. rewrite Hq. rewrite Hq. reflexivity.
  - rewrite requeue_heap_other by assumption. reflexivity.
Qed.

(** *** A failed batch *)

Lemma fold_requeue_heap_other (batch : list nat) (s : Scheduler) (b : nat) :
  ~ In b batch -> heap (fold_left requeue batch s) !! b = heap s !! b.
Proof.
  revert s. induction batch as [|a batch IH]; intros s Hnotin; cbn [fold_left]; [reflexivity|].
  rewrite IH by (intros Hin; apply Hnotin; right; exact Hin).
  apply requeue_heap_other. intros ->. apply Hnotin. left. reflexivity.
Qed.

Lemma fold_requeue_queue_other (batch : list nat) (s : Scheduler) (k : string) :
  (forall a q, In a batch -> heap s !! a = Some q -> id q <> k) ->
  JsMap.get k (errorQueue (fold_left requeue batch s)) = JsMap.get k (errorQueue s).
Proof.
  revert s. induction batch as [|a batch IH]; intros s Hid; cbn [fold_left]; [reflexivity|].
  rewrite IH.
  - apply requeue_queue_other. intros q Hq. apply (Hid a q); [left; reflexivity|exact Hq].
  - intros b qb Hb Hqb. pose proof (requeue_id s a b) as Hsame. rewrite Hqb in Hsame.
    destruct (heap s !! b) as [qb0|] eqn:Hqb0; [|discriminate].
    cbn in Hsame. inversion Hsame as [Hid']. rewrite Hid'.
    apply (Hid b qb0); [right; exact Hb|exact Hqb0].
Qed.

Lemma distinctIds_tail (s : Scheduler) (a : nat) (batch : list nat) :
  distinctIds s (a :: batch) -> distinctIds (requeue s a) batch.
Proof.
  intros Hd b c qb qc Hb Hc Hqb Hqc Hid.
  pose proof (requeue_id s a b) as Eb. pose proof (requeue_id s a c) as Ec.
  rewrite Hqb in Eb. rewrite Hqc in Ec.
  destruct (heap s !! b) as [qb0|] eqn:Hqb0; [|discriminate].
  destruct (heap s !! c) as [qc0|] eqn:Hqc0; [|discriminate].
  cbn in Eb, Ec. inversion Eb. inversion Ec.
  apply (Hd b c qb0 qc0); [right; exact Hb|right; exact Hc|assumption|assumption|congruence].
Qed.

Lemma fold_requeue_batch (batch : list nat) (s : Scheduler) (a : nat) (q : QueuedError) :
  List.NoDup batch -> distinctIds s batch -> In a batch -> heap s !! a = Some q ->
  let s' := fold_left requeue batch s in
  heap s' !! a = Some (bumpRetry q) /\
  ((retry_count q + 1 < 3)%nat -> JsMap.get (id q) (errorQueue s') = Some a) /\
  ((3 <= retry_count q + 1)%nat ->
     JsMap.get (id q) (errorQueue s') = JsMap.get (id q) (errorQueue s)).
Proof.
  revert s. induction batch as [|b batch IH]; intros s Hnd Hdist Hin Hq; [destruct Hin|].
  apply List.NoDup_cons_iff in Hnd. destruct Hnd as [Hnotin Hnd].
  cbn [fold_left]. destruct Hin as [->|Hin].
  - (* the head of the batch: the rest leaves it alone *)
    assert (Hrest : forall c qc, In c batch -> heap (requeue s a) !! c = Some qc -> id qc <> id q).
    { intros c qc Hc Hqc Hid.
      pose proof (requeue_id s a c) as Ec. rewrite Hqc in Ec.
      destruct (heap s !! c) as [qc0|] eqn:Hqc0; [|discriminate].
      cbn in Ec. inversion Ec as [Ec'].
      assert (c = a) by (apply (Hdist c a qc0 q);
                         [right; exact Hc|left; reflexivity|assumption|assumption|congruence]).
      subst c. contradiction. }
    cbv zeta. rewrite fold_requeue_heap_other by assumption.
    rewrite (fold_requeue_queue_other batch (requeue s a) (id q) Hrest).
    split; [apply requeue_heap_same; exact Hq|]. split; intros Hcount.
    + rewrite (requeue_queue_kept s a q Hq Hcount). apply JsMap_get_set_same.
    + rewrite (requeue_queue_dropped s a q Hq Hcount). reflexivity.
  - (* further down: the head leaves it alone *)
    assert (Hne : b <> a) by (intros ->; contradiction).
    assert (Hq' : heap (requeue s b) !! a = Some q)
      by (rewrite requeue_heap_other by assumption; exact Hq).
    destruct (IH (requeue s b) Hnd (distinctIds_tail s b batch Hdist) Hin Hq')
      as (Hheap & Hkept & Hdropped).
    split; [exact Hheap|]. split; [exact Hkept|].
    intros Hcount. rewrite (Hdropped Hcount).
    apply requeue_queue_other. intros qb Hqb Hid.
    apply Hne. apply (Hdist b a qb q); [left; reflexivity|right; exact Hin|assumption..].
Qed.

(** *** What the queue lists *)

Lemma In_queuedErrors (s : Scheduler) (a : nat) (q : QueuedError) :
  In (a, q) (queuedErrors s) <->
  In a (JsMap.values (errorQueue s)) /\ heap s !! a = Some q.
Proof.
  unfold queuedErrors. generalize (JsMap.values (errorQueue s)) as vals.
  induction vals as [|b vals IH]; cbn [omap list_omap].
  - split; [intros []|intros [[] _]].
  - destruct (heap s !! b) as [qb|] eqn:Hb; cbn [option_map].
    + split.
      * intros [E|Hin].
        -- inversion E; subst. split; [left; reflexivity|exact Hb].
        -- apply IH in Hin. destruct Hin. split; [right|]; assumption.
      * intros [[->|Hin] Hq].
        -- left. congruence.
        -- right. apply IH. split; assumption.
    + rewrite IH. split.
      * intros [Hin Hq]. split; [right|]; assumption.
      * intros [[->|Hin] Hq]; [congruence|]. split; assumption.
Qed.

Lemma NoDup_queuedErrors (s : Scheduler) :
  List.NoDup (JsMap.values (errorQueue s)) -> List.NoDup (map fst (queuedErrors s)).
Proof.
  unfold queuedErrors. generalize (JsMap.values (errorQueue s)) as vals.
  induction vals as [|b vals IH]; intros Hnd; cbn [omap list_omap]; [constructor|].
  apply List.NoDup_cons_iff in Hnd. destruct Hnd as [Hnotin Hnd].
  destruct (heap s !! b) as [qb|]; cbn [option_map map fst]; [|apply IH; exact Hnd].
  apply List.NoDup_cons; [|apply IH; exact Hnd].
  intros Hin. apply in_map_iff in Hin. destruct Hin as ([c qc] & Hc & Hin). cbn in Hc. subst c.
  apply Hnotin.
  assert (Hgen : forall l, In (b, qc) (omap (fun a => option_map (pair a) (heap s !! a)) l) -> In b l).
  { induction l as [|d l IHl]; cbn [omap list_omap]; [intros []|].
    destruct (heap s !! d); cbn [option_map].
    - intros [E|Hl]; [inversion E; left; reflexivity|right; auto].
    - intros Hl. right. auto. }
  apply Hgen. exact Hin.
Qed.

Lemma wellFormed_values (s : Scheduler) :
  wellFormed s -> List.NoDup (JsMap.values (errorQueue s)).
Proof.
  intros [Hnd Hid]. revert Hnd Hid. generalize (errorQueue s) as m.
  induction m as [|[k a] m IH]; intros Hnd Hid; cbn; [constructor|].
  apply List.NoDup_cons_iff in Hnd. destruct Hnd as [Hnotin Hnd].
  apply List.NoDup_cons.
  - intros Hin. apply in_map_iff in Hin. destruct Hin as ([k' a'] & Ha & Hin). cbn in Ha. subst a'.
    destruct (Hid k a (or_introl eq_refl)) as (q & Hq & Hk).
    destruct (Hid k' a (or_intror Hin)) as (q' & Hq' & Hk').
    assert (Hsame : k' = k) by congruence. rewrite Hsame in Hin.
    apply Hnotin. unfold JsMap.keys. apply in_map_iff. exists (k, a).
    split; [reflexivity|exact Hin].
  - apply IH; [exact Hnd|]. intros k' a' Hin. apply Hid. right. exact Hin.
Qed.

(** *** Sorting and filtering keep the items *)

Lemma insertBy_perm {A} (before : A -> A -> bool) (x : A) (l : list A) :
  Permutation (Js.insertBy before x l) (x :: l).
Proof.
  induction l as [|y l IH]; cbn; [reflexivity|].
  destruct (before y x); [|reflexivity].
  rewrite IH. apply perm_swap.
Qed.

Lemma sortBy_perm {A} (before : A -> A -> bool) (l : list A) :
  Permutation (Js.sortBy before l) l.
Proof.
  unfold Js.sortBy. induction l as [|x l IH]; cbn; [reflexivity|].
  rewrite insertBy_perm. constructor. exact IH.
Qed.

Lemma NoDup_map_filter {A B} (g : A -> B) (p : A -> bool) (l : list A) :
  List.NoDup (map g l) -> List.NoDup (map g (List.filter p l)).
Proof.
  induction l as [|x l IH]; cbn; [auto|]. intros Hnd.
  apply List.NoDup_cons_iff in Hnd. destruct Hnd as [Hnotin Hnd].
  destruct (p x); cbn; [|apply IH; exact Hnd].
  apply List.NoDup_cons; [|apply IH; exact Hnd].
  intros Hin. apply Hnotin. apply in_map_iff in Hin. destruct Hin as (y & Hy & Hin).
  apply in_map_iff. exists y. split; [exact Hy|]. apply List.filter_In in Hin. tauto.
Qed.

(** *** The selection loop *)

Lemma selectWithinBudget_spec (budget : Q) (errors : list (nat * QueuedError)) (total : Q)
    (s : Scheduler) :
  List.NoDup (JsMap.keys (errorQueue s)) ->
  List.NoDup (map fst errors) ->
  (forall a q b qb, In (a, q) errors -> In (b, qb) errors -> id q = id qb -> a = b) ->
  let batch := fst (selectWithinBudget budget errors total s) in
  let s' := snd (selectWithinBudget budget errors total s) in
  heap s' = heap s /\
  (forall a, In a batch -> In a (map fst errors)) /\
  List.NoDup batch /\
  (forall a q, In (a, q) errors -> In a batch -> JsMap.get (id q) (errorQueue s') = None) /\
  (forall k, (forall a q, In (a, q) errors -> In a batch -> id q <> k) ->
     JsMap.get k (errorQueue s') = JsMap.get k (errorQueue s)).
Proof.
  revert total s. induction errors as [|[a q] errors IH]; intros total s Hkeys Hnd Hids.
  - cbn. repeat split; auto; try constructor; intros ? ? [].
  - cbn [selectWithinBudget].
    apply List.NoDup_cons_iff in Hnd. cbn [map fst] in Hnd. destruct Hnd as [Hnotin Hnd].
    assert (Hids' : forall b qb c qc, In (b, qb) errors -> In (c, qc) errors ->
                                      id qb = id qc -> b = c).
    { intros b qb c qc Hb Hc. apply Hids; right; assumption. }
    destruct (Qle_bool (costWith total q) budget).
    + (* taken *)
      specialize (IH (costWith total q) (deleteQueued s (id q))
                    (JsMap_NoDup_delete (id q) _ Hkeys) Hnd Hids').
      destruct (selectWithinBudget budget errors (costWith total q)
                  (deleteQueued s (id q))) as [batch s'] eqn:Hsel.
      cbn [fst snd] in IH |- *.
      destruct IH as (Hheap & Hsub & Hbnd & Hgone & Hkept).
      assert (Hhead : JsMap.get (id q) (errorQueue s') = None).
      { rewrite Hkept.
        - cbn [deleteQueued errorQueue]. apply JsMap_get_delete_same. exact Hkeys.
        - intros b qb Hb _ Hid. apply Hnotin.
          assert (b = a) by (apply (Hids b qb a q); [right; exact Hb|left; reflexivity|exact Hid]).
          subst b. apply in_map_iff. exists (a, qb). auto. }
      split; [exact Hheap|]. split; [|split; [|split]].
      * intros b [->|Hb]; [left; reflexivity|right; apply Hsub; exact Hb].
      * apply List.NoDup_cons; [|exact Hbnd]. intros Hin. apply Hnotin. apply Hsub. exact Hin.
      * intros b qb [E|Hb] Hin.
        -- inversion E; subst. exact Hhead.
        -- destruct Hin as [->|Hin]; [|apply (Hgone b qb Hb Hin)].
           exfalso. apply Hnotin. apply in_map_iff. exists (b, qb). auto.
      * intros k Hk. rewrite Hkept.
        -- cbn [deleteQueued errorQueue]. apply JsMap_get_delete_other.
           intros ->. apply (Hk a q); [left; reflexivity|left; reflexivity|reflexivity].
        -- intros b qb Hb Hin. apply (Hk b qb); [right; exact Hb|right; exact Hin].
    + (* passed over *)
      specialize (IH total s Hkeys Hnd Hids').
      destruct (selectWithinBudget budget errors total s) as [batch s'] eqn:Hsel.
      cbn [fst snd] in IH |- *.
      destruct IH as (Hheap & Hsub & Hbnd & Hgone & Hkept).
      split; [exact Hheap|]. split; [|split; [exact Hbnd|split]].
      * intros b Hb. right. apply Hsub. exact Hb.
      * intros b qb [E|Hb] Hin; [|apply (Hgone b qb Hb Hin)].
        inversion E; subst. exfalso. apply Hnotin. apply Hsub. exact Hin.
      * intros k Hk. apply Hkept. intros b qb Hb Hin. apply (Hk b qb); [right; exact Hb|exact Hin].
Qed.

(** *** The weekend window *)

Lemma weekendErrors_facts `{Host} (s : Scheduler) :
  wellFormed s ->
  let weekendErrors :=
    Js.sortBy
      (fun a b => (priorityWeights (priority (snd b)) <? priorityWeights (priority (snd a)))%Z)
      (List.filter (fun e => isWeekendError (snd e)) (queuedErrors s)) in
  (forall a q, In (a, q) weekendErrors -> In (a, q) (queuedErrors s)) /\
  List.NoDup (map fst weekendErrors).
Proof.
  intros Hwf weekendErrors. subst weekendErrors. split.
  - intros a q Hin. apply (Permutation_in _ (sortBy_perm _ _)) in Hin.
    apply List.filter_In in Hin. tauto.
  - eapply Permutation_NoDup.
    + apply Permutation_map. symmetry. apply sortBy_perm.
    + apply NoDup_map_filter. apply NoDup_queuedErrors. apply wellFormed_values. exact Hwf.
Qed.

(** Two queued objects with the same id are the same object. *)
Lemma wellFormed_ids (s : Scheduler) (a b : nat) (qa qb : QueuedError) :
  wellFormed s ->
  In (a, qa) (queuedErrors s) -> In (b, qb) (queuedErrors s) -> id qa = id qb -> a = b.
Proof.
  intros [Hnd Hid] Ha Hb Hsame.
  apply In_queuedErrors in Ha. apply In_queuedErrors in Hb.
  destruct Ha as [Ha Hqa]. destruct Hb as [Hb Hqb].
  unfold JsMap.values in Ha, Hb. apply in_map_iff in Ha. apply in_map_iff in Hb.
  destruct Ha as ([ka a'] & Ea & Ha). destruct Hb as ([kb b'] & Eb & Hb).
  cbn in Ea, Eb. subst a' b'.
  destruct (Hid ka a Ha) as (q1 & Hq1 & Hk1). destruct (Hid kb b Hb) as (q2 & Hq2 & Hk2).
  assert (Ekeys : kb = ka) by congruence. rewrite Ekeys in Hb.
  pose proof (JsMap_In_get ka a _ Hnd Ha) as Ga.
  pose proof (JsMap_In_get ka b _ Hnd Hb) as Gb.
  congruence.
Qed.

(** What the [catch] block does, and the window that keeps to it.  When
    the dispatch inside [processBatchWithClaude] raises, every item of the
    batch gets its [retry_count] raised by one; an item whose count is
    then below 3 is set into the queue under its id, and an item whose
    count has reached 3 is not put back.  In the weekend window, which
    takes its batch out of the queue before it dispatches, every queued
    item is afterwards still queued and untouched, or was dispatched, or
    is queued again with one more retry, or has left the queue with a
    retry count of 3 or more. *)
Lemma failed_batch_requeues_below_three `{Host} (s : Scheduler) (remainingBudget : Q)
    (gateway : Gateway) :
  wellFormed s ->
  (* processBatchWithClaude, when the dispatch raises *)
  (forall batch batchType a q,
     List.NoDup batch -> distinctIds s batch -> In a batch -> heap s !! a = Some q ->
     let s' := processBatchWithClaude s batch batchType Raised in
     heap s' !! a = Some (bumpRetry q) /\
     retry_count (bumpRetry q) = S (retry_count q) /\
     ((retry_count q + 1 < 3)%nat -> JsMap.get (id q) (errorQueue s') = Some a) /\
     ((3 <= retry_count q + 1)%nat ->
        JsMap.get (id q) (errorQueue s') = JsMap.get (id q) (errorQueue s))) /\
  (* the weekend window loses no queued item *)
  (forall k a q,
     In (k, a) (errorQueue s) -> heap s !! a = Some q ->
     let batch := fst (selectWeekendBatch s remainingBudget) in
     Fate (processWeekendErrorBatch s remainingBudget gateway) batch (gateway batch) k a q).
Proof.
  intros Hwf. split.
  - intros batch batchType a q Hnd Hdist Hin Hq s'. subst s'.
    cbn [processBatchWithClaude].
    destruct (fold_requeue_batch batch s a q Hnd Hdist Hin Hq) as (Hheap & Hkept & Hdropped).
    repeat split; assumption.
  - intros k a q Hin Hq batch. subst batch.
    destruct (weekendErrors_facts s Hwf) as [Hsub Hnd].
    unfold processWeekendErrorBatch, selectWeekendBatch in *.
    set (weekendErrors := Js.sortBy _ _) in *.
    set (budget := Qmin _ _).
    assert (Hids : forall b qb c qc, In (b, qb) weekendErrors -> In (c, qc) weekendErrors ->
                                     id qb = id qc -> b = c).
    { intros b qb c qc Hb Hc. apply (wellFormed_ids s b c qb qc Hwf); apply Hsub; assumption. }
    destruct Hwf as [Hkeys Hkeyed].
    pose proof (selectWithinBudget_spec budget weekendErrors 0 s Hkeys Hnd Hids) as Hsel.
    destruct (selectWithinBudget budget weekendErrors 0 s) as [batch s1] eqn:Esel.
    cbn [fst snd] in Hsel |- *.
    destruct Hsel as (Hheap & Hbsub & Hbnd & Hgone & Hkept).
    assert (Hk : id q = k).
    { destruct (Hkeyed k a Hin) as (q' & Hq' & Hk'). congruence. }
    assert (Hget : JsMap.get k (errorQueue s) = Some a) by (apply JsMap_In_get; assumption).
    assert (Hq1 : heap s1 !! a = Some q) by (rewrite Hheap; exact Hq).
    (* an object of the batch is the one the queue holds at its address *)
    assert (Hobj : forall b, In b batch -> exists qb, In (b, qb) weekendErrors /\ heap s !! b = Some qb).
    { intros b Hb. apply Hbsub in Hb. apply in_map_iff in Hb.
      destruct Hb as ([b' qb] & E & Hb). cbn in E. subst b'. exists qb. split; [exact Hb|].
      apply Hsub in Hb. apply In_queuedErrors in Hb. tauto. }
    assert (Hdist : distinctIds s1 batch).
    { intros b c qb qc Hb Hc Hqb Hqc Hsame. rewrite Hheap in Hqb, Hqc.
      destruct (Hobj b Hb) as (qb' & Hwb & Hqb'). destruct (Hobj c Hc) as (qc' & Hwc & Hqc').
      apply (Hids b qb' c qc' Hwb Hwc). congruence. }
    destruct (in_dec Nat.eq_dec a batch) as [Hina|Hnota].
    + (* selected *)
      destruct (Hobj a Hina) as (q' & Hwa & Hq').
      assert (q' = q) by congruence. subst q'.
      assert (Hout : JsMap.get k (errorQueue s1) = None)
        by (rewrite <- Hk; apply (Hgone a q Hwa Hina)).
      destruct batch as [|b0 batch0] eqn:Ebatch; [destruct Hina|]. rewrite <- Ebatch in *.
      destruct (gateway batch) eqn:Egw; cbn [processBatchWithClaude].
      * apply dispatched; auto.
      * destruct (fold_requeue_batch batch s1 a q Hbnd Hdist Hina Hq1)
          as (Hheap' & Hkept' & Hdropped').
        destruct (Nat.lt_ge_cases (retry_count q + 1) 3) as [Hlt|Hge].
        -- apply requeued; auto. rewrite <- Hk. apply Hkept'. exact Hlt.
        -- apply dropped; auto. rewrite <- Hk. rewrite (Hdropped' Hge). rewrite Hk. exact Hout.
    + (* not selected *)
      assert (Hother : forall b qb, In b batch -> heap s1 !! b = Some qb -> id qb <> k).
      { intros b qb Hb Hqb Hsame. rewrite Hheap in Hqb.
        destruct (Hobj b Hb) as (qb' & Hwb & Hqb').
        assert (qb' = qb) by congruence. subst qb'.
        apply Hnota.
        assert (b = a); [|subst b; exact Hb].
        apply (wellFormed_ids s b a qb q (conj Hkeys Hkeyed)).
        - apply Hsub. exact Hwb.
        - apply In_queuedErrors. split; [|exact Hq].
          unfold JsMap.values. apply in_map_iff. exists (k, a). split; [reflexivity|exact Hin].
        - congruence. }
      assert (Hstay : JsMap.get k (errorQueue s1) = Some a).
      { rewrite Hkept; [exact Hget|]. intros b qb Hwb Hb.
        apply (Hother b qb Hb). rewrite Hheap. apply Hsub in Hwb.
        apply In_queuedErrors in Hwb. tauto. }
      destruct batch as [|b0 batch0] eqn:Ebatch; [apply remains_queued; auto|].
      rewrite <- Ebatch in *.
      destruct (gateway batch) eqn:Egw; cbn [processBatchWithClaude].
      * apply remains_queued; auto.
      * apply remains_queued; [exact Hnota| |].
        -- rewrite fold_requeue_queue_other; [exact Hstay|]. intros b qb. apply Hother.
        -- rewrite fold_requeue_heap_other by exact Hnota. exact Hq1.
Qed.


(** *** Well-formedness holds at the start and after every enqueue *)

Lemma wellFormed_newScheduler : wellFormed newScheduler.
Proof. split; [constructor|intros k a []]. Qed.

Lemma JsMap_keys_set {V} (k : string) (v : V) (m : list (string * V)) :
  JsMap.keys (JsMap.set k v m) = JsMap.keys m \/
  (~ In k (JsMap.keys m) /\ JsMap.keys (JsMap.set k v m) = JsMap.keys m ++ [k]).
Proof.
  unfold JsMap.keys. induction m as [|[k' v'] m IH]; cbn.
  - right. split; [intros []|reflexivity].
  - destruct (String.eqb_spec k k') as [->|Hne]; cbn; [left; reflexivity|].
    destruct IH as [->|[Hnotin ->]]; [left; reflexivity|].
    right. split; [|reflexivity]. intros [E|Hin]; [congruence|contradiction].
Qed.

Lemma JsMap_In_set {V} (k k' : string) (v v' : V) (m : list (string * V)) :
  List.NoDup (JsMap.keys m) ->
  In (k', v') (JsMap.set k v m) -> (k' = k /\ v' = v) \/ (k' <> k /\ In (k', v') m).
Proof.
  induction m as [|[k2 v2] m IH]; cbn; intros Hnd.
  - intros [E|[]]. inversion E. left. split; reflexivity.
  - apply List.NoDup_cons_iff in Hnd. destruct Hnd as [Hnotin Hnd].
    destruct (String.eqb_spec k k2) as [->|Hne].
    + intros [E|Hin].
      * inversion E. left. split; reflexivity.
      * right. split; [|right; exact Hin]. intros ->. apply Hnotin.
        unfold JsMap.keys. apply in_map_iff. exists (k2, v'). split; [reflexivity|exact Hin].
    + intros [E|Hin].
      * inversion E; subst. right. split; [congruence|left; reflexivity].
      * destruct (IH Hnd Hin) as [Hl|[Hn Hr]];
          [left; exact Hl|right; split; [exact Hn|right; exact Hr]].
Qed.

Lemma wellFormed_queueForClaudeAnalysis (s : Scheduler) (errorContext : ErrorContext)
    (dateNow queuedAt : Z) :
  wellFormed s -> wellFormed (snd (queueForClaudeAnalysis s errorContext dateNow queuedAt)).
Proof.
  intros [Hnd Hid]. unfold queueForClaudeAnalysis. cbn [snd]. split; cbn [errorQueue heap].
  - destruct (JsMap_keys_set (generateErrorId errorContext dateNow) (length (heap s))
                (errorQueue s)) as [->|[Hnotin ->]]; [exact Hnd|].
    apply List.NoDup_app; [exact Hnd|constructor; [intros []|constructor]|].
    intros x Hx [<-|[]]. contradiction.
  - intros k a Hin. apply (JsMap_In_set _ _ _ _ _ Hnd) in Hin.
    destruct Hin as [[-> ->]|[_ Hin]].
    + eexists. split.
      * rewrite lookup_app_r by lia. rewrite Nat.sub_diag. reflexivity.
      * reflexivity.
    + destruct (Hid k a Hin) as (q & Hq & Hk). exists q. split; [|exact Hk].
      rewrite lookup_app_l by (eapply lookup_lt_Some; exact Hq). exact Hq.
Qed.

Lemma wellFormed_oneCritical : wellFormed Fixtures.oneCritical.
Proof. apply wellFormed_queueForClaudeAnalysis. apply wellFormed_newScheduler. Qed.

Lemma failed_batch_requeues_below_three_witness :
  Fate
    (@processWeekendErrorBatch Fixtures.exampleHost Fixtures.oneCritical dailyBudgetLimit
       Fixtures.failingGateway)
    (fst (@selectWeekendBatch Fixtures.exampleHost Fixtures.oneCritical dailyBudgetLimit))
    (Fixtures.failingGateway
       (fst (@selectWeekendBatch Fixtures.exampleHost Fixtures.oneCritical dailyBudgetLimit)))
    "error_cHJvZHVjdGlv" 0 Fixtures.productionItem.
Proof.
  apply (proj2 (@failed_batch_requeues_below_three Fixtures.exampleHost Fixtures.oneCritical
                  dailyBudgetLimit Fixtures.failingGateway wellFormed_oneCritical)).
  - vm_compute. left. reflexivity.
  - vm_compute. reflexivity.
Defined.

(* ===================================================================== *)
(** ** Rounding to the nearest double *)
(* ===================================================================== *)

Section DoubleRounding.

Import Double DoubleFacts.

Open Scope Q_scope.

Lemma pow2_pos (e : Z) : 0 < 2 ^ e.
Proof. apply Qpower_0_lt. reflexivity. Qed.

Lemma pow2_add (a b : Z) : 2 ^ (a + b) == 2 ^ a * 2 ^ b.
Proof. apply Qpower_plus. discriminate. Qed.

Lemma pow2_le (a b : Z) : (a <= b)%Z -> 2 ^ a <= 2 ^ b.
Proof. intros Hab. apply Qpower_le_compat_l; [exact Hab|discriminate]. Qed.

Lemma pow2_Z (n : Z) : (0 <= n)%Z -> inject_Z (2 ^ n) == 2 ^ n.
Proof. intros Hn. apply (Zpower_Qpower 2 n Hn). Qed.

Lemma ilog2_le (q : Q) : 0 < q -> 2 ^ ilog2 q <= q.
Proof.
  intros Hq. unfold ilog2. cbv zeta.
  destruct (Qle_bool (2 ^ (Z.log2 (Qnum q) - Z.log2 (Z.pos (Qden q)))) q) eqn:E;
    [apply Qle_bool_iff; exact E|].
  clear E. destruct q as [n d]. cbn [Qnum Qden].
  assert (Hn : (0 < n)%Z) by (unfold Qlt in Hq; cbn in Hq; lia).
  destruct (Z.log2_spec n Hn) as [Hlo _].
  destruct (Z.log2_spec (Z.pos d) (Pos2Z.is_pos d)) as [_ Hhi].
  pose proof (Z.log2_nonneg n) as Ha. pose proof (Z.log2_nonneg (Z.pos d)) as Hb.
  set (a := Z.log2 n) in *. set (b := Z.log2 (Z.pos d)) in *.
  replace (a - b - 1)%Z with (a - (b + 1))%Z by lia.
  rewrite Qpower_minus by discriminate.
  rewrite (Qmake_Qdiv n d).
  apply Qle_shift_div_l; [change 0 with (inject_Z 0); rewrite <- Zlt_Qlt; lia|].
  assert (Hp : ~ 2 ^ (b + 1) == 0) by (apply Qpower_not_0; discriminate).
  setoid_replace (2 ^ a / 2 ^ (b + 1) * inject_Z (Z.pos d))
    with ((2 ^ a * inject_Z (Z.pos d)) / 2 ^ (b + 1)) using relation Qeq
    by (field; exact Hp).
  apply Qle_shift_div_r; [apply pow2_pos|].
  rewrite <- (pow2_Z a) by lia. rewrite <- (pow2_Z (b + 1)) by lia.
  rewrite <- !inject_Z_mult, <- Zle_Qle. 
  assert (Hd : (0 < Z.pos d)%Z) by lia.
  replace (Z.succ b) with (b + 1)%Z in Hhi by lia. nia.
Qed.

Lemma roundHalfEven_floor (t : Q) :
  (Qfloor t <= roundHalfEven t <= Qfloor t + 1)%Z.
Proof.
  unfold roundHalfEven. cbv zeta.
  destruct (t - inject_Z (Qfloor t) ?= 1 # 2); [destruct (Z.even (Qfloor t))|..]; lia.
Qed.

Lemma roundHalfEven_ge (t : Q) (k : Z) : inject_Z k <= t -> (k <= roundHalfEven t)%Z.
Proof.
  intros Hk. pose proof (roundHalfEven_floor t) as [Hlo _].
  apply Qfloor_resp_le in Hk. rewrite Qfloor_Z in Hk. lia.
Qed.

Lemma roundHalfEven_le (t : Q) (k : Z) : t <= inject_Z k -> (roundHalfEven t <= k)%Z.
Proof.
  intros Hk. pose proof (Qfloor_le t) as Hf.
  assert (Hfk : (Qfloor t <= k)%Z) by (rewrite Zle_Qle; lra).
  unfold roundHalfEven. cbv zeta.
  destruct (t - inject_Z (Qfloor t) ?= 1 # 2) eqn:E.
  - apply Qeq_alt in E.
    assert (Hlt : inject_Z (Qfloor t) < inject_Z k) by lra.
    rewrite <- Zlt_Qlt in Hlt. destruct (Z.even (Qfloor t)); lia.
  - exact Hfk.
  - apply Qgt_alt in E.
    assert (Hlt : inject_Z (Qfloor t) < inject_Z k) by lra.
    rewrite <- Zlt_Qlt in Hlt. lia.
Qed.

Lemma ulp_pos (q : Q) : 0 < ulp q.
Proof. apply pow2_pos. Qed.

(** A double in the binade of [q] or above is a whole number of [ulp q];
    a double below it is below [2 ^ ilog2 q]. *)
Lemma positiveDouble_cases (y q : Q) :
  positiveDouble y ->
  (exists k, y == inject_Z k * ulp q) \/
  ((-1022 < ilog2 q)%Z /\ y < 2 ^ ilog2 q).
Proof.
  intros (m & e & [Hm0 Hm] & He & Hy). unfold ulp.
  set (E := Z.max (ilog2 q) (-1022)).
  destruct (Z_le_gt_dec (E - 52) e) as [Hle|Hgt].
  - left. exists (m * 2 ^ (e - (E - 52)))%Z.
    rewrite Hy, inject_Z_mult, pow2_Z by lia.
    rewrite <- Qmult_assoc, <- pow2_add.
    replace (e - (E - 52) + (E - 52))%Z with e by lia. reflexivity.
  - right. assert (HE : E = ilog2 q) by lia. split; [lia|].
    rewrite Hy. apply Qlt_le_trans with (inject_Z (2 ^ 53) * 2 ^ e).
    + apply Qmult_lt_compat_r; [apply pow2_pos|]. rewrite <- Zlt_Qlt. exact Hm.
    + rewrite pow2_Z by lia. rewrite <- pow2_add. apply pow2_le. lia.
Qed.

Lemma roundPositive_ge (q y : Q) :
  0 < q -> positiveDouble y -> y <= q -> y <= roundPositive q.
Proof.
  intros Hq Hy Hle. unfold roundPositive.
  pose proof (ulp_pos q) as Hu.
  destruct (positiveDouble_cases y q Hy) as [(k & Hk)|[Hnormal Hbelow]].
  - rewrite Hk. apply Qmult_le_compat_r; [|apply Qlt_le_weak; exact Hu].
    rewrite <- Zle_Qle. apply roundHalfEven_ge.
    apply Qle_shift_div_l; [exact Hu|]. rewrite <- Hk. exact Hle.
  - apply Qle_trans with (2 ^ ilog2 q); [apply Qlt_le_weak; exact Hbelow|].
    assert (Hulp : 2 ^ ilog2 q == inject_Z (2 ^ 52) * ulp q).
    { unfold ulp. rewrite Z.max_l by lia. rewrite pow2_Z by lia.
      rewrite <- pow2_add. replace (52 + (ilog2 q - 52))%Z with (ilog2 q) by lia.
      reflexivity. }
    rewrite Hulp. apply Qmult_le_compat_r; [|apply Qlt_le_weak; exact Hu].
    rewrite <- Zle_Qle. apply roundHalfEven_ge.
    apply Qle_shift_div_l; [exact Hu|]. rewrite <- Hulp. apply ilog2_le. exact Hq.
Qed.

Lemma roundPositive_le (q y : Q) :
  0 < q -> positiveDouble y -> q <= y -> roundPositive q <= y.
Proof.
  intros Hq Hy Hle. unfold roundPositive.
  pose proof (ulp_pos q) as Hu.
  destruct (positiveDouble_cases y q Hy) as [(k & Hk)|[Hnormal Hbelow]].
  - rewrite Hk. apply Qmult_le_compat_r; [|apply Qlt_le_weak; exact Hu].
    rewrite <- Zle_Qle. apply roundHalfEven_le.
    apply Qle_shift_div_r; [exact Hu|]. rewrite <- Hk. exact Hle.
  - exfalso. pose proof (ilog2_le q Hq) as Hlog. lra.
Qed.

Lemma roundPositive_nonneg (q : Q) : 0 < q -> 0 <= roundPositive q.
Proof.
  intros Hq. unfold roundPositive. pose proof (ulp_pos q) as Hu.
  apply Qmult_le_0_compat; [|apply Qlt_le_weak; exact Hu].
  change 0 with (inject_Z 0). rewrite <- Zle_Qle. apply roundHalfEven_ge.
  change (inject_Z 0) with 0. apply Qle_shift_div_l; [exact Hu|]. lra.
Qed.

(** *** What rounding keeps *)

Lemma nearest_comp (x y : Q) : x == y -> nearest x = nearest y.
Proof. intros Hxy. unfold nearest. rewrite (Qred_complete x y Hxy). reflexivity. Qed.

Lemma nearest_nonneg (q : Q) : 0 <= q -> 0 <= nearest q.
Proof.
  intros Hq. unfold nearest. cbv zeta.
  pose proof (Qred_correct q) as Hred.
  destruct (Qred q ?= 0) eqn:E.
  - lra.
  - apply Qlt_alt in E. lra.
  - apply Qgt_alt in E. rewrite Qred_correct. apply roundPositive_nonneg. exact E.
Qed.

(** No double lies strictly between a number and the double nearest to
    it. *)
Lemma nearest_ge (q y : Q) : positiveDouble y -> y <= q -> y <= nearest q.
Proof.
  intros Hy Hle.
  assert (Hpos : 0 < y).
  { destruct Hy as (m & e & [Hm0 _] & _ & ->).
    apply Qmult_lt_0_compat; [change 0 with (inject_Z 0); rewrite <- Zlt_Qlt; exact Hm0|].
    apply pow2_pos. }
  unfold nearest. cbv zeta. pose proof (Qred_correct q) as Hred.
  destruct (Qred q ?= 0) eqn:E.
  - apply Qeq_alt in E. lra.
  - apply Qlt_alt in E. lra.
  - apply Qgt_alt in E. rewrite Qred_correct.
    apply roundPositive_ge; [exact E|exact Hy|lra].
Qed.

Lemma nearest_le (q y : Q) : positiveDouble y -> q <= y -> nearest q <= y.
Proof.
  intros Hy Hle.
  assert (Hpos : 0 < y).
  { destruct Hy as (m & e & [Hm0 _] & _ & ->).
    apply Qmult_lt_0_compat; [change 0 with (inject_Z 0); rewrite <- Zlt_Qlt; exact Hm0|].
    apply pow2_pos. }
  unfold nearest. cbv zeta. pose proof (Qred_correct q) as Hred.
  destruct (Qred q ?= 0) eqn:E.
  - lra.
  - apply Qlt_alt in E. rewrite Qred_correct.
    assert (H0 : 0 <= roundPositive (- Qred q)) by (apply roundPositive_nonneg; lra).
    lra.
  - apply Qgt_alt in E. rewrite Qred_correct.
    apply roundPositive_le; [exact E|exact Hy|lra].
Qed.

(** The doubles that the scheduler's amounts are compared with. *)
Lemma positiveDouble_dyadic (m : Z) (e : Z) :
  (0 < m < 2 ^ 53)%Z -> (-1074 <= e)%Z -> positiveDouble (inject_Z m * 2 ^ e).
Proof. intros Hm He. exists m, e. split; [exact Hm|]. split; [exact He|reflexivity]. Qed.

Lemma positiveDouble_Z (k : Z) : (0 < k < 2 ^ 53)%Z -> positiveDouble (inject_Z k).
Proof.
  intros Hk. exists k, 0%Z. split; [exact Hk|]. split; [lia|].
  change (2 ^ 0) with 1. ring.
Qed.

End DoubleRounding.

Import DoubleFacts.

(* ===================================================================== *)
(** ** Upkeep of the result cache *)
(* ===================================================================== *)

Import IntelligenceCache CacheUpkeep CacheFacts.

Lemma sameAdvice_refl (a : CachedSolution) : sameAdvice a a.
Proof. repeat split. Qed.

Lemma sameAdvice_trans (a b c : CachedSolution) :
  sameAdvice a b -> sameAdvice b c -> sameAdvice a c.
Proof.
  unfold sameAdvice. intros (A1 & A2 & A3 & A4 & A5 & A6) (B1 & B2 & B3 & B4 & B5 & B6).
  repeat split; congruence.
Qed.

Lemma sameAdvice_touch (a : CachedSolution) (now : Z) : sameAdvice a (touch a now).
Proof. repeat split. Qed.

Lemma getCachedSolution_miss (c : Cache) (patternId : string) (now : Z) :
  solutionCache c !! patternId = None ->
  getCachedSolution c patternId now =
    (None,
     {| solutionCache := solutionCache c;
        cacheStats := cacheStats c;
        cacheHits := cacheHits c;
        cacheMisses := S (cacheMisses c) |}).
Proof. intros Hs. unfold getCachedSolution. rewrite Hs. reflexivity. Qed.

(** X1. Every look-up is counted, and a look-up changes nothing else: after
    any run of [getCachedSolution] calls the hit and miss counters have
    grown by the number of calls, the hits by the number of calls that
    asked for a stored id; an id that was not stored is still not stored;
    and a stored solution gives the same advice with the same rates, its
    [usage_count] raised by the number of calls that asked for it. *)
Theorem lookups_are_counted (c : Cache) (asks : list (string * Z)) :
  let c' := lookups c asks in
  (cacheHits c' + cacheMisses c' = cacheHits c + cacheMisses c + length asks)%nat /\
  cacheHits c' = (cacheHits c + answered c asks)%nat /\
  (forall patternId,
     solutionCache c !! patternId = None -> solutionCache c' !! patternId = None) /\
  (forall patternId sol,
     solutionCache c !! patternId = Some sol ->
     exists sol',
       solutionCache c' !! patternId = Some sol' /\
       usage_count sol' = (usage_count sol + asked patternId asks)%nat /\
       sameAdvice sol sol' /\
       confidence_score sol' = confidence_score sol /\
       success_rate sol' = success_rate sol).
Proof.
  revert c. induction asks as [|[k now] asks IH]; intros c; cbn zeta.
  - cbn. split; [lia|]. split; [lia|]. split; [auto|].
    intros patternId sol Hs. exists sol. rewrite Nat.add_0_r.
    repeat split; auto.
  - unfold lookups in *. cbn [fold_left fst snd].
    specialize (IH (snd (getCachedSolution c k now))). cbn zeta in IH.
    destruct IH as (Hsum & Hhits & Hnone & Hsome).
    unfold answered, asked in *. cbn [List.filter fst length].
    destruct (solutionCache c !! k) as [cached|] eqn:Hk.
    + (* a hit *)
      rewrite (getCachedSolution_hit c k cached now Hk) in *.
      cbn [snd cacheHits cacheMisses solutionCache] in *.
      rewrite bool_decide_eq_true_2 by eauto. cbn [length].
      assert (Hsame : forall ask : string * Z,
                 bool_decide (is_Some (<[k := touch cached now]> (solutionCache c) !! fst ask)) =
                 bool_decide (is_Some (solutionCache c !! fst ask))).
      { intros ask. apply bool_decide_ext.
        destruct (decide (fst ask = k)) as [->|Hne].
        - rewrite lookup_insert_eq, Hk. split; eauto.
        - rewrite lookup_insert_ne by congruence. reflexivity. }
      rewrite (List.filter_ext _ _ Hsame) in Hhits.
      split; [lia|]. split; [lia|]. split.
      * intros patternId Hs. apply Hnone.
        rewrite lookup_insert_ne by congruence. exact Hs.
      * intros patternId sol Hs.
        destruct (String.eqb_spec k patternId) as [->|Hne].
        -- assert (sol = cached) by congruence. subst sol.
           destruct (Hsome patternId (touch cached now)) as (sol' & E & Hu & Ha & Hc & Hr);
             [apply lookup_insert_eq|].
           exists sol'. split; [exact E|]. split; [cbn in Hu |- *; lia|].
           split; [eapply sameAdvice_trans; [apply (sameAdvice_touch cached now)|exact Ha]|].
           split; assumption.
        -- destruct (Hsome patternId sol) as (sol' & E & Hu & Ha & Hc & Hr);
             [rewrite lookup_insert_ne by congruence; exact Hs|].
           exists sol'. repeat split; try assumption; apply Ha.
    + (* a miss *)
      rewrite (getCachedSolution_miss c k now Hk) in *.
      cbn [snd cacheHits cacheMisses solutionCache] in *.
      rewrite bool_decide_eq_false_2 by (intros [? ?]; discriminate).
      split; [lia|]. split; [lia|]. split; [exact Hnone|].
      intros patternId sol Hs.
      destruct (String.eqb_spec k patternId) as [->|Hne]; [congruence|].
      destruct (Hsome patternId sol Hs) as (sol' & E & Hu & Ha & Hc & Hr).
      exists sol'. repeat split; try assumption; apply Ha.
Qed.

(** X2. Feedback touches one record and is not a look-up: for an id the
    cache does not hold [updateSolutionEffectiveness] changes nothing at
    all; otherwise every other entry and both counters stay as they were,
    and the record keeps its advice and its [usage_count].  A success rate
    between 0 and 100 stays there, and so does a confidence score between
    50 and 100. *)
Theorem updateSolutionEffectiveness_frame (c : Cache) (patternId : string)
    (wasSuccessful : bool) (now : Z) :
  let c' := updateSolutionEffectiveness c patternId wasSuccessful now in
  (solutionCache c !! patternId = None -> c' = c) /\
  (forall other, other <> patternId -> solutionCache c' !! other = solutionCache c !! other) /\
  cacheHits c' = cacheHits c /\
  cacheMisses c' = cacheMisses c /\
  (forall sol,
     solutionCache c !! patternId = Some sol ->
     exists sol',
       solutionCache c' !! patternId = Some sol' /\
       sameAdvice sol sol' /\
       usage_count sol' = usage_count sol /\
       last_accessed sol' = now /\
       ((0 <= success_rate sol <= 100)%Q -> (0 <= success_rate sol' <= 100)%Q) /\
       ((50 <= confidence_score sol <= 100)%Q -> (50 <= confidence_score sol' <= 100)%Q)).
Proof.
  cbn zeta. unfold updateSolutionEffectiveness.
  destruct (solutionCache c !! patternId) as [solution|] eqn:Hs.
  - cbn [withSolutions solutionCache cacheHits cacheMisses].
    split; [discriminate|].
    split; [intros other Hne; apply lookup_insert_ne; congruence|].
    split; [reflexivity|]. split; [reflexivity|].
    intros sol E. inversion E; subst sol.
    exists (applyFeedback solution wasSuccessful now).
    split; [apply lookup_insert_eq|].
    split; [repeat split|]. split; [reflexivity|]. split; [reflexivity|].
    cbn [applyFeedback success_rate confidence_score]. split.
    + intros [Hlo Hhi]. destruct wasSuccessful; split; lra.
    + intros [Hlo Hhi]. destruct wasSuccessful.
      * destruct (Qmin_cases 100 (confidence_score solution + 2)) as (A & B & [C|C]);
          split; lra.
      * destruct (Qmax_cases 50 (confidence_score solution - 5)) as (A & B & [C|C]);
          split; lra.
  - repeat split; auto. intros sol E. discriminate.
Qed.

Lemma Math_round_bounds (q : Q) (a b : Z) :
  (inject_Z a <= q)%Q -> (q <= inject_Z b)%Q -> (a <= Math_round q <= b)%Z.
Proof.
  intros Ha Hb. unfold Math_round.
  pose proof (Qfloor_le (q + 0.5)) as Hle.
  pose proof (Qlt_floor (q + 0.5)) as Hlt.
  split.
  - assert (H : (inject_Z a < inject_Z (Qfloor (q + 0.5) + 1))%Q) by lra.
    rewrite <- Zlt_Qlt in H. lia.
  - assert (H : (inject_Z (Qfloor (q + 0.5)) < inject_Z (b + 1))%Q).
    { rewrite inject_Z_plus. change (inject_Z 1) with 1%Q. lra. }
    rewrite <- Zlt_Qlt in H. lia.
Qed.

Lemma Math_round_Z (z : Z) (q : Q) : (q == inject_Z z)%Q -> Math_round q = z.
Proof.
  intros E. pose proof (Math_round_bounds q z z) as H.
  assert (z <= Math_round q <= z)%Z by (apply H; lra). lia.
Qed.

Lemma inject_nat_nonneg (n : nat) : (0 <= inject_Z (Z.of_nat n))%Q.
Proof. change 0%Q with (inject_Z 0). rewrite <- Zle_Qle. lia. Qed.

Lemma inject_nat_pos (n : nat) : (0 < n)%nat -> (0 < inject_Z (Z.of_nat n))%Q.
Proof. intros Hn. change 0%Q with (inject_Z 0). rewrite <- Zlt_Qlt. lia. Qed.

Lemma inject_nat_le (n m : nat) :
  (n <= m)%nat -> (inject_Z (Z.of_nat n) <= inject_Z (Z.of_nat m))%Q.
Proof. intros Hn. rewrite <- Zle_Qle. lia. Qed.

(** A share of a total, as a percentage, lies between 0 and 100. *)
Lemma percentage_range (part total : nat) :
  (0 < total)%nat -> (part <= total)%nat ->
  (0 <= inject_Z (Z.of_nat part) / inject_Z (Z.of_nat total) * 100 <= 100)%Q.
Proof.
  intros Hpos Hle.
  pose proof (inject_nat_pos total Hpos) as Ht.
  pose proof (inject_nat_nonneg part) as Hp.
  pose proof (inject_nat_le part total Hle) as Hpt.
  set (p := inject_Z (Z.of_nat part)) in *. set (t := inject_Z (Z.of_nat total)) in *.
  assert (Hq : (0 <= p / t <= 1)%Q).
  { split.
    - apply Qle_shift_div_l; [exact Ht|]. lra.
    - apply Qle_shift_div_r; [exact Ht|]. lra. }
  lra.
Qed.


(** X4. What [cleanupCache] removes: exactly the solutions that are old
    and rarely used (cached more than 90 days ago, used fewer than 3
    times) or failing and often used (success rate below 30, used more
    than 5 times); the others stay as they are.  So a solution used 3, 4
    or 5 times is never removed, nor one cached within the last 90 days
    whose success rate is 30 or more.  The statistics are refreshed, and
    a second clean-up at the same time changes nothing. *)
Theorem cleanupCache_removes_exactly (c : Cache) (now : Z) :
  let c' := cleanupCache c now in
  let cutoffDate := (now - 90 * Clock.msPerDay)%Z in
  (forall patternId sol,
     solutionCache c' !! patternId = Some sol <->
     solutionCache c !! patternId = Some sol /\ shouldRemove sol cutoffDate = false) /\
  (forall patternId sol,
     solutionCache c !! patternId = Some sol ->
     (3 <= usage_count sol <= 5)%nat ->
     solutionCache c' !! patternId = Some sol) /\
  (forall patternId sol,
     solutionCache c !! patternId = Some sol ->
     (cutoffDate <= cached_date sol)%Z -> (30 <= success_rate sol)%Q ->
     solutionCache c' !! patternId = Some sol) /\
  total_cached_solutions (cacheStats c') = size (solutionCache c') /\
  cleanupCache c' now = c'.
Proof.
  cbn zeta.
  assert (Hlookup : forall patternId sol,
             solutionCache (cleanupCache c now) !! patternId = Some sol <->
             solutionCache c !! patternId = Some sol /\
             shouldRemove sol (now - 90 * Clock.msPerDay) = false).
  { intros patternId sol. unfold cleanupCache, updateCacheStatistics, withSolutions.
    cbn [solutionCache]. rewrite map_lookup_filter_Some. reflexivity. }
  split; [exact Hlookup|]. split; [|split; [|split]].
  - intros patternId sol Hs [Hlo Hhi]. apply Hlookup. split; [exact Hs|].
    unfold shouldRemove.
    replace (usage_count sol <? 3)%nat with false by (symmetry; apply Nat.ltb_ge; lia).
    replace (5 <? usage_count sol)%nat with false by (symmetry; apply Nat.ltb_ge; lia).
    rewrite !andb_false_r. reflexivity.
  - intros patternId sol Hs Hfresh Hrate. apply Hlookup. split; [exact Hs|].
    unfold shouldRemove.
    replace (cached_date sol <? now - 90 * Clock.msPerDay)%Z with false
      by (symmetry; apply Z.ltb_ge; exact Hfresh).
    replace (Qle_bool 30 (success_rate sol)) with true
      by (symmetry; apply Qle_bool_iff; exact Hrate).
    reflexivity.
  - reflexivity.
  - unfold cleanupCache at 1.
    assert (Hid : filter (fun entry : string * CachedSolution =>
                            shouldRemove (snd entry) (now - 90 * Clock.msPerDay) = false)
                    (solutionCache (cleanupCache c now)) =
                  solutionCache (cleanupCache c now)).
    { apply map_filter_id. intros patternId sol Hs. apply Hlookup in Hs. apply Hs. }
    rewrite Hid. unfold cleanupCache, updateCacheStatistics, withSolutions.
    cbn [solutionCache cacheHits cacheMisses cacheStats]. reflexivity.
Qed.

Lemma lower_ascii_idem (ch : ascii) : Str.lower_ascii (Str.lower_ascii ch) = Str.lower_ascii ch.
Proof. destruct ch as [[] [] [] [] [] [] [] []]; reflexivity. Qed.

Lemma toLowerCase_idem (s : string) : Str.toLowerCase (Str.toLowerCase s) = Str.toLowerCase s.
Proof.
  induction s as [|ch s IH]; cbn; [reflexivity|]. rewrite lower_ascii_idem, IH. reflexivity.
Qed.

Lemma splitWords_length (cs word : list ascii) (inGap : bool) :
  (0 < length (splitWords cs word inGap))%nat.
Proof.
  revert word inGap. induction cs as [|ch cs IH]; intros word inGap; cbn; [lia|].
  destruct (isWordChar ch); [apply IH|]. destruct inGap; [apply IH|cbn; lia].
Qed.

Lemma filter_all {A} (f : A -> bool) (l : list A) :
  (forall x, In x l -> f x = true) -> List.filter f l = l.
Proof.
  induction l as [|x l IH]; intros Hall; cbn; [reflexivity|].
  rewrite (Hall x (or_introl eq_refl)), IH; [reflexivity|].
  intros y Hy. apply Hall. right. exact Hy.
Qed.

Lemma includes_self (words : list string) (word : string) :
  In word words -> existsb (String.eqb word) words = true.
Proof. intros Hin. apply existsb_exists. exists word. split; [exact Hin|apply String.eqb_refl]. Qed.

Lemma nearest_1 : Double.nearest 1 = 1%Q.
Proof. vm_compute. reflexivity. Qed.

Lemma nearest_100 : Double.nearest 100 = 100%Q.
Proof. vm_compute. reflexivity. Qed.

Lemma calculateSimilarity_self (s : string) : calculateSimilarity s s = 100%Z.
Proof.
  unfold calculateSimilarity.
  set (words := split_W (Str.toLowerCase s)).
  rewrite (filter_all _ words) by (intros word Hin; apply includes_self; exact Hin).
  assert (Hlen : (0 < length words)%nat) by apply splitWords_length.
  replace (length words * 2)%nat with (length words + length words)%nat by lia.
  pose proof (inject_nat_pos (length words + length words)) as Hpos.
  assert (Hone : (inject_Z (Z.of_nat (length words + length words)) /
                  inject_Z (Z.of_nat (length words + length words)) == 1)%Q).
  { field.
    assert (0 < inject_Z (Z.of_nat (length words + length words)))%Q by (apply Hpos; lia).
    lra. }
  unfold Double.div. rewrite (nearest_comp _ _ Hone), nearest_1.
  unfold Double.mul. rewrite (nearest_comp (1 * 100) 100) by reflexivity.
  rewrite nearest_100. reflexivity.
Qed.

Lemma positiveDouble_2 : positiveDouble 2.
Proof. apply (positiveDouble_Z 2). lia. Qed.

Lemma positiveDouble_200 : positiveDouble 200.
Proof. apply (positiveDouble_Z 200). lia. Qed.

(** X5. [calculateSimilarity] is 100 on equal strings, whatever they are,
    and ignores the case of letters; it lies between 0 and 200 and is not
    symmetric: a word of the first string counts once for each of its
    occurrences, so the strings "a a a" and "a" score 150 one way and 50
    the other.  The score is the rounded double, not the rounded
    fraction: 23 common words in two strings of 40 words, which are 57.5
    of 100, score 57. *)
Theorem calculateSimilarity_self_and_range :
  (forall s, calculateSimilarity s s = 100%Z) /\
  (forall a b,
     calculateSimilarity (Str.toLowerCase a) (Str.toLowerCase b) = calculateSimilarity a b) /\
  (forall a b, (0 <= calculateSimilarity a b <= 200)%Z) /\
  calculateSimilarity "a a a" "a" = 150%Z /\
  calculateSimilarity "a" "a a a" = 50%Z /\
  calculateSimilarity
    (Fixtures.numbered "c" 23 +:+ " " +:+ Fixtures.numbered "a" 17)
    (Fixtures.numbered "c" 23 +:+ " " +:+ Fixtures.numbered "b" 17) = 57%Z.
Proof.
  split; [exact calculateSimilarity_self|].
  split; [|split; [|split; [|split]]]; [| |vm_compute; reflexivity..].
  - intros a b. unfold calculateSimilarity. rewrite !toLowerCase_idem. reflexivity.
  - intros a b. unfold calculateSimilarity.
    set (words1 := split_W (Str.toLowerCase a)).
    set (words2 := split_W (Str.toLowerCase b)).
    set (common := List.filter _ words1).
    assert (Hcommon : (length common <= length words1)%nat) by apply filter_length_le.
    assert (H1 : (0 < length words1)%nat) by apply splitWords_length.
    assert (Ht : (0 < inject_Z (Z.of_nat (length words1 + length words2)))%Q)
      by (apply inject_nat_pos; lia).
    pose proof (inject_nat_nonneg (length common * 2)) as Hc.
    set (share := (inject_Z (Z.of_nat (length common * 2)) /
                   inject_Z (Z.of_nat (length words1 + length words2)))%Q).
    assert (Hlo : (0 <= share)%Q) by (apply Qle_shift_div_l; [assumption|lra]).
    assert (Hhi : (share <= 2)%Q).
    { apply Qle_shift_div_r; [assumption|].
      change 2%Q with (inject_Z 2). rewrite <- inject_Z_mult, <- Zle_Qle. lia. }
    unfold Double.mul, Double.div. fold share.
    pose proof (nearest_nonneg share Hlo) as Hlo1.
    pose proof (nearest_le share 2 positiveDouble_2 Hhi) as Hhi1.
    assert (Hlo2 : (0 <= Double.nearest share * 100)%Q) by lra.
    assert (Hhi2 : (Double.nearest share * 100 <= 200)%Q) by lra.
    apply Math_round_bounds.
    + change (inject_Z 0) with 0%Q. apply nearest_nonneg. exact Hlo2.
    + change (inject_Z 200) with 200%Q. apply nearest_le; [exact positiveDouble_200|exact Hhi2].
Qed.

(** *** Sorting puts the list in order *)

Section Sorted.

Context {A : Type} (before : A -> A -> bool) (R : A -> A -> Prop).
Hypothesis before_true : forall x y, before x y = true -> R x y.
Hypothesis before_false : forall x y, before x y = false -> R y x.
Hypothesis R_trans : forall x y z, R x y -> R y z -> R x z.

Lemma insertBy_sorted (x : A) (l : list A) :
  StronglySorted R l -> StronglySorted R (Js.insertBy before x l).
Proof.
  induction 1 as [|y l Hsorted IH Hall]; cbn.
  - constructor; constructor.
  - destruct (before y x) eqn:E.
    + constructor; [exact IH|].
      apply List.Forall_forall. intros z Hz.
      apply (Permutation_in _ (insertBy_perm before x l)) in Hz.
      destruct Hz as [<-|Hz]; [apply before_true; exact E|].
      rewrite List.Forall_forall in Hall. exact (Hall z Hz).
    + constructor; [constructor; assumption|].
      constructor; [apply before_false; exact E|].
      apply List.Forall_forall. intros z Hz. rewrite List.Forall_forall in Hall.
      apply (R_trans x y z); [apply before_false; exact E|exact (Hall z Hz)].
Qed.

Lemma sortBy_sorted (l : list A) : StronglySorted R (Js.sortBy before l).
Proof.
  unfold Js.sortBy. induction l as [|x l IH]; cbn; [constructor|].
  apply insertBy_sorted. exact IH.
Qed.

Lemma StronglySorted_lookup (l : list A) (i j : nat) (a b : A) :
  StronglySorted R l -> (i < j)%nat -> l !! i = Some a -> l !! j = Some b -> R a b.
Proof.
  intros Hsorted. revert i j. induction Hsorted as [|x l Hsorted IH Hall]; intros i j Hij Ha Hb.
  - rewrite lookup_nil in Ha. discriminate.
  - destruct j as [|j]; [lia|]. cbn in Hb. destruct i as [|i].
    + cbn in Ha. inversion Ha; subst x. rewrite List.Forall_forall in Hall.
      apply Hall. apply list_elem_of_In. eapply list_elem_of_lookup_2. exact Hb.
    + cbn in Ha. apply (IH i j); [lia|assumption|assumption].
Qed.

End Sorted.

(** X6. [searchSimilarPatterns] returns exactly the cached solutions whose
    id is at least [threshold] (70 when none is given) similar to the
    signature, each as often as the cache lists it and none before one of
    higher rank, the rank being the product of confidence and success
    rate as the code computes it, in doubles.  A solution whose id is the
    signature itself is returned for every threshold up to 100. *)
Theorem searchSimilarPatterns_ranked (solutions : list CachedSolution)
    (errorSignature : string) (threshold : option Q) :
  let found := searchSimilarPatterns solutions errorSignature threshold in
  let similarEnough := fun s : CachedSolution =>
    Qle_bool (Double.nearest (default 70%Q threshold))
      (inject_Z (calculateSimilarity errorSignature (pattern_id s))) in
  Permutation found (List.filter similarEnough solutions) /\
  (forall s,
     In s found <->
     In s solutions /\
     (Double.nearest (default 70%Q threshold) <=
      inject_Z (calculateSimilarity errorSignature (pattern_id s)))%Q) /\
  byRank found /\
  (forall s,
     In s solutions -> pattern_id s = errorSignature -> (default 70%Q threshold <= 100)%Q ->
     In s found).
Proof.
  cbn zeta. unfold searchSimilarPatterns.
  set (similarEnough := fun s : CachedSolution => Qle_bool _ _).
  set (before := fun a b : CachedSolution => negb (Qle_bool (rank a) (rank b))).
  assert (Hperm : Permutation (Js.sortBy before (List.filter similarEnough solutions))
                    (List.filter similarEnough solutions)) by apply sortBy_perm.
  assert (Hmem : forall s,
             In s (Js.sortBy before (List.filter similarEnough solutions)) <->
             In s solutions /\
             (Double.nearest (default 70%Q threshold) <=
              inject_Z (calculateSimilarity errorSignature (pattern_id s)))%Q).
  { intros s. split.
    - intros Hin. apply (Permutation_in _ Hperm) in Hin. apply List.filter_In in Hin.
      destruct Hin as [Hin Hsim]. split; [exact Hin|]. apply Qle_bool_iff. exact Hsim.
    - intros [Hin Hsim]. apply (Permutation_in _ (Permutation_sym Hperm)).
      apply List.filter_In. split; [exact Hin|]. apply Qle_bool_iff. exact Hsim. }
  split; [exact Hperm|]. split; [exact Hmem|]. split.
  - intros i j a b Hij Ha Hb.
    apply (StronglySorted_lookup (fun x y : CachedSolution => (rank y <= rank x)%Q)
             (Js.sortBy before (List.filter similarEnough solutions)) i j a b);
      [|exact Hij|exact Ha|exact Hb].
    apply (sortBy_sorted before).
    + intros x y E. unfold before in E. apply negb_true_iff in E.
      destruct (Qlt_le_dec (rank y) (rank x)) as [Hlt|Hle]; [lra|].
      apply Qle_bool_iff in Hle. congruence.
    + intros x y E. unfold before in E. apply negb_false_iff in E.
      apply Qle_bool_iff in E. exact E.
    + intros x y z Hxy Hyz. lra.
  - intros s Hin Hid Hth. apply Hmem. split; [exact Hin|].
    rewrite Hid, calculateSimilarity_self.
    apply nearest_le; [|exact Hth].
    apply (positiveDouble_Z 100). lia.
Qed.

(** *** Storing analysis results *)

Lemma cacheSolution_keeps (c : Cache) (solution : CachedSolution) (patternId : string) :
  is_Some (solutionCache c !! patternId) ->
  is_Some (solutionCache (cacheSolution c solution) !! patternId).
Proof.
  intros Hs. unfold cacheSolution, withSolutions. cbn [solutionCache].
  destruct (decide (pattern_id solution = patternId)) as [<-|Hne].
  - rewrite lookup_insert_eq. eauto.
  - rewrite lookup_insert_ne by exact Hne. exact Hs.
Qed.

Lemma cacheEach_keeps (mk : Js.JVal -> Js.Outcome CachedSolution) (items : list Js.JVal)
    (c : Cache) :
  (forall patternId,
     is_Some (solutionCache c !! patternId) ->
     is_Some (solutionCache (snd (cacheEach mk items c)) !! patternId)) /\
  cacheHits (snd (cacheEach mk items c)) = cacheHits c /\
  cacheMisses (snd (cacheEach mk items c)) = cacheMisses c /\
  cacheStats (snd (cacheEach mk items c)) = cacheStats c.
Proof.
  revert c. induction items as [|x items IH]; intros c; cbn [cacheEach].
  - cbn. auto.
  - destruct (mk x) as [solution|m|]; [|cbn; auto|cbn; auto].
    destruct (IH (cacheSolution c solution)) as (Hkeys & Hh & Hm & Hst).
    split; [|split; [|split]]; [|rewrite Hh|rewrite Hm|rewrite Hst]; try reflexivity.
    intros patternId Hs. apply Hkeys. apply cacheSolution_keeps. exact Hs.
Qed.

Lemma cacheEach_stores (mk : Js.JVal -> Js.Outcome CachedSolution) (items : list Js.JVal)
    (c : Cache) (x : Js.JVal) :
  fst (cacheEach mk items c) = Js.Ok tt -> In x items ->
  exists solution,
    mk x = Js.Ok solution /\
    is_Some (solutionCache (snd (cacheEach mk items c)) !! pattern_id solution).
Proof.
  revert c. induction items as [|y items IH]; intros c Hok Hin; [destruct Hin|].
  cbn [cacheEach] in *.
  destruct (mk y) as [solution|m|] eqn:Ey; [|discriminate|discriminate].
  destruct Hin as [->|Hin].
  - exists solution. split; [exact Ey|].
    apply (cacheEach_keeps mk items (cacheSolution c solution)).
    unfold cacheSolution, withSolutions. cbn [solutionCache].
    rewrite lookup_insert_eq. eauto.
  - apply IH; assumption.
Qed.

Lemma solutionOfPattern_id `{Host} (fs : list (string * Js.JVal)) (pid : string) (now : Z)
    (solution : CachedSolution) :
  Js.assoc "pattern_id" fs = Js.JStr pid -> pid <> "" ->
  solutionOfPattern (Js.JObj fs) now = Js.Ok solution ->
  pattern_id solution = pid.
Proof.
  intros Hid Hne. unfold solutionOfPattern. cbn [Js.properties mbind Outcome_bind Js.bind].
  rewrite Hid.
  assert (Ht : Js.truthy (Js.JStr pid) = true) by (destruct pid; [contradiction|reflexivity]).
  rewrite Ht. cbn [asString Js.bind].
  destruct (if Js.truthy (Js.assoc "confidence" fs) then asNumber (Js.assoc "confidence" fs)
            else Js.Ok 70%Q) as [q|m|]; cbn; intros E; inversion E; reflexivity.
Qed.

(** X7. [cacheAnalysisResults] only adds to the cache: whatever the result
    holds and however the call ends, every id stored before is stored
    after, and the hit and miss counters are untouched.  A result without
    patterns and insights stores nothing and succeeds.  A [patterns] value
    that cannot be iterated raises before anything is stored.  And when
    the call succeeds, every pattern object of the result that carries a
    non-empty [pattern_id] is stored under that id. *)
Theorem cacheAnalysisResults_only_adds `{Host} (c : Cache)
    (analysisResult : list (string * Js.JVal)) (now : Z) :
  let outcome := fst (cacheAnalysisResults c analysisResult now) in
  let c' := snd (cacheAnalysisResults c analysisResult now) in
  let patterns := Js.assoc "patterns" analysisResult in
  let novel_insights := Js.assoc "novel_insights" analysisResult in
  (forall patternId,
     is_Some (solutionCache c !! patternId) -> is_Some (solutionCache c' !! patternId)) /\
  cacheHits c' = cacheHits c /\
  cacheMisses c' = cacheMisses c /\
  (Js.truthy patterns = false -> Js.truthy novel_insights = false ->
   outcome = Js.Ok tt /\ solutionCache c' = solutionCache c) /\
  (forall m,
     Js.iterate (Js.or_else patterns (Js.JArr [])) = Js.Throw m ->
     outcome = Js.Throw m /\ c' = c) /\
  (outcome = Js.Ok tt ->
   forall ps fs pid,
     patterns = Js.JArr ps -> In (Js.JObj fs) ps ->
     Js.assoc "pattern_id" fs = Js.JStr pid -> pid <> "" ->
     is_Some (solutionCache c' !! pid)).
Proof.
  cbn zeta. unfold cacheAnalysisResults.
  set (patterns := Js.assoc "patterns" analysisResult).
  set (novel_insights := Js.assoc "novel_insights" analysisResult).
  set (mkP := fun p => solutionOfPattern p now).
  set (mkI := fun i => solutionOfInsight i now).
  assert (HnoP : Js.truthy patterns = false ->
                 Js.iterate (Js.or_else patterns (Js.JArr [])) = Js.Ok [])
    by (intros Hp; unfold Js.or_else; rewrite Hp; reflexivity).
  assert (HnoI : Js.truthy novel_insights = false ->
                 Js.iterate (Js.or_else novel_insights (Js.JArr [])) = Js.Ok [])
    by (intros Hi; unfold Js.or_else; rewrite Hi; reflexivity).
  destruct (Js.iterate (Js.or_else patterns (Js.JArr []))) as [ps|m|] eqn:Eps; cbn [fst snd].
  2:{ split; [auto|]. split; [auto|]. split; [auto|].
      split; [intros Hp _; specialize (HnoP Hp); discriminate|].
      split; [intros m' Hm; split; congruence|intros Hok; discriminate]. }
  2:{ split; [auto|]. split; [auto|]. split; [auto|].
      split; [intros Hp _; specialize (HnoP Hp); discriminate|].
      split; [intros m' Hm; discriminate|intros Hok; discriminate]. }
  pose proof (cacheEach_keeps mkP ps c) as (HkeysP & HhP & HmP & HstP).
  pose proof (cacheEach_stores mkP ps c) as HstoreP.
  assert (HemptyP : ps = [] -> cacheEach mkP ps c = (Js.Ok tt, c)) by (intros ->; reflexivity).
  destruct (cacheEach mkP ps c) as [[[]|m|] c1] eqn:E1; cbn [fst snd] in *.
  2:{ split; [auto|]. split; [auto|]. split; [auto|].
      split; [intros Hp _; specialize (HnoP Hp); inversion HnoP as [Hps];
              specialize (HemptyP Hps); discriminate|].
      split; [intros m' Hm; discriminate|intros Hok; discriminate]. }
  2:{ split; [auto|]. split; [auto|]. split; [auto|].
      split; [intros Hp _; specialize (HnoP Hp); inversion HnoP as [Hps];
              specialize (HemptyP Hps); discriminate|].
      split; [intros m' Hm; discriminate|intros Hok; discriminate]. }
  destruct (Js.iterate (Js.or_else novel_insights (Js.JArr []))) as [ins|m|] eqn:Eins;
    cbn [fst snd].
  2:{ split; [auto|]. split; [auto|]. split; [auto|].
      split; [intros _ Hi; specialize (HnoI Hi); discriminate|].
      split; [intros m' Hm; discriminate|intros Hok; discriminate]. }
  2:{ split; [auto|]. split; [auto|]. split; [auto|].
      split; [intros _ Hi; specialize (HnoI Hi); discriminate|].
      split; [intros m' Hm; discriminate|intros Hok; discriminate]. }
  pose proof (cacheEach_keeps mkI ins c1) as (HkeysI & HhI & HmI & HstI).
  assert (HemptyI : ins = [] -> cacheEach mkI ins c1 = (Js.Ok tt, c1))
    by (intros ->; reflexivity).
  destruct (cacheEach mkI ins c1) as [[[]|m|] c2] eqn:E2; cbn [fst snd] in *.
  2:{ split; [auto|]. split; [congruence|]. split; [congruence|].
      split; [intros _ Hi; specialize (HnoI Hi); inversion HnoI as [Hins];
              specialize (HemptyI Hins); discriminate|].
      split; [intros m' Hm; discriminate|intros Hok; discriminate]. }
  2:{ split; [auto|]. split; [congruence|]. split; [congruence|].
      split; [intros _ Hi; specialize (HnoI Hi); inversion HnoI as [Hins];
              specialize (HemptyI Hins); discriminate|].
      split; [intros m' Hm; discriminate|intros Hok; discriminate]. }
  unfold updateCacheStatistics. cbn [solutionCache cacheHits cacheMisses].
  split; [auto|]. split; [congruence|]. split; [congruence|]. split; [|split].
  - intros Hp Hi. split; [reflexivity|].
    specialize (HnoP Hp). specialize (HnoI Hi).
    inversion HnoP as [Hps]. inversion HnoI as [Hins].
    specialize (HemptyP Hps). specialize (HemptyI Hins). congruence.
  - intros m Hm. discriminate.
  - intros _ ps' fs pid Hps Hin Hid Hne.
    assert (ps' = ps).
    { unfold Js.or_else in Eps. rewrite Hps in Eps. cbn in Eps. congruence. }
    subst ps'.
    destruct (HstoreP (Js.JObj fs) eq_refl Hin) as (solution & Emk & Hstored).
    apply HkeysI. unfold mkP in Emk.
    rewrite (solutionOfPattern_id fs pid now solution Hid Hne Emk) in Hstored.
    exact Hstored.
Qed.

(* ===================================================================== *)
(** ** The gateway's batches, budget and parser *)
(* ===================================================================== *)

Import ClaudeInterface BatchFacts.

Lemma removeDuplicateErrorsFrom_facts (errors : list ErrorContext) (seen : list string) :
  let kept := removeDuplicateErrorsFrom seen errors in
  (forall e, In e kept -> In e errors /\ ~ In (signatureOf e) seen) /\
  List.NoDup (map signatureOf kept) /\
  (forall e, In e errors ->
     In (signatureOf e) seen \/ exists e', In e' kept /\ signatureOf e' = signatureOf e).
Proof.
  revert seen. induction errors as [|error errors IH]; intros seen; cbn zeta.
  - cbn. split; [intros e []|]. split; [constructor|intros e []].
  - cbn [removeDuplicateErrorsFrom]. fold (signatureOf error).
    destruct (existsb (String.eqb (signatureOf error)) seen) eqn:Eseen.
    + destruct (IH seen) as (Hin & Hnd & Hcov).
      split; [|split; [exact Hnd|]].
      * intros e He. destruct (Hin e He). split; [right|]; assumption.
      * intros e [<-|He]; [|apply Hcov; exact He].
        left. apply existsb_exists in Eseen. destruct Eseen as (k & Hk & E).
        apply String.eqb_eq in E. congruence.
    + destruct (IH (signatureOf error :: seen)) as (Hin & Hnd & Hcov).
      assert (Hfresh : ~ In (signatureOf error) seen).
      { intros Hs. assert (existsb (String.eqb (signatureOf error)) seen = true)
          by (apply includes_self; exact Hs). congruence. }
      split; [|split].
      * intros e [<-|He]; [split; [left; reflexivity|exact Hfresh]|].
        destruct (Hin e He) as [Hine Hns]. split; [right; exact Hine|].
        intros Hs. apply Hns. right. exact Hs.
      * cbn [map]. apply List.NoDup_cons; [|exact Hnd].
        intros Hs. apply in_map_iff in Hs. destruct Hs as (e & Hsig & He).
        destruct (Hin e He) as [_ Hns]. apply Hns. left. congruence.
      * intros e [<-|He]; [right; exists error; split; [left|]; reflexivity|].
        destruct (Hcov e He) as [[Hs|Hs]|(e' & He' & Hsig)].
        -- right. exists error. split; [left; reflexivity|exact Hs].
        -- left. exact Hs.
        -- right. exists e'. split; [right; exact He'|exact Hsig].
Qed.

Lemma firstn_In {A} (n : nat) (l : list A) (x : A) : In x (firstn n l) -> In x l.
Proof.
  revert n. induction l as [|y l IH]; intros n Hin; [rewrite firstn_nil in Hin; exact Hin|].
  destruct n as [|n]; [destruct Hin|]. cbn [firstn] in Hin.
  destruct Hin as [->|Hin]; [left; reflexivity|right; eapply IH; exact Hin].
Qed.

Lemma firstn_NoDup {A} (n : nat) (l : list A) : List.NoDup l -> List.NoDup (firstn n l).
Proof.
  revert n. induction l as [|x l IH]; intros n Hnd; [rewrite firstn_nil; constructor|].
  destruct n as [|n]; [constructor|]. cbn [firstn].
  apply List.NoDup_cons_iff in Hnd. destruct Hnd as [Hnotin Hnd].
  apply List.NoDup_cons; [|apply IH; exact Hnd].
  intros Hin. apply Hnotin. eapply firstn_In. exact Hin.
Qed.

Lemma optimizeForCostEfficiency_length (errorBatch : list ErrorContext) :
  (length (optimizeForCostEfficiency errorBatch) <= OPTIMAL_BATCH_SIZE)%nat /\
  (length (optimizeForCostEfficiency errorBatch) <= length errorBatch)%nat.
Proof.
  unfold optimizeForCostEfficiency, prioritizeNovelErrors.
  rewrite (Permutation_length (sortBy_perm _ _)). split; [apply firstn_le_length|].
  rewrite length_firstn.
  assert (Hle : forall seen l, (length (removeDuplicateErrorsFrom seen l) <= length l)%nat).
  { intros seen l. revert seen. induction l as [|e l IH]; intros seen; cbn; [lia|].
    destruct (existsb _ seen); [specialize (IH seen); lia|].
    cbn. specialize (IH ((error_message e +:+ "_" +:+ repo_context e) :: seen)). lia. }
  specialize (Hle [] errorBatch). unfold removeDuplicateErrors. lia.
Qed.

(** X8. The batch the gateway sends, [optimizeForCostEfficiency]: at most
    12 errors, each one of the errors it was given, no two with the same
    key, and none before an error with a longer stack trace.  The key of
    an error is the text by which [removeDuplicateErrors] tells errors
    apart: its message, an underscore and its repository context, so
    errors with different messages and contexts can share a key.  Nothing
    is given, nothing is sent; and when the errors given have at most 12
    different keys, every key of an error given is the key of an error of
    the batch. *)
Theorem optimizeForCostEfficiency_batch (errorBatch : list ErrorContext) :
  let batch := optimizeForCostEfficiency errorBatch in
  (length batch <= OPTIMAL_BATCH_SIZE)%nat /\
  (forall e, In e batch -> In e errorBatch) /\
  List.NoDup (map signatureOf batch) /\
  longestFirst batch /\
  (errorBatch = [] -> batch = []) /\
  ((length (removeDuplicateErrors errorBatch) <= OPTIMAL_BATCH_SIZE)%nat ->
   forall e, In e errorBatch -> exists e', In e' batch /\ signatureOf e' = signatureOf e) /\
  (forall keys,
     (forall e, In e errorBatch -> In (signatureOf e) keys) ->
     (length keys <= OPTIMAL_BATCH_SIZE)%nat ->
     forall e, In e errorBatch -> exists e', In e' batch /\ signatureOf e' = signatureOf e).
Proof.
  cbn zeta. unfold optimizeForCostEfficiency, prioritizeNovelErrors.
  set (before := fun a b : ErrorContext => (complexity b <? complexity a)%nat).
  set (unique := removeDuplicateErrors errorBatch).
  destruct (removeDuplicateErrorsFrom_facts errorBatch []) as (Hin & Hnd & Hcov).
  fold (removeDuplicateErrors errorBatch) in Hin, Hnd, Hcov. fold unique in Hin, Hnd, Hcov.
  pose proof (sortBy_perm before (firstn OPTIMAL_BATCH_SIZE unique)) as Hperm.
  assert (Hall : (length unique <= OPTIMAL_BATCH_SIZE)%nat ->
                 forall e, In e errorBatch ->
                 exists e', In e' (Js.sortBy before (firstn OPTIMAL_BATCH_SIZE unique)) /\
                            signatureOf e' = signatureOf e).
  { intros Hsmall e He.
    destruct (Hcov e He) as [[]|(e' & He' & Hsig)].
    exists e'. split; [|exact Hsig].
    apply (Permutation_in _ (Permutation_sym Hperm)).
    rewrite firstn_all2 by exact Hsmall. exact He'. }
  split; [|split; [|split; [|split; [|split; [|split]]]]].
  - rewrite (Permutation_length Hperm). apply firstn_le_length.
  - intros e He. apply (Permutation_in _ Hperm) in He. apply firstn_In in He.
    apply Hin. exact He.
  - eapply Permutation_NoDup; [apply Permutation_map; symmetry; exact Hperm|].
    rewrite <- firstn_map. apply firstn_NoDup. exact Hnd.
  - intros i j a b Hij Ha Hb.
    apply (StronglySorted_lookup (fun x y : ErrorContext => (complexity y <= complexity x)%nat)
             (Js.sortBy before (firstn OPTIMAL_BATCH_SIZE unique)) i j a b);
      [|exact Hij|exact Ha|exact Hb].
    apply (sortBy_sorted before).
    + intros x y E. unfold before in E. apply Nat.ltb_lt in E. lia.
    + intros x y E. unfold before in E. apply Nat.ltb_ge in E. exact E.
    + intros x y z Hxy Hyz. lia.
  - intros ->. reflexivity.
  - exact Hall.
  - intros keys Hkeys Hfew. apply Hall.
    rewrite <- (length_map signatureOf unique).
    etransitivity; [|exact Hfew].
    apply List.NoDup_incl_length; [exact Hnd|].
    intros k Hk. apply in_map_iff in Hk. destruct Hk as (e & <- & He).
    apply Hkeys. apply Hin. exact He.
Qed.

(** X9. The five emergency calls are never made.  Once the day's calls
    have reached [DAILY_CALL_LIMIT], [canUseClaude] still answers yes for
    a critical error until five more calls are counted, and no for every
    other priority; but [analyzeBatchWithBudget], which takes no priority,
    refuses every batch: it raises "Daily budget exceeded" without calling
    the service and leaves the usage log as it is. *)
Theorem emergency_calls_are_refused `{Host} (t : UsageTracker) (now : Z) :
  (DAILY_CALL_LIMIT <= calls_made_today (checkDailyBudget t now))%nat ->
  ((calls_made_today (checkDailyBudget t now) < DAILY_CALL_LIMIT + 5)%nat ->
   canUseClaude t critical now = true) /\
  canUseClaude t high now = false /\
  canUseClaude t medium now = false /\
  canUseClaude t low now = false /\
  forall errorBatch crossRepoContext api tRecord,
    analyzeBatchWithBudget t errorBatch crossRepoContext now api tRecord =
      (Js.Throw ("Daily budget exceeded. Used " +:+
                 Str.decimal (Z.of_nat (calls_made_today (checkDailyBudget t now))) +:+
                 "/" +:+ Str.decimal (Z.of_nat DAILY_CALL_LIMIT) +:+ " calls"), t).
Proof.
  intros Hfull.
  assert (Hno : can_proceed (checkDailyBudget t now) = false).
  { unfold checkDailyBudget in *. cbn [can_proceed calls_made_today] in *.
    apply Nat.ltb_ge. exact Hfull. }
  split; [|split; [|split; [|split]]]; try exact Hno.
  - intros Hroom. unfold canUseClaude. apply Nat.ltb_lt. exact Hroom.
  - intros errorBatch crossRepoContext api tRecord.
    apply analyzeBatchWithBudget_exhausted. exact Hno.
Qed.

Lemma emergency_calls_are_refused_witness :
  @canUseClaude Fixtures.exampleHost (Server.claudeInterface Fixtures.serverAtLimit)
    critical 2000 = true /\
  fst (@analyzeBatchWithBudget Fixtures.exampleHost
         (Server.claudeInterface Fixtures.serverAtLimit) [Fixtures.productionError] true 2000
         (ApiResponse Fixtures.p1Response) 2000) =
    Js.Throw "Daily budget exceeded. Used 17/17 calls".
Proof.
  destruct (@emergency_calls_are_refused Fixtures.exampleHost
              (Server.claudeInterface Fixtures.serverAtLimit) 2000) as (Hyes & _ & _ & _ & Hno).
  - vm_compute. lia.
  - split.
    + apply Hyes. vm_compute. lia.
    + rewrite Hno. reflexivity.
Defined.

(** *** The brace-delimited block *)

Lemma chars_append (a b : string) : Str.chars (a +:+ b) = Str.chars a ++ Str.chars b.
Proof.
  induction a as [|ch a IH]; [reflexivity|].
  change (ch :: Str.chars (a +:+ b) = ch :: (Str.chars a ++ Str.chars b)).
  rewrite IH. reflexivity.
Qed.

Lemma fromFirstOpen_none (cs : list ascii) :
  ~ In "{"%char cs -> fromFirstOpen cs = None.
Proof.
  induction cs as [|ch cs IH]; intros Hno; cbn; [reflexivity|].
  destruct (Ascii.eqb_spec ch "{"%char) as [->|Hne]; [exfalso; apply Hno; left; reflexivity|].
  apply IH. intros Hin. apply Hno. right. exact Hin.
Qed.

Lemma fromFirstOpen_skip (before rest : list ascii) :
  ~ In "{"%char before -> fromFirstOpen (before ++ "{"%char :: rest) = Some rest.
Proof.
  induction before as [|ch before IH]; intros Hno; cbn; [reflexivity|].
  destruct (Ascii.eqb_spec ch "{"%char) as [->|Hne]; [exfalso; apply Hno; left; reflexivity|].
  apply IH. intros Hin. apply Hno. right. exact Hin.
Qed.

Lemma fromFirstOpen_suffix (cs rest : list ascii) :
  fromFirstOpen cs = Some rest -> forall ch, In ch rest -> In ch cs.
Proof.
  induction cs as [|c cs IH]; cbn; [discriminate|].
  destruct (Ascii.eqb c "{"%char).
  - intros E ch Hin. inversion E; subst. right. exact Hin.
  - intros E ch Hin. right. apply (IH E). exact Hin.
Qed.

Lemma uptoLastClose_none (cs : list ascii) :
  ~ In "}"%char cs -> uptoLastClose cs = None.
Proof.
  induction cs as [|ch cs IH]; intros Hno; cbn; [reflexivity|].
  rewrite IH by (intros Hin; apply Hno; right; exact Hin).
  destruct (Ascii.eqb_spec ch "}"%char) as [->|Hne]; [exfalso; apply Hno; left|]; reflexivity.
Qed.

Lemma uptoLastClose_prepend (body rest found : list ascii) :
  uptoLastClose rest = Some found -> uptoLastClose (body ++ rest) = Some (body ++ found).
Proof.
  intros Hrest. induction body as [|ch body IH]; cbn; [exact Hrest|].
  rewrite IH. reflexivity.
Qed.

Lemma fromFirstOpen_split (cs rest : list ascii) :
  fromFirstOpen cs = Some rest ->
  exists before, cs = before ++ "{"%char :: rest /\ ~ In "{"%char before.
Proof.
  revert rest. induction cs as [|c cs IH]; intros rest; cbn; [discriminate|].
  destruct (Ascii.eqb_spec c "{"%char) as [->|Hne].
  - intros [= <-]. exists []. split; [reflexivity|intros []].
  - intros E. destruct (IH rest E) as (before & -> & Hno).
    exists (c :: before). split; [reflexivity|].
    intros [Hc|Hin]; [congruence|contradiction].
Qed.

Lemma uptoLastClose_split (cs found : list ascii) :
  uptoLastClose cs = Some found ->
  exists body after,
    found = body ++ ["}"%char] /\ cs = body ++ "}"%char :: after /\ ~ In "}"%char after.
Proof.
  revert found. induction cs as [|c cs IH]; intros found; cbn; [discriminate|].
  destruct (uptoLastClose cs) as [p|] eqn:Ecs.
  - intros [= <-]. destruct (IH p eq_refl) as (body & after & -> & -> & Hno).
    exists (c :: body), after. repeat split; [exact Hno].
  - destruct (Ascii.eqb_spec c "}"%char) as [->|Hne]; [|discriminate].
    intros [= <-]. exists [], cs. split; [reflexivity|]. split; [reflexivity|].
    intros Hin. clear IH. revert Ecs Hin. induction cs as [|d cs IHcs]; [intros _ []|].
    cbn. destruct (uptoLastClose cs) eqn:E; [discriminate|].
    destruct (Ascii.eqb_spec d "}"%char) as [->|Hd]; [discriminate|].
    intros _ [Hc|Hin]; [congruence|]. apply IHcs; [reflexivity|exact Hin].
Qed.

Lemma chars_of_list (cs : list ascii) : Str.chars (string_of_list_ascii cs) = cs.
Proof. apply list_ascii_of_string_of_list_ascii. Qed.

(** X10. What [parseStructuredResponse] takes for the JSON of a reply: the
    text from the first opening brace to the last closing brace after it,
    and nothing else.  A reply that wraps one object in prose gives that
    object; a reply without an opening brace, or without a closing brace
    after its first opening brace, gives nothing. *)
Theorem jsonMatch_first_to_last_brace :
  (forall text, ~ In "{"%char (Str.chars text) -> jsonMatch text = None) /\
  (forall text, ~ In "}"%char (Str.chars text) -> jsonMatch text = None) /\
  (forall before rest,
     ~ In "{"%char (Str.chars before) -> ~ In "}"%char (Str.chars rest) ->
     jsonMatch (before +:+ "{" +:+ rest) = None) /\
  (forall before body after,
     ~ In "{"%char (Str.chars before) -> ~ In "}"%char (Str.chars after) ->
     jsonMatch (before +:+ "{" +:+ body +:+ "}" +:+ after) = Some ("{" +:+ body +:+ "}")) /\
  (forall text json,
     jsonMatch text = Some json ->
     exists before body after,
       text = before +:+ "{" +:+ body +:+ "}" +:+ after /\
       ~ In "{"%char (Str.chars before) /\ ~ In "}"%char (Str.chars after) /\
       json = "{" +:+ body +:+ "}").
Proof.
  split; [|split; [|split; [|split]]].
  - intros text Hno. unfold jsonMatch. rewrite fromFirstOpen_none by exact Hno. reflexivity.
  - intros text Hno. unfold jsonMatch.
    destruct (fromFirstOpen (Str.chars text)) as [rest|] eqn:E; [|reflexivity].
    rewrite uptoLastClose_none; [reflexivity|].
    intros Hin. apply Hno. eapply fromFirstOpen_suffix; [exact E|exact Hin].
  - intros before rest Hopen Hclose. unfold jsonMatch.
    rewrite !chars_append. change (Str.chars "{") with ["{"%char]. cbn [app].
    rewrite (fromFirstOpen_skip (Str.chars before)) by exact Hopen.
    rewrite uptoLastClose_none by exact Hclose. reflexivity.
  - intros before body after Hopen Hclose. unfold jsonMatch.
    rewrite !chars_append.
    change (Str.chars "{") with ["{"%char]. change (Str.chars "}") with ["}"%char].
    cbn [app].
    rewrite (fromFirstOpen_skip (Str.chars before)) by exact Hopen.
    rewrite (uptoLastClose_prepend (Str.chars body) ("}"%char :: Str.chars after) ["}"%char]).
    + rewrite <- (string_of_list_ascii_of_string ("{" +:+ body +:+ "}")).
      rewrite !chars_append. reflexivity.
    + cbn [uptoLastClose]. rewrite uptoLastClose_none by exact Hclose. reflexivity.
  - intros text json. unfold jsonMatch.
    destruct (fromFirstOpen (Str.chars text)) as [rest|] eqn:Eopen; [|discriminate].
    destruct (uptoLastClose rest) as [found|] eqn:Eclose; [|discriminate].
    intros [= <-].
    destruct (fromFirstOpen_split _ _ Eopen) as (before & Htext & Hno).
    destruct (uptoLastClose_split _ _ Eclose) as (body & after & -> & -> & Hnoc).
    exists (string_of_list_ascii before), (string_of_list_ascii body),
           (string_of_list_ascii after).
    rewrite !chars_of_list.
    split; [|split; [exact Hno|split; [exact Hnoc|]]].
    + rewrite <- (string_of_list_ascii_of_string text).
      fold (Str.chars text). rewrite Htext.
      rewrite <- (string_of_list_ascii_of_string (_ +:+ _)).
      fold (Str.chars (string_of_list_ascii before +:+ "{" +:+ string_of_list_ascii body +:+
                       "}" +:+ string_of_list_ascii after)).
      rewrite !chars_append, !chars_of_list.
      change (Str.chars "{") with ["{"%char]. change (Str.chars "}") with ["}"%char].
      reflexivity.
    + rewrite <- (string_of_list_ascii_of_string (_ +:+ _)).
      fold (Str.chars ("{" +:+ string_of_list_ascii body +:+ "}")).
      rewrite !chars_append, !chars_of_list.
      change (Str.chars "{") with ["{"%char]. change (Str.chars "}") with ["}"%char].
      reflexivity.
Qed.

(** X11. A gateway call is charged exactly when it returns a result.  When
    [analyzeBatchWithBudget] returns a result, the budget check had passed
    and one record was added to the usage log, stamped with the clock read
    after the reply, whose cost and tokens are the ones the result
    reports; the cost is not negative and the recorded batch has at most
    12 errors.  When it raises (no budget left, the service failed, the
    reply has no content), the usage log is unchanged. *)
Theorem analyzeBatchWithBudget_charges_what_it_reports `{Host} (t : UsageTracker)
    (errorBatch : list ErrorContext) (crossRepoContext : bool) (tCheck : Z) (api : ApiOutcome)
    (tRecord : Z) :
  let outcome :=
    fst (analyzeBatchWithBudget t errorBatch crossRepoContext tCheck api tRecord) in
  let t' := snd (analyzeBatchWithBudget t errorBatch crossRepoContext tCheck api tRecord) in
  match outcome with
  | Js.Ok r =>
      can_proceed (checkDailyBudget t tCheck) = true /\
      exists u,
        t' = recordUsage t u /\
        cost u = api_cost r /\
        usage_tokens u = tokens_used r /\
        timestamp u = tRecord /\
        (batch_size u <= OPTIMAL_BATCH_SIZE)%nat /\
        (0 <= tokens_used r)%Z /\
        (0 <= api_cost r)%Q
  | _ => t' = t
  end.
Proof.
  cbn zeta. unfold analyzeBatchWithBudget.
  destruct (can_proceed (checkDailyBudget t tCheck)) eqn:Hgo; cbn [negb fst snd];
    [|reflexivity].
  destruct api as [m|content]; cbn [fst snd]; [reflexivity|].
  destruct (estimateTokenUsage _ content) as [tokens|m|] eqn:Htok; cbn [fst snd];
    [|reflexivity|reflexivity].
  split; [reflexivity|]. eexists. split; [reflexivity|].
  cbn [cost usage_tokens timestamp batch_size api_cost tokens_used].
  pose proof (estimateTokenUsage_nonneg _ _ _ Htok) as Hpos.
  split; [reflexivity|]. split; [reflexivity|]. split; [reflexivity|].
  split; [|split; [exact Hpos|apply calculateCallCost_nonneg; exact Hpos]].
  destruct (optimizeForCostEfficiency_length errorBatch). assumption.
Qed.

(* ===================================================================== *)
(** ** The queue and its processing windows *)
(* ===================================================================== *)

Import Scheduler QueueFacts DispatchFacts WindowFacts.

Lemma wellFormed_addressesValid (s : Scheduler) : wellFormed s -> addressesValid s.
Proof.
  intros [_ Hid] k a Hin. destruct (Hid k a Hin) as (q & Hq & _).
  eapply lookup_lt_Some. exact Hq.
Qed.

Lemma estimateProcessingCost_range (errorContext : ErrorContext) :
  (0.05 <= estimateProcessingCost errorContext)%Q /\
  (Double.nearest 0.05 <= estimateProcessingCost errorContext)%Q /\
  (estimateProcessingCost errorContext <= Double.nearest 0.08)%Q.
Proof.
  unfold estimateProcessingCost. cbv zeta.
  destruct (stack_trace errorContext) as [st|]; [destruct (1000 <? String.length st)%nat|];
    (destruct (environment_info errorContext) as [fields|];
     [destruct (5 <? length fields)%nat|]);
    (split; [|split]); apply Qle_bool_iff; vm_compute; reflexivity.
Qed.

Lemma queuedErrors_length (s : Scheduler) :
  (length (queuedErrors s) <= length (errorQueue s))%nat.
Proof.
  unfold queuedErrors, JsMap.values. rewrite <- (length_map snd (errorQueue s)).
  generalize (map snd (errorQueue s)) as vals.
  induction vals as [|a vals IH]; [cbn; lia|]. cbn [omap list_omap].
  destruct (heap s !! a); cbn [option_map length]; lia.
Qed.

(** X12. An enqueue stores the error under its id: after
    [queueForClaudeAnalysis] the queue maps the generated id to a new
    object that holds the error context, the priority [determinePriority]
    gives it, the time it was queued, no retry, and the cost the result
    reports, which is between 0.05 and 0.08 dollars, as doubles compare.
    Every item queued under another id is still queued and unchanged, the
    reported position is between 1 and the length of the queue, and the
    queue stays keyed by the ids of its items. *)
Theorem queueForClaudeAnalysis_stores_the_error (s : Scheduler) (errorContext : ErrorContext)
    (dateNow queuedAt : Z) :
  wellFormed s ->
  let r := fst (queueForClaudeAnalysis s errorContext dateNow queuedAt) in
  let s' := snd (queueForClaudeAnalysis s errorContext dateNow queuedAt) in
  let errorId := generateErrorId errorContext dateNow in
  wellFormed s' /\
  (exists a,
     JsMap.get errorId (errorQueue s') = Some a /\
     heap s' !! a =
       Some {| id := errorId;
               error_context := errorContext;
               priority := determinePriority errorContext;
               queued_at := queuedAt;
               estimated_cost := cost_estimate r;
               retry_count := 0 |}) /\
  (forall k a q,
     k <> errorId -> JsMap.get k (errorQueue s) = Some a -> heap s !! a = Some q ->
     JsMap.get k (errorQueue s') = Some a /\ heap s' !! a = Some q) /\
  (0.05 <= cost_estimate r)%Q /\
  (Double.nearest 0.05 <= cost_estimate r)%Q /\
  (cost_estimate r <= Double.nearest 0.08)%Q /\
  (1 <= position r)%nat /\
  (position r <= length (errorQueue s'))%nat /\
  estimated_time r = estimateProcessingTime (position r) (determinePriority errorContext).
Proof.
  intros Hwf. cbn zeta.
  pose proof (wellFormed_queueForClaudeAnalysis s errorContext dateNow queuedAt Hwf) as Hwf'.
  pose proof (queue_position_at_least_one s errorContext dateNow queuedAt
                (wellFormed_addressesValid s Hwf)) as Hpos.
  pose proof (queuedErrors_length (snd (queueForClaudeAnalysis s errorContext dateNow queuedAt)))
    as Hlen.
  destruct (estimateProcessingCost_range errorContext) as (Hlo0 & Hlo & Hhi).
  unfold queueForClaudeAnalysis in *. cbn [fst snd position cost_estimate estimated_time
                                            heap errorQueue] in *.
  split; [exact Hwf'|]. split; [|split; [|split; [|split; [|split; [|split; [|split]]]]]].
  - exists (length (heap s)). split; [apply JsMap_get_set_same|].
    rewrite lookup_app_r by lia. rewrite Nat.sub_diag. reflexivity.
  - intros k a q Hne Hget Hq. split.
    + rewrite JsMap_get_set_other by exact Hne. exact Hget.
    + rewrite lookup_app_l by (eapply lookup_lt_Some; exact Hq). exact Hq.
  - exact Hlo0.
  - exact Hlo.
  - exact Hhi.
  - exact Hpos.
  - unfold calculateQueuePosition.
    etransitivity; [apply filter_length_le|]. exact Hlen.
  - reflexivity.
Qed.

Lemma queueForClaudeAnalysis_stores_the_error_witness :
  exists a,
    JsMap.get "error_cHJvZHVjdGlv" (errorQueue Fixtures.oneCritical) = Some a /\
    heap Fixtures.oneCritical !! a = Some Fixtures.productionItem.
Proof.
  destruct (queueForClaudeAnalysis_stores_the_error newScheduler Fixtures.productionError
              Fixtures.saturdayNoon Fixtures.saturdayNoon wellFormed_newScheduler)
    as (_ & (a & Hget & Hobj) & _).
  exists a. split; [exact Hget|exact Hobj].
Defined.

(** *** Every operation keeps the queue keyed by the ids of its items *)

Lemma JsMap_In_delete {V} (k k' : string) (v : V) (m : list (string * V)) :
  In (k, v) (JsMap.delete k' m) -> In (k, v) m.
Proof.
  induction m as [|[k2 v2] m IH]; cbn; [auto|].
  destruct (String.eqb k' k2); [intros Hin; right; exact Hin|].
  intros [E|Hin]; [left; exact E|right; apply IH; exact Hin].
Qed.

Lemma JsMap_get_delete_none {V} (k k' : string) (m : list (string * V)) :
  JsMap.get k m = None -> JsMap.get k (JsMap.delete k' m) = None.
Proof.
  induction m as [|[k2 v2] m IH]; cbn; [auto|].
  destruct (String.eqb k k2) eqn:E; [discriminate|]. intros Hn.
  destruct (String.eqb k' k2); [exact Hn|]. cbn. rewrite E. apply IH. exact Hn.
Qed.

(** Setting a key to the value it has changes nothing. *)
Lemma JsMap_set_same {V} (k : string) (v : V) (m : list (string * V)) :
  JsMap.get k m = Some v -> JsMap.set k v m = m.
Proof.
  induction m as [|[k2 v2] m IH]; cbn; [discriminate|].
  destruct (String.eqb_spec k k2) as [->|Hne].
  - intros E. inversion E. reflexivity.
  - intros Hget. rewrite IH by exact Hget. reflexivity.
Qed.

Lemma wellFormed_deleteQueued (s : Scheduler) (k : string) :
  wellFormed s -> wellFormed (deleteQueued s k).
Proof.
  intros [Hnd Hid]. split; cbn [deleteQueued errorQueue heap].
  - apply JsMap_NoDup_delete. exact Hnd.
  - intros k' a Hin. apply Hid. eapply JsMap_In_delete. exact Hin.
Qed.

(** An object of the queue is queued under its own id, so putting it back
    changes nothing in the queue. *)
Lemma requeue_queued (s : Scheduler) (k : string) (a : nat) :
  wellFormed s -> In (k, a) (errorQueue s) -> errorQueue (requeue s a) = errorQueue s.
Proof.
  intros [Hnd Hid] Hin. destruct (Hid k a Hin) as (q & Hq & Hk).
  unfold requeue. rewrite Hq.
  destruct (retry_count (bumpRetry q) <? 3)%nat; cbn [errorQueue]; [|reflexivity].
  apply JsMap_set_same. cbn [bumpRetry id]. rewrite Hk. apply JsMap_In_get; assumption.
Qed.

Lemma wellFormed_requeue (s : Scheduler) (a : nat) : wellFormed s -> wellFormed (requeue s a).
Proof.
  intros Hwf. pose proof Hwf as [Hnd Hid].
  destruct (heap s !! a) as [q|] eqn:Hq; [|unfold requeue; rewrite Hq; exact Hwf].
  assert (Hkeyed : forall k b, In (k, b) (errorQueue s) ->
                     exists qb, heap (requeue s a) !! b = Some qb /\ id qb = k).
  { intros k b Hin. destruct (Hid k b Hin) as (qb & Hqb & Hk).
    destruct (Nat.eq_dec a b) as [<-|Hne].
    - exists (bumpRetry q). split; [apply requeue_heap_same; exact Hq|].
      cbn [bumpRetry id]. congruence.
    - exists qb. split; [|exact Hk]. rewrite requeue_heap_other by exact Hne. exact Hqb. }
  destruct (Nat.lt_ge_cases (retry_count q + 1) 3) as [Hlt|Hge].
  - split.
    + rewrite (requeue_queue_kept s a q Hq Hlt).
      destruct (JsMap_keys_set (id q) a (errorQueue s)) as [->|[Hnotin ->]]; [exact Hnd|].
      apply List.NoDup_app; [exact Hnd|constructor; [intros []|constructor]|].
      intros x Hx [<-|[]]. contradiction.
    + intros k b Hin. rewrite (requeue_queue_kept s a q Hq Hlt) in Hin.
      apply (JsMap_In_set _ _ _ _ _ Hnd) in Hin. destruct Hin as [[-> ->]|[_ Hin]].
      * exists (bumpRetry q). split; [apply requeue_heap_same; exact Hq|reflexivity].
      * apply Hkeyed. exact Hin.
  - split.
    + rewrite (requeue_queue_dropped s a q Hq Hge). exact Hnd.
    + intros k b Hin. rewrite (requeue_queue_dropped s a q Hq Hge) in Hin.
      apply Hkeyed. exact Hin.
Qed.

Lemma wellFormed_processBatchWithClaude (s : Scheduler) (errorBatch : list nat)
    (batchType : string) (outcome : DispatchOutcome) :
  wellFormed s -> wellFormed (processBatchWithClaude s errorBatch batchType outcome).
Proof.
  intros Hwf. destruct outcome; cbn [processBatchWithClaude]; [exact Hwf|].
  revert s Hwf. induction errorBatch as [|a errorBatch IH]; intros s Hwf; cbn [fold_left];
    [exact Hwf|].
  apply IH. apply wellFormed_requeue. exact Hwf.
Qed.

Lemma wellFormed_deleteAll (s : Scheduler) (errors : list nat) :
  wellFormed s -> wellFormed (deleteAll s errors).
Proof.
  unfold deleteAll. revert s. induction errors as [|a errors IH]; intros s Hwf; cbn [fold_left];
    [exact Hwf|].
  apply IH. destruct (heap s !! a); [apply wellFormed_deleteQueued|]; exact Hwf.
Qed.

Lemma wellFormed_selectWithinBudget (budget : Q) (errors : list (nat * QueuedError))
    (total : Q) (s : Scheduler) :
  wellFormed s -> wellFormed (snd (selectWithinBudget budget errors total s)).
Proof.
  revert total s. induction errors as [|[a q] errors IH]; intros total s Hwf;
    cbn [selectWithinBudget]; [exact Hwf|].
  destruct (Qle_bool (costWith total q) budget).
  - specialize (IH (costWith total q) (deleteQueued s (id q))
                  (wellFormed_deleteQueued s (id q) Hwf)).
    destruct (selectWithinBudget budget errors (costWith total q)
                (deleteQueued s (id q))). exact IH.
  - apply IH. exact Hwf.
Qed.

Lemma wellFormed_criticalLoop (budget : Q) (errors : list nat) (processedCost : Q)
    (gateway : Gateway) (s : Scheduler) :
  wellFormed s -> wellFormed (criticalLoop budget errors processedCost gateway s).
Proof.
  revert processedCost s. induction errors as [|a errors IH]; intros processedCost s Hwf;
    cbn [criticalLoop]; [exact Hwf|].
  destruct (heap s !! a) as [error|]; [|apply IH; exact Hwf].
  destruct (Qle_bool (costWith processedCost error) budget); [|apply IH; exact Hwf].
  apply IH. apply wellFormed_deleteQueued. apply wellFormed_processBatchWithClaude. exact Hwf.
Qed.

(** X13. The queue stays keyed by the ids of its items: if no two entries
    of the queue share a key and every entry leads to an object whose id
    is the key, then the same holds after [processQueue], whatever the
    day and whatever the gateway does with the batches, and after the
    [processCriticalErrors] run of the quarter-hour timer. *)
Theorem processing_keeps_the_queue_keyed `{Host} (s : Scheduler) (now : Z)
    (remainingBudget : Q) (gateway : Gateway) :
  wellFormed s ->
  wellFormed (processQueue s now gateway) /\
  wellFormed (processCriticalErrors s remainingBudget gateway).
Proof.
  intros Hwf.
  assert (Hcritical : forall budget, wellFormed (processCriticalErrors s budget gateway))
    by (intros budget; apply wellFormed_criticalLoop; exact Hwf).
  split; [|apply Hcritical].
  unfold processQueue.
  destruct (negb (can_proceed checkDailyBudget)); [exact Hwf|].
  destruct (String.eqb (getCurrentDaySchedule now) "monday").
  { unfold processWeekendErrorBatch, selectWeekendBatch.
    match goal with
    | |- context [selectWithinBudget ?b ?e ?t s] =>
        pose proof (wellFormed_selectWithinBudget b e t s Hwf) as Hsel;
        destruct (selectWithinBudget b e t s) as [batch s1]
    end.
    cbn [snd] in Hsel. destruct batch; [exact Hsel|].
    apply wellFormed_processBatchWithClaude. exact Hsel. }
  destruct (String.eqb (getCurrentDaySchedule now) "wednesday").
  { unfold processCrossRepoAnalysis.
    destruct (map fst _); [exact Hwf|].
    apply wellFormed_deleteAll. apply wellFormed_processBatchWithClaude. exact Hwf. }
  destruct (String.eqb (getCurrentDaySchedule now) "friday").
  { unfold processWeeklySynthesis.
    destruct (map fst _); [exact Hwf|].
    apply wellFormed_deleteAll. apply wellFormed_processBatchWithClaude. exact Hwf. }
  apply Hcritical.
Qed.

Lemma processing_keeps_the_queue_keyed_witness :
  wellFormed (@processQueue Fixtures.exampleHost Fixtures.oneCritical Fixtures.saturdayNoon
                Fixtures.failingGateway) /\
  wellFormed (processCriticalErrors Fixtures.oneCritical dailyBudgetLimit
                Fixtures.failingGateway).
Proof.
  exact (@processing_keeps_the_queue_keyed Fixtures.exampleHost Fixtures.oneCritical
           Fixtures.saturdayNoon dailyBudgetLimit Fixtures.failingGateway
           wellFormed_oneCritical).
Defined.

(** *** The windows that delete after dispatching *)

Lemma fold_requeue_queued (batch : list nat) (s : Scheduler) :
  wellFormed s ->
  (forall a, In a batch -> exists k, In (k, a) (errorQueue s)) ->
  errorQueue (fold_left requeue batch s) = errorQueue s.
Proof.
  revert s. induction batch as [|a batch IH]; intros s Hwf Hin; cbn [fold_left]; [reflexivity|].
  destruct (Hin a (or_introl eq_refl)) as (k & Hk).
  pose proof (requeue_queued s k a Hwf Hk) as Hsame.
  rewrite IH.
  - exact Hsame.
  - apply wellFormed_requeue. exact Hwf.
  - intros b Hb. rewrite Hsame. apply Hin. right. exact Hb.
Qed.

Lemma fold_requeue_id (batch : list nat) (s : Scheduler) (b : nat) :
  option_map id (heap (fold_left requeue batch s) !! b) = option_map id (heap s !! b).
Proof.
  revert s. induction batch as [|a batch IH]; intros s; cbn [fold_left]; [reflexivity|].
  rewrite IH. apply requeue_id.
Qed.

Lemma deleteAll_heap (s : Scheduler) (errors : list nat) : heap (deleteAll s errors) = heap s.
Proof.
  unfold deleteAll. revert s. induction errors as [|a errors IH]; intros s; cbn [fold_left];
    [reflexivity|].
  rewrite IH. destruct (heap s !! a); reflexivity.
Qed.

Lemma deleteAll_other (s : Scheduler) (errors : list nat) (k : string) :
  (forall a error, In a errors -> heap s !! a = Some error -> id error <> k) ->
  JsMap.get k (errorQueue (deleteAll s errors)) = JsMap.get k (errorQueue s).
Proof.
  unfold deleteAll. revert s. induction errors as [|a errors IH]; intros s Hid; cbn [fold_left];
    [reflexivity|].
  destruct (heap s !! a) as [error|] eqn:Ha.
  - rewrite IH.
    + cbn [deleteQueued errorQueue]. apply JsMap_get_delete_other.
      intros ->. exact (Hid a error (or_introl eq_refl) Ha eq_refl).
    + intros b eb Hb Heb. apply (Hid b eb); [right; exact Hb|exact Heb].
  - apply IH. intros b eb Hb Heb. apply (Hid b eb); [right; exact Hb|exact Heb].
Qed.

Lemma deleteAll_none (s : Scheduler) (errors : list nat) (k : string) :
  JsMap.get k (errorQueue s) = None -> JsMap.get k (errorQueue (deleteAll s errors)) = None.
Proof.
  unfold deleteAll. revert s. induction errors as [|a errors IH]; intros s Hnone;
    cbn [fold_left]; [exact Hnone|].
  apply IH. destruct (heap s !! a); [|exact Hnone].
  cbn [deleteQueued errorQueue]. apply JsMap_get_delete_none. exact Hnone.
Qed.

Lemma deleteAll_gone (s : Scheduler) (errors : list nat) (a : nat) (error : QueuedError) :
  List.NoDup (JsMap.keys (errorQueue s)) ->
  In a errors -> heap s !! a = Some error ->
  JsMap.get (id error) (errorQueue (deleteAll s errors)) = None.
Proof.
  revert s. induction errors as [|b errors IH]; intros s Hnd Hin Ha; [destruct Hin|].
  change (deleteAll s (b :: errors))
    with (deleteAll (match heap s !! b with
                     | Some e => deleteQueued s (id e)
                     | None => s
                     end) errors).
  destruct Hin as [->|Hin].
  - rewrite Ha. apply deleteAll_none. cbn [deleteQueued errorQueue].
    apply JsMap_get_delete_same. exact Hnd.
  - destruct (heap s !! b) as [eb|]; [|apply IH; assumption].
    apply IH; [|exact Hin|exact Ha].
    cbn [deleteQueued errorQueue]. apply JsMap_NoDup_delete. exact Hnd.
Qed.

(** Two entries of the queue whose objects have the same id are the same
    entry. *)
Lemma queued_ids_inj (s : Scheduler) (ka kb : string) (a b : nat) (qa qb : QueuedError) :
  wellFormed s ->
  In (ka, a) (errorQueue s) -> In (kb, b) (errorQueue s) ->
  heap s !! a = Some qa -> heap s !! b = Some qb -> id qa = id qb -> a = b.
Proof.
  intros [Hkeys Hkeyed] Hka Hkb Hqa Hqb Hsame.
  destruct (Hkeyed ka a Hka) as (qa' & Hqa' & Eka).
  destruct (Hkeyed kb b Hkb) as (qb' & Hqb' & Ekb).
  assert (Hk : kb = ka) by congruence. rewrite Hk in Hkb.
  pose proof (JsMap_In_get ka a _ Hkeys Hka). pose proof (JsMap_In_get ka b _ Hkeys Hkb).
  congruence.
Qed.

(** A window that dispatches a batch of queued objects and deletes them
    afterwards: the batch leaves the queue whatever the dispatch did, the
    rest of the queue stays, and a failed dispatch leaves each object of
    the batch with one more retry. *)
Lemma dispatch_then_delete (s : Scheduler) (batch : list nat) (batchType : string)
    (outcome : DispatchOutcome) :
  wellFormed s ->
  List.NoDup batch ->
  (forall a, In a batch -> exists k, In (k, a) (errorQueue s)) ->
  let s' := deleteAll (processBatchWithClaude s batch batchType outcome) batch in
  (forall a q, In a batch -> heap s !! a = Some q ->
     JsMap.get (id q) (errorQueue s') = None /\
     heap s' !! a = Some (match outcome with Completed => q | Raised => bumpRetry q end)) /\
  (forall k a q, In (k, a) (errorQueue s) -> heap s !! a = Some q -> ~ In a batch ->
     JsMap.get k (errorQueue s') = Some a /\ heap s' !! a = Some q).
Proof.
  intros Hwf Hnd Hqueued. cbn zeta.
  set (s1 := processBatchWithClaude s batch batchType outcome).
  assert (Hwf1 : wellFormed s1) by (apply wellFormed_processBatchWithClaude; exact Hwf).
  assert (Hqueue1 : errorQueue s1 = errorQueue s).
  { subst s1. destruct outcome; cbn [processBatchWithClaude]; [reflexivity|].
    apply fold_requeue_queued; assumption. }
  assert (Hid1 : forall b, option_map id (heap s1 !! b) = option_map id (heap s !! b)).
  { intros b. subst s1. destruct outcome; cbn [processBatchWithClaude]; [reflexivity|].
    apply fold_requeue_id. }
  assert (Hdist : distinctIds s batch).
  { intros a b qa qb Ha Hb Hqa Hqb Hsame.
    destruct (Hqueued a Ha) as (ka & Hka). destruct (Hqueued b Hb) as (kb & Hkb).
    exact (queued_ids_inj s ka kb a b qa qb Hwf Hka Hkb Hqa Hqb Hsame). }
  split.
  - intros a q Ha Hq.
    assert (Hheap1 : heap s1 !! a =
                     Some (match outcome with Completed => q | Raised => bumpRetry q end)).
    { subst s1. destruct outcome; cbn [processBatchWithClaude]; [exact Hq|].
      apply (fold_requeue_batch batch s a q Hnd Hdist Ha Hq). }
    split.
    + replace (id q)
        with (id (match outcome with Completed => q | Raised => bumpRetry q end))
        by (destruct outcome; reflexivity).
      apply (deleteAll_gone s1 batch a _ (proj1 Hwf1) Ha Hheap1).
    + rewrite deleteAll_heap. exact Hheap1.
  - intros k a q Hin Hq Hnotin. split.
    + rewrite deleteAll_other.
      * rewrite Hqueue1. destruct Hwf as [Hkeys _]. apply JsMap_In_get; assumption.
      * intros b eb Hb Heb Hsame.
        pose proof (Hid1 b) as Eb. rewrite Heb in Eb.
        destruct (heap s !! b) as [eb0|] eqn:Hb0; [|discriminate].
        cbn in Eb. inversion Eb as [Eid].
        destruct (Hqueued b Hb) as (kb & Hkb).
        destruct (proj2 Hwf k a Hin) as (qa & Hqa & Eka).
        assert (q = qa) by congruence. subst qa.
        assert (a = b)
          by (apply (queued_ids_inj s k kb a b q eb0 Hwf Hin Hkb Hq Hb0); congruence).
        subst b. contradiction.
    + rewrite deleteAll_heap. subst s1.
      destruct outcome; cbn [processBatchWithClaude]; [exact Hq|].
      rewrite fold_requeue_heap_other by exact Hnotin. exact Hq.
Qed.

Lemma queued_batch (s : Scheduler) (p : nat * QueuedError -> bool) (n : nat) :
  wellFormed s ->
  let batch := map fst (firstn n (List.filter p (queuedErrors s))) in
  List.NoDup batch /\
  (length batch <= n)%nat /\
  (forall a, In a batch ->
     exists k q, In (k, a) (errorQueue s) /\ heap s !! a = Some q /\ p (a, q) = true).
Proof.
  intros Hwf. cbn zeta. split; [|split].
  - rewrite <- firstn_map. apply firstn_NoDup. apply NoDup_map_filter.
    apply NoDup_queuedErrors. apply wellFormed_values. exact Hwf.
  - rewrite length_map. apply firstn_le_length.
  - intros a Ha. apply in_map_iff in Ha. destruct Ha as ([a' q] & E & Hin). cbn in E. subst a'.
    apply firstn_In in Hin. apply List.filter_In in Hin. destruct Hin as [Hin Hp].
    apply In_queuedErrors in Hin. destruct Hin as [Hval Hq].
    unfold JsMap.values in Hval. apply in_map_iff in Hval.
    destruct Hval as ([k a'] & E & Hk). cbn in E. subst a'.
    exists k, q. split; [exact Hk|]. split; [exact Hq|exact Hp].
Qed.

(** X14. The cross-repository window and the weekly synthesis lose what
    they dispatch.  Each takes the first 6 (or 5) queued errors that
    mention a shared component (or are critical or high), hands them to
    the gateway and deletes them from the queue afterwards.  So after the
    window no error of the batch is queued, whether the dispatch
    completed or raised; after a dispatch that raised, each has one more
    retry and is queued no more, whatever its retry count.  Every other
    queued error stays queued and unchanged. *)
Theorem windows_drop_their_batch (s : Scheduler) (remainingBudget : Q) (gateway : Gateway) :
  wellFormed s ->
  (let batch := crossRepoBatch s in
   let s' := processCrossRepoAnalysis s remainingBudget gateway in
   (length batch <= 6)%nat /\
   (forall a q, In a batch -> heap s !! a = Some q ->
      hasCrossRepoRelevance q = true /\
      JsMap.get (id q) (errorQueue s') = None /\
      heap s' !! a =
        Some (match gateway batch with Completed => q | Raised => bumpRetry q end)) /\
   (forall k a q, In (k, a) (errorQueue s) -> heap s !! a = Some q -> ~ In a batch ->
      JsMap.get k (errorQueue s') = Some a /\ heap s' !! a = Some q)) /\
  (let batch := synthesisBatch s in
   let s' := processWeeklySynthesis s remainingBudget gateway in
   (length batch <= 5)%nat /\
   (forall a q, In a batch -> heap s !! a = Some q ->
      isHighImpact q = true /\
      JsMap.get (id q) (errorQueue s') = None /\
      heap s' !! a =
        Some (match gateway batch with Completed => q | Raised => bumpRetry q end)) /\
   (forall k a q, In (k, a) (errorQueue s) -> heap s !! a = Some q -> ~ In a batch ->
      JsMap.get k (errorQueue s') = Some a /\ heap s' !! a = Some q)).
Proof.
  intros Hwf. pose proof Hwf as [Hkeys Hkeyed]. split; cbn zeta.
  - destruct (queued_batch s (fun e => hasCrossRepoRelevance (snd e)) 6 Hwf)
      as (Hnd & Hlen & Hmem).
    fold (crossRepoBatch s) in Hnd, Hlen, Hmem.
    unfold processCrossRepoAnalysis. fold (crossRepoBatch s).
    split; [exact Hlen|].
    destruct (crossRepoBatch s) as [|a0 batch0] eqn:Ebatch.
    + split; [intros a q []|].
      intros k a q Hin Hq _. split; [apply JsMap_In_get; assumption|exact Hq].
    + rewrite <- Ebatch in *.
      destruct (dispatch_then_delete s (crossRepoBatch s) "cross_repo_analysis"
                  (gateway (crossRepoBatch s)) Hwf Hnd) as [Hgone Hstay].
      { intros a Ha. destruct (Hmem a Ha) as (k & q & Hk & _). exists k. exact Hk. }
      split; [|exact Hstay].
      intros a q Ha Hq. destruct (Hmem a Ha) as (k & q' & _ & Hq' & Hp).
      assert (q' = q) by congruence. subst q'.
      split; [exact Hp|]. apply Hgone; assumption.
  - destruct (queued_batch s (fun e => isHighImpact (snd e)) 5 Hwf) as (Hnd & Hlen & Hmem).
    fold (synthesisBatch s) in Hnd, Hlen, Hmem.
    unfold processWeeklySynthesis. fold (synthesisBatch s).
    split; [exact Hlen|].
    destruct (synthesisBatch s) as [|a0 batch0] eqn:Ebatch.
    + split; [intros a q []|].
      intros k a q Hin Hq _. split; [apply JsMap_In_get; assumption|exact Hq].
    + rewrite <- Ebatch in *.
      destruct (dispatch_then_delete s (synthesisBatch s) "weekly_synthesis"
                  (gateway (synthesisBatch s)) Hwf Hnd) as [Hgone Hstay].
      { intros a Ha. destruct (Hmem a Ha) as (k & q & Hk & _). exists k. exact Hk. }
      split; [|exact Hstay].
      intros a q Ha Hq. destruct (Hmem a Ha) as (k & q' & _ & Hq' & Hp).
      assert (q' = q) by congruence. subst q'.
      split; [exact Hp|]. apply Hgone; assumption.
Qed.

Lemma windows_drop_their_batch_witness :
  let s' :=
    processCrossRepoAnalysis Fixtures.oneCritical dailyBudgetLimit Fixtures.failingGateway in
  JsMap.get "error_cHJvZHVjdGlv" (errorQueue s') = None /\
  heap s' !! 0%nat = Some (bumpRetry Fixtures.productionItem).
Proof.
  destruct (windows_drop_their_batch Fixtures.oneCritical dailyBudgetLimit
              Fixtures.failingGateway wellFormed_oneCritical) as [(_ & Hgone & _) _].
  destruct (Hgone 0%nat Fixtures.productionItem) as (_ & Hqueue & Hheap).
  - vm_compute. left. reflexivity.
  - reflexivity.
  - split; [exact Hqueue|exact Hheap].
Defined.

(** *** The critical lane *)

Lemma criticalLoop_other (budget : Q) (gateway : Gateway) (k : string) (a : nat)
    (errors : list nat) (processedCost : Q) (s : Scheduler) :
  ~ In a errors ->
  (forall b e, In b errors -> heap s !! b = Some e -> id e <> k) ->
  JsMap.get k (errorQueue (criticalLoop budget errors processedCost gateway s)) =
    JsMap.get k (errorQueue s) /\
  heap (criticalLoop budget errors processedCost gateway s) !! a = heap s !! a.
Proof.
  revert processedCost s. induction errors as [|b errors IH]; intros processedCost s Hnotin Hid;
    cbn [criticalLoop]; [split; reflexivity|].
  assert (Hrest : ~ In a errors) by (intros Hin; apply Hnotin; right; exact Hin).
  assert (Hne : b <> a) by (intros ->; apply Hnotin; left; reflexivity).
  assert (Hid' : forall b' e, In b' errors -> heap s !! b' = Some e -> id e <> k)
    by (intros b' e Hb'; apply Hid; right; exact Hb').
  destruct (heap s !! b) as [error|] eqn:Hb; [|apply IH; assumption].
  destruct (Qle_bool (costWith processedCost error) budget); [|apply IH; assumption].
  set (s1 := processBatchWithClaude s [b] "critical_error" (gateway [b])).
  assert (Hqueue1 : JsMap.get k (errorQueue s1) = JsMap.get k (errorQueue s)).
  { subst s1. destruct (gateway [b]); cbn [processBatchWithClaude fold_left]; [reflexivity|].
    apply requeue_queue_other. intros q Hq. apply (Hid b q); [left; reflexivity|exact Hq]. }
  assert (Hheap1 : heap s1 !! a = heap s !! a).
  { subst s1. destruct (gateway [b]); cbn [processBatchWithClaude fold_left]; [reflexivity|].
    apply requeue_heap_other. exact Hne. }
  assert (Hids1 : forall b', option_map id (heap s1 !! b') = option_map id (heap s !! b')).
  { intros b'. subst s1.
    destruct (gateway [b]); cbn [processBatchWithClaude fold_left]; [reflexivity|].
    apply requeue_id. }
  destruct (IH (costWith processedCost error) (deleteQueued s1 (id error)) Hrest)
    as [Hq Hh].
  - intros b' e Hb' He. cbn [deleteQueued heap] in He.
    pose proof (Hids1 b') as E. rewrite He in E.
    destruct (heap s !! b') as [e0|] eqn:He0; [|discriminate].
    cbn in E. inversion E as [Eid]. rewrite Eid. apply (Hid' b' e0 Hb' He0).
  - rewrite Hq, Hh. cbn [deleteQueued heap errorQueue]. split; [|exact Hheap1].
    rewrite JsMap_get_delete_other; [exact Hqueue1|].
    intros ->. exact (Hid b error (or_introl eq_refl) Hb eq_refl).
Qed.

Lemma filter_none {A} (p : A -> bool) (l : list A) :
  (forall x, In x l -> p x = false) -> List.filter p l = [].
Proof.
  induction l as [|x l IH]; intros Hall; cbn; [reflexivity|].
  rewrite (Hall x (or_introl eq_refl)). apply IH. intros y Hy. apply Hall. right. exact Hy.
Qed.

(** X15. The critical lane touches critical errors only: after
    [processCriticalErrors], whatever the budget and whatever the gateway
    does, every queued error whose priority is not critical is still
    queued under its id and unchanged; and when no critical error is
    queued the scheduler is left exactly as it was. *)
Theorem processCriticalErrors_leaves_the_rest (s : Scheduler) (remainingBudget : Q)
    (gateway : Gateway) :
  wellFormed s ->
  let s' := processCriticalErrors s remainingBudget gateway in
  (forall k a q,
     In (k, a) (errorQueue s) -> heap s !! a = Some q -> priority q <> critical ->
     JsMap.get k (errorQueue s') = Some a /\ heap s' !! a = Some q) /\
  ((forall a q, In (a, q) (queuedErrors s) -> priority q <> critical) -> s' = s).
Proof.
  intros Hwf. cbn zeta. unfold processCriticalErrors.
  set (before := fun a b : nat * QueuedError => (queued_at (snd a) <? queued_at (snd b))%Z).
  set (criticalErrors := Js.sortBy before (List.filter (fun e => isCritical (snd e))
                                             (queuedErrors s))).
  assert (Hmem : forall b, In b (map fst criticalErrors) ->
                   exists kb e, In (kb, b) (errorQueue s) /\ heap s !! b = Some e /\
                                priority e = critical).
  { intros b Hb. apply in_map_iff in Hb. destruct Hb as ([b' e] & E & Hin). cbn in E. subst b'.
    apply (Permutation_in _ (sortBy_perm _ _)) in Hin. apply List.filter_In in Hin.
    destruct Hin as [Hin Hcrit]. apply In_queuedErrors in Hin. destruct Hin as [Hval He].
    unfold JsMap.values in Hval. apply in_map_iff in Hval.
    destruct Hval as ([kb b'] & E & Hkb). cbn in E. subst b'.
    exists kb, e. split; [exact Hkb|]. split; [exact He|].
    cbn in Hcrit. unfold isCritical in Hcrit. destruct (priority e); congruence. }
  split.
  - intros k a q Hin Hq Hpriority.
    destruct (criticalLoop_other (Qmin (Double.nearest remainingBudget) (Double.nearest 0.10)) gateway k a
                (map fst criticalErrors) 0 s) as [Hqueue Hheap].
    + intros Ha. destruct (Hmem a Ha) as (ka & e & _ & He & Hcrit). congruence.
    + intros b e Hb He Hsame. destruct (Hmem b Hb) as (kb & e' & Hkb & He' & Hcrit).
      assert (e' = e) by congruence. subst e'.
      assert (b = a)
        by (apply (queued_ids_inj s kb k b a e q Hwf Hkb Hin He Hq);
            destruct (proj2 Hwf k a Hin) as (q' & Hq' & Ek); congruence).
      subst b. congruence.
    + rewrite Hqueue, Hheap. split; [|exact Hq].
      apply JsMap_In_get; [apply Hwf|exact Hin].
  - intros Hnone. subst criticalErrors.
    rewrite filter_none; [reflexivity|].
    intros [a q] Hin. cbn. unfold isCritical. specialize (Hnone a q Hin).
    destruct (priority q); congruence.
Qed.

Lemma processCriticalErrors_leaves_the_rest_witness :
  let s := snd (queueForClaudeAnalysis Fixtures.oneCritical Fixtures.buildErrorA 1 1) in
  let s' := processCriticalErrors s dailyBudgetLimit Fixtures.failingGateway in
  JsMap.keys (errorQueue s) = ["error_cHJvZHVjdGlv"; "error_QnVpbGQgZmFp"] /\
  JsMap.get "error_QnVpbGQgZmFp" (errorQueue s') = Some 1%nat /\
  option_map retry_count (heap s' !! 1%nat) = Some 0%nat.
Proof.
  cbv zeta. split; [reflexivity|].
  destruct (processCriticalErrors_leaves_the_rest
              (snd (queueForClaudeAnalysis Fixtures.oneCritical Fixtures.buildErrorA 1 1))
              dailyBudgetLimit Fixtures.failingGateway
              (wellFormed_queueForClaudeAnalysis _ _ _ _ wellFormed_oneCritical))
    as [Hrest _].
  destruct (Hrest "error_QnVpbGQgZmFp" 1%nat
              {| id := "error_QnVpbGQgZmFp";
                 error_context := Fixtures.buildErrorA;
                 priority := high;
                 queued_at := 1;
                 estimated_cost := Double.nearest 0.05;
                 retry_count := 0 |}) as [Hqueue Hheap].
  - vm_compute. right. left. reflexivity.
  - reflexivity.
  - discriminate.
  - split; [exact Hqueue|]. rewrite Hheap. reflexivity.
Defined.

(** *** The weekend batch *)

Lemma selectWithinBudget_cost (budget : Q) (errors : list (nat * QueuedError)) (total : Q)
    (s0 s : Scheduler) :
  (forall a q, In (a, q) errors -> heap s0 !! a = Some q) ->
  let batch := fst (selectWithinBudget budget errors total s) in
  batch = [] \/ (runningCost s0 batch total <= budget)%Q.
Proof.
  revert total s. induction errors as [|[a q] errors IH]; intros total s Hheap; cbn zeta;
    [left; reflexivity|].
  cbn [selectWithinBudget].
  assert (Hheap' : forall b qb, In (b, qb) errors -> heap s0 !! b = Some qb)
    by (intros b qb Hb; apply Hheap; right; exact Hb).
  destruct (Qle_bool (costWith total q) budget) eqn:Efit.
  - specialize (IH (costWith total q) (deleteQueued s (id q)) Hheap').
    destruct (selectWithinBudget budget errors (costWith total q)
                (deleteQueued s (id q))) as [batch s'].
    cbn [fst] in *. right. unfold runningCost. cbn [fold_left].
    rewrite (Hheap a q (or_introl eq_refl)). fold (runningCost s0 batch (costWith total q)).
    apply Qle_bool_iff in Efit.
    destruct IH as [->|IH]; [exact Efit|exact IH].
  - apply IH. exact Hheap'.
Qed.

(** Three 64ths are a double below the double 0.05, and so are their
    multiples; nine of them are above the double 0.40. *)
Lemma runningCost_floor (s : Scheduler) (batch : list nat) (total : Q) (k : nat) :
  (forall a, In a batch ->
     exists q, heap s !! a = Some q /\
               (Double.nearest 0.05 <= Double.nearest (estimated_cost q))%Q) ->
  (k <= 9)%nat ->
  (inject_Z (Z.of_nat k) * (3 # 64) <= total)%Q ->
  (inject_Z (Z.of_nat (Nat.min (k + length batch) 9)) * (3 # 64) <=
   runningCost s batch total)%Q.
Proof.
  revert total k. induction batch as [|a batch IH]; intros total k Hall Hk Htotal.
  { cbn [length runningCost fold_left]. rewrite Nat.add_0_r, Nat.min_l by exact Hk.
    exact Htotal. }
  unfold runningCost. cbn [fold_left length].
  destruct (Hall a (or_introl eq_refl)) as (q & Hq & Hcost). rewrite Hq.
  fold (runningCost s batch (costWith total q)).
  replace (Nat.min (k + S (length batch)) 9)
    with (Nat.min (Nat.min (S k) 9 + length batch) 9) by lia.
  apply IH; [intros b Hb; apply Hall; right; exact Hb|lia|].
  unfold costWith, Double.add.
  assert (Hfive : (3 # 64 <= Double.nearest 0.05)%Q)
    by (apply Qle_bool_iff; vm_compute; reflexivity).
  assert (Hle : (inject_Z (Z.of_nat (Nat.min (S k) 9)) <= inject_Z (Z.of_nat k) + 1)%Q).
  { change 1%Q with (inject_Z 1). rewrite <- inject_Z_plus, <- Zle_Qle. lia. }
  apply nearest_ge; [|lra].
  exists (Z.of_nat (Nat.min (S k) 9) * 3)%Z, (-6)%Z.
  split; [lia|]. split; [lia|]. rewrite inject_Z_mult.
  change (2 ^ (-6))%Q with (1 # 64)%Q. change (3 # 64)%Q with (inject_Z 3 * (1 # 64))%Q.
  ring.
Qed.

(** X16. The weekend batch keeps to its budget: the total that
    [processWeekendErrorBatch] holds after it has added up, in doubles,
    the estimated costs of the errors it takes out of the queue is no more
    than the smaller of the remaining budget and 0.40 dollars.  Every one
    of these errors was queued on a Saturday or Sunday of the host's
    calendar and has left the queue; and when every queued error is
    estimated at 0.05 dollars or more, as [estimateProcessingCost] does,
    the batch has at most 8 errors. *)
Theorem selectWeekendBatch_within_budget `{Host} (s : Scheduler) (remainingBudget : Q) :
  wellFormed s ->
  let batch := fst (selectWeekendBatch s remainingBudget) in
  let s' := snd (selectWeekendBatch s remainingBudget) in
  let budgetForBatch := Qmin (Double.nearest remainingBudget) (Double.nearest 0.40) in
  (batch = [] \/ (runningCost s batch 0 <= budgetForBatch)%Q) /\
  (forall a, In a batch ->
     exists q,
       In (a, q) (queuedErrors s) /\ isWeekendError q = true /\
       JsMap.get (id q) (errorQueue s') = None) /\
  ((forall a q,
      In (a, q) (queuedErrors s) ->
      (Double.nearest 0.05 <= Double.nearest (estimated_cost q))%Q) ->
   (length batch <= 8)%nat).
Proof.
  intros Hwf. cbn zeta.
  destruct (weekendErrors_facts s Hwf) as [Hsub Hnd].
  unfold selectWeekendBatch.
  set (weekendErrors := Js.sortBy _ _) in *.
  set (budget := Qmin _ _).
  assert (Hweekend : forall a q, In (a, q) weekendErrors -> isWeekendError q = true).
  { intros a q Hin. subst weekendErrors.
    apply (Permutation_in _ (sortBy_perm _ _)) in Hin. apply List.filter_In in Hin. tauto. }
  assert (Hheap : forall a q, In (a, q) weekendErrors -> heap s !! a = Some q).
  { intros a q Hin. apply Hsub in Hin. apply In_queuedErrors in Hin. tauto. }
  assert (Hids : forall b qb c qc, In (b, qb) weekendErrors -> In (c, qc) weekendErrors ->
                                   id qb = id qc -> b = c).
  { intros b qb c qc Hb Hc. apply (wellFormed_ids s b c qb qc Hwf); apply Hsub; assumption. }
  pose proof (selectWithinBudget_spec budget weekendErrors 0 s (proj1 Hwf) Hnd Hids) as Hsel.
  pose proof (selectWithinBudget_cost budget weekendErrors 0 s s Hheap) as Hcost.
  destruct (selectWithinBudget budget weekendErrors 0 s) as [batch s1].
  cbn [fst snd] in *. destruct Hsel as (_ & Hbsub & _ & Hgone & _).
  assert (Hobj : forall a, In a batch -> exists q, In (a, q) weekendErrors).
  { intros a Ha. apply Hbsub in Ha. apply in_map_iff in Ha.
    destruct Ha as ([a' q] & E & Hin). cbn in E. subst a'. exists q. exact Hin. }
  split; [exact Hcost|split].
  - intros a Ha. destruct (Hobj a Ha) as (q & Hin). exists q.
    split; [apply Hsub; exact Hin|]. split; [apply (Hweekend a q Hin)|].
    apply (Hgone a q Hin Ha).
  - intros Hfloor.
    destruct Hcost as [->|Hcost]; [cbn; lia|].
    assert (Hsum : (inject_Z (Z.of_nat (Nat.min (0 + length batch) 9)) * (3 # 64) <=
                    runningCost s batch 0)%Q).
    { apply runningCost_floor; [|lia|apply Qle_bool_iff; reflexivity].
      intros a Ha. destruct (Hobj a Ha) as (q & Hin).
      exists q. split; [apply Hheap; exact Hin|]. apply (Hfloor a q). apply Hsub. exact Hin. }
    assert (Hcap : (budget <= Double.nearest 0.40)%Q) by (subst budget; apply Q.le_min_r).
    assert (Hforty : (Double.nearest 0.40 < 27 # 64)%Q) by (vm_compute; reflexivity).
    assert (Hn : (inject_Z (Z.of_nat (Nat.min (0 + length batch) 9)) < inject_Z 9)%Q)
      by (change (inject_Z 9) with 9%Q; lra).
    rewrite <- Zlt_Qlt in Hn. lia.
Qed.

Lemma wellFormed_weekendSix : wellFormed Fixtures.weekendSix.
Proof.
  unfold Fixtures.weekendSix, Fixtures.weekendErrors. cbn [fold_left].
  repeat apply wellFormed_queueForClaudeAnalysis. apply wellFormed_newScheduler.
Qed.

(** Six weekend errors whose estimates add up, as fractions, to less than
    the 0.40 dollars of the window: the running double passes the budget
    at the sixth, and the window takes five. *)
Lemma selectWeekendBatch_within_budget_witness :
  let s := Fixtures.weekendSix in
  let batch := fst (@selectWeekendBatch Fixtures.exampleHost s 0.58) in
  map estimated_cost (heap s) =
    [Double.nearest 0.05; Double.add (Double.nearest 0.05) (Double.nearest 0.01);
     Double.nearest 0.05; Double.nearest 0.08; Double.nearest 0.08; Double.nearest 0.08] /\
  (fold_right Qplus 0 (map estimated_cost (heap s)) <= Double.nearest 0.40)%Q /\
  batch = [0; 1; 2; 3; 4]%nat /\
  (runningCost s batch 0 <= Qmin (Double.nearest 0.58) (Double.nearest 0.40))%Q /\
  (length batch <= 8)%nat.
Proof.
  destruct (@selectWeekendBatch_within_budget Fixtures.exampleHost Fixtures.weekendSix 0.58
              wellFormed_weekendSix) as ([Hempty|Hcost] & _ & Hlength).
  - vm_compute in Hempty. discriminate.
  - split; [vm_compute; reflexivity|].
    split; [apply Qle_bool_iff; vm_compute; reflexivity|].
    split; [vm_compute; reflexivity|].
    split; [exact Hcost|].
    apply Hlength. intros a q Hin. vm_compute in Hin.
    repeat (destruct Hin as [Hin|Hin];
            [injection Hin as <- <-; apply Qle_bool_iff; vm_compute; reflexivity|]).
    destruct Hin.
Defined.

(** *** Monitoring *)

Import QueueReport.

Lemma countPriority_total (counts : PriorityCounts) (p : Priority) :
  (n_critical (countPriority counts p) + n_high (countPriority counts p) +
   n_medium (countPriority counts p) + n_low (countPriority counts p) =
   S (n_critical counts + n_high counts + n_medium counts + n_low counts))%nat.
Proof. destruct p; cbn; lia. Qed.

Lemma fold_countPriority_total (errors : list QueuedError) (counts : PriorityCounts) :
  let final :=
    fold_left (fun counts error => countPriority counts (priority error)) errors counts in
  (n_critical final + n_high final + n_medium final + n_low final =
   n_critical counts + n_high counts + n_medium counts + n_low counts + length errors)%nat.
Proof.
  revert counts. induction errors as [|e errors IH]; intros counts; cbn zeta; cbn [fold_left];
    [cbn; lia|].
  specialize (IH (countPriority counts (priority e))). cbn zeta in IH. rewrite IH.
  rewrite countPriority_total. cbn [length]. lia.
Qed.

Lemma fold_countPriority_critical (errors : list QueuedError) (counts : PriorityCounts) :
  n_critical
    (fold_left (fun counts error => countPriority counts (priority error)) errors counts) =
  (n_critical counts + length (List.filter isCritical errors))%nat.
Proof.
  revert counts. induction errors as [|e errors IH]; intros counts; cbn [fold_left List.filter];
    [cbn; lia|].
  rewrite IH. unfold isCritical at 2. destruct (priority e); cbn; lia.
Qed.

Lemma fold_older (errors : list QueuedError) (first : QueuedError) :
  let oldest := fold_left older errors first in
  (oldest = first \/ In oldest errors) /\
  (queued_at oldest <= queued_at first)%Z /\
  (forall e, In e errors -> (queued_at oldest <= queued_at e)%Z).
Proof.
  revert first. induction errors as [|e errors IH]; intros first; cbn zeta; cbn [fold_left].
  - split; [left; reflexivity|]. split; [lia|intros e []].
  - destruct (IH (older first e)) as (Hin & Hle & Hall). cbn zeta in *.
    assert (Hstep : (queued_at (older first e) <= queued_at first)%Z /\
                    (queued_at (older first e) <= queued_at e)%Z /\
                    (older first e = first \/ older first e = e)).
    { unfold older. destruct (Z.ltb_spec (queued_at e) (queued_at first));
        repeat split; try lia; auto. }
    destruct Hstep as (H1 & H2 & H3).
    split; [|split].
    + destruct Hin as [->|Hin]; [|right; right; exact Hin].
      destruct H3 as [->| ->]; [left; reflexivity|right; left; reflexivity].
    + lia.
    + intros e' [<-|He']; [lia|apply Hall; exact He'].
Qed.

(** X17. The figures of [getQueueStatus]: the four priority counters add
    up to the number of queued errors, and the critical counter is the
    number of critical ones; an empty queue is reported as "No queued
    errors"; otherwise the age reported is that of a queued error that no
    other queued error precedes in time, in whole minutes, rounded; and
    the processing time is the estimate of a medium error at the position
    the queue is long. *)
Theorem getQueueStatus_figures (s : Scheduler) (dateNow : Z) :
  let status := getQueueStatus s dateNow in
  let queued := map snd (queuedErrors s) in
  total_queued status = length queued /\
  (n_critical (by_priority status) + n_high (by_priority status) +
   n_medium (by_priority status) + n_low (by_priority status) = total_queued status)%nat /\
  n_critical (by_priority status) = length (List.filter isCritical queued) /\
  (queued = [] -> oldest_error_age status = "No queued errors") /\
  (queued <> [] ->
   exists oldest,
     In oldest queued /\
     (forall e, In e queued -> (queued_at oldest <= queued_at e)%Z) /\
     oldest_error_age status =
       Str.decimal (Js.Math_round (inject_Z (dateNow - queued_at oldest) / (1000 * 60))%Q)
       +:+ " minutes") /\
  estimated_processing_time status = estimateProcessingTime (length queued) medium.
Proof.
  cbn zeta. unfold getQueueStatus.
  cbn [total_queued by_priority oldest_error_age estimated_processing_time].
  set (queued := map snd (queuedErrors s)).
  split; [reflexivity|]. split; [|split; [|split; [|split; [|reflexivity]]]].
  - pose proof (fold_countPriority_total queued
                  {| n_critical := 0; n_high := 0; n_medium := 0; n_low := 0 |}) as Htotal.
    cbn zeta in Htotal. rewrite Htotal. cbn. lia.
  - rewrite fold_countPriority_critical. reflexivity.
  - intros ->. reflexivity.
  - intros Hne. destruct queued as [|first rest] eqn:Equeued; [contradiction|].
    cbn [oldestError].
    destruct (fold_older (first :: rest) first) as (Hin & _ & Hall). cbn zeta in *.
    exists (fold_left older (first :: rest) first).
    split; [|split; [exact Hall|reflexivity]].
    destruct Hin as [->|Hin]; [left; reflexivity|exact Hin].
Qed.

(* ===================================================================== *)
(** ** The classifier's memo, library and batches *)
(* ===================================================================== *)

Import LocalPatternEngine EngineFacts LibraryFacts.

(** X18. The memo answers a repeated question: a second [matchErrorPattern]
    call with the same error context, or with any context that has the
    same signature (the hash of message, stack trace and repository
    context), returns the match of the first call and leaves the engine as
    the first call left it.  The first call changes nothing but the memo
    entry of that signature. *)
Theorem matchErrorPattern_repeat `{Host} (engine : Engine) (errorContext : ErrorContext) :
  let first := matchErrorPattern engine errorContext in
  (forall again,
     createErrorSignature again = createErrorSignature errorContext ->
     matchErrorPattern (snd first) again = (fst first, snd first)) /\
  patternMap (snd first) = patternMap engine /\
  signatureCache (snd first) !! createErrorSignature errorContext = Some (fst first) /\
  (forall k,
     k <> createErrorSignature errorContext ->
     signatureCache (snd first) !! k = signatureCache engine !! k).
Proof.
  cbn zeta.
  destruct (signatureCache engine !! createErrorSignature errorContext) as [cached|] eqn:Hmemo.
  - rewrite (matchErrorPattern_hit engine errorContext cached Hmemo). cbn [fst snd].
    split; [|split; [reflexivity|split; [exact Hmemo|reflexivity]]].
    intros again Hsame. apply matchErrorPattern_hit. rewrite Hsame. exact Hmemo.
  - assert (Hfirst : matchErrorPattern engine errorContext =
                     (scanPatterns (patternMap engine) errorContext,
                      {| patternMap := patternMap engine;
                         signatureCache :=
                           <[createErrorSignature errorContext :=
                               scanPatterns (patternMap engine) errorContext]>
                             (signatureCache engine) |}))
      by (unfold matchErrorPattern; rewrite Hmemo; reflexivity).
    rewrite Hfirst. cbn [fst snd patternMap signatureCache].
    split; [|split; [reflexivity|split; [apply lookup_insert_eq|]]].
    + intros again Hsame. apply matchErrorPattern_hit. cbn [signatureCache].
      rewrite Hsame. apply lookup_insert_eq.
    + intros k Hne. apply lookup_insert_ne. congruence.
Qed.

(** *** Thresholds the confidence cannot reach *)

Lemma calculateConfidence_without_hint (p : ErrorPattern) (ctx : ErrorContext) (text : string) :
  contextHint p ctx = false -> (calculateConfidence p ctx text <= 90)%Z.
Proof.
  unfold contextHint, calculateConfidence. cbv zeta. intros Hhint.
  apply orb_false_iff in Hhint. destruct Hhint as [Hhint Hd].
  apply orb_false_iff in Hhint. destruct Hhint as [Hp Hj].
  rewrite Hp, Hj, Hd.
  destruct (Regex.test_i (signature p) text); destruct (Str.nonempty (repo_context ctx)); lia.
Qed.

Lemma qualifies_needs_hint (p : ErrorPattern) (ctx : ErrorContext) :
  (90 < confidence_threshold p)%Z -> qualifies ctx p = true -> contextHint p ctx = true.
Proof.
  intros Hhigh Hq. destruct (contextHint p ctx) eqn:Hhint; [reflexivity|].
  pose proof (calculateConfidence_without_hint p ctx (combinedTextOf ctx) Hhint) as Hle.
  unfold qualifies in Hq. apply andb_true_iff in Hq. destruct Hq as [_ Hq].
  apply Z.geb_le in Hq. lia.
Qed.

Lemma scanPatterns_result (patterns : list (string * ErrorPattern)) (ctx : ErrorContext) :
  scanPatterns patterns ctx = unmatched \/
  exists e,
    In e patterns /\ qualifies ctx (snd e) = true /\
    scanPatterns patterns ctx = matchOf ctx e.
Proof.
  destruct (scanPatterns_contract patterns ctx) as [[Hm _]|(e & Hin & Hq & Hm & _)];
    [left; exact Hm|right; exists e; auto].
Qed.

Lemma contextHint_needs_marker (p : ErrorPattern) (ctx : ErrorContext) :
  Str.includes (type p) "python" = false ->
  Str.includes (type p) "javascript" = false ->
  Str.includes (type p) "docker" = false ->
  contextHint p ctx = false.
Proof. intros Hp Hj Hd. unfold contextHint. cbv zeta. rewrite Hp, Hj, Hd. reflexivity. Qed.

(** X19. A threshold above 90 needs a context hint.  A pattern whose
    [confidence_threshold] is above 90 qualifies for an error only when
    the repository context names the platform of the pattern's type
    (python, node for javascript, docker), since a match without such a
    hint has confidence 90; so whatever [scanPatterns] returns is the
    sentinel or a pattern with a threshold of at most 90 or with a hint.
    In the shipped library this leaves five patterns that no error can
    match on a fresh engine, whatever its text and context: the two git
    patterns, the rate limit, the database connection and the file
    permission pattern. *)
Theorem thresholds_above_90_need_a_context_hint `{Host} :
  (forall p errorContext,
     (90 < confidence_threshold p)%Z -> qualifies errorContext p = true ->
     contextHint p errorContext = true) /\
  (forall patterns errorContext,
     scanPatterns patterns errorContext = unmatched \/
     exists e,
       In e patterns /\
       scanPatterns patterns errorContext = matchOf errorContext e /\
       ((confidence_threshold (snd e) <= 90)%Z \/ contextHint (snd e) errorContext = true)) /\
  (forall errorContext,
     existsb (String.eqb (pattern_id (fst (matchErrorPattern newEngine errorContext))))
       outOfReach = false).
Proof.
  split; [exact qualifies_needs_hint|]. split.
  - intros patterns ctx.
    destruct (scanPatterns_result patterns ctx) as [Hm|(e & Hin & Hq & Hm)];
      [left; exact Hm|right].
    exists e. split; [exact Hin|]. split; [exact Hm|].
    destruct (Z_le_gt_dec (confidence_threshold (snd e)) 90) as [Hle|Hgt]; [left; exact Hle|].
    right. apply qualifies_needs_hint; [lia|exact Hq].
  - intros ctx. rewrite matchErrorPattern_newEngine. cbn [fst].
    destruct (scanPatterns_result initializePatternDatabase ctx) as [->|(e & Hin & Hq & ->)];
      [reflexivity|].
    cbn [pattern_id matchOf].
    assert (Hlib :
      forallb (fun e : string * ErrorPattern =>
                 negb (existsb (String.eqb (fst e)) outOfReach) ||
                 ((90 <? confidence_threshold (snd e))%Z &&
                  negb (Str.includes (type (snd e)) "python") &&
                  negb (Str.includes (type (snd e)) "javascript") &&
                  negb (Str.includes (type (snd e)) "docker")))
        initializePatternDatabase = true) by (vm_compute; reflexivity).
    rewrite forallb_forall in Hlib. specialize (Hlib e Hin).
    destruct (existsb (String.eqb (fst e)) outOfReach); [|reflexivity].
    exfalso. cbn [negb orb] in Hlib.
    apply andb_true_iff in Hlib. destruct Hlib as [Hlib Hd].
    apply andb_true_iff in Hlib. destruct Hlib as [Hlib Hj].
    apply andb_true_iff in Hlib. destruct Hlib as [Hhigh Hp].
    apply Z.ltb_lt in Hhigh.
    apply negb_true_iff in Hp, Hj, Hd.
    pose proof (qualifies_needs_hint (snd e) ctx Hhigh Hq) as Hhint.
    rewrite (contextHint_needs_marker (snd e) ctx Hp Hj Hd) in Hhint. discriminate.
Qed.

(** *** Batches *)

Lemma matchErrorPattern_patternMap `{Host} (engine : Engine) (ctx : ErrorContext) :
  patternMap (snd (matchErrorPattern engine ctx)) = patternMap engine.
Proof.
  unfold matchErrorPattern.
  destruct (signatureCache engine !! createErrorSignature ctx); reflexivity.
Qed.

Lemma matchErrorPattern_memo_kept `{Host} (engine : Engine) (ctx : ErrorContext)
    (k : string) (m : ErrorMatch) :
  signatureCache engine !! k = Some m ->
  signatureCache (snd (matchErrorPattern engine ctx)) !! k = Some m.
Proof.
  intros Hk. unfold matchErrorPattern.
  destruct (signatureCache engine !! createErrorSignature ctx) eqn:Hmemo; cbn [snd signatureCache].
  - exact Hk.
  - rewrite lookup_insert_ne; [exact Hk|]. intros <-. congruence.
Qed.

Lemma lookupPattern_In (patterns : list (string * ErrorPattern)) (k : string) (p : ErrorPattern) :
  lookupPattern patterns k = Some p -> In (k, p) patterns.
Proof.
  induction patterns as [|[k' p'] r IH]; cbn [lookupPattern]; [discriminate|].
  destruct (String.eqb k k') eqn:E.
  - apply String.eqb_eq in E. intros [= <-]. subst k'. left. reflexivity.
  - intros Hr. right. apply IH. exact Hr.
Qed.

Lemma dedup_facts (l seen : list string) :
  List.NoDup (dedup seen l) /\
  forall x, In x (dedup seen l) <-> In x l /\ ~ In x seen.
Proof.
  revert seen. induction l as [|a l IH]; intros seen; cbn [dedup].
  - split; [constructor|]. intros x. cbn. tauto.
  - destruct (existsb (String.eqb a) seen) eqn:E.
    + destruct (IH seen) as [Hnd Hin]. split; [exact Hnd|].
      apply existsb_exists in E. destruct E as (y & Hy & Ey).
      apply String.eqb_eq in Ey. subst y.
      intros x. rewrite Hin. cbn [In]. split; [tauto|].
      intros [[<-|Hx] Hn]; [contradiction|tauto].
    + destruct (IH (a :: seen)) as [Hnd Hin].
      assert (Ha : ~ In a seen).
      { intros Ha. assert (existsb (String.eqb a) seen = true); [|congruence].
        apply existsb_exists. exists a. split; [exact Ha|apply String.eqb_refl]. }
      split.
      * constructor; [|exact Hnd]. rewrite Hin. cbn [In]. tauto.
      * intros x. cbn [In]. rewrite Hin. cbn [In].
        destruct (string_dec a x) as [->|Hne]; tauto.
Qed.

Lemma analyzeBatchLoop_facts `{Host} (errorBatch : list ErrorContext) (engine : Engine)
    (acc : LocalAnalysisResult) :
  let r := analyzeBatchLoop engine errorBatch acc in
  patternMap (snd r) = patternMap engine /\
  (forall k m, signatureCache engine !! k = Some m -> signatureCache (snd r) !! k = Some m) /\
  exists ps cs acts,
    patterns (fst r) = patterns acc ++ ps /\
    confidence_scores (fst r) = confidence_scores acc ++ cs /\
    recommended_actions (fst r) = recommended_actions acc ++ acts /\
    length ps = length cs /\
    (length cs <= length errorBatch)%nat /\
    List.Forall (fun c => (70 < c)%Z) cs /\
    List.Forall (fun p => In p (map snd (patternMap engine))) ps.
Proof.
  revert engine acc. induction errorBatch as [|error rest IH]; intros engine acc;
    cbn [analyzeBatchLoop].
  - cbn zeta. cbn [fst snd]. split; [reflexivity|]. split; [auto|].
    exists [], [], []. rewrite !app_nil_r. cbn [length].
    repeat (split; [first [reflexivity|lia|constructor]|]). constructor.
  - pose proof (matchErrorPattern_patternMap engine error) as Hmap.
    pose proof (matchErrorPattern_memo_kept engine error) as Hmemo.
    destruct (matchErrorPattern engine error) as [m engine'] eqn:Hmatch.
    cbn [snd] in Hmap, Hmemo.
    match goal with
    | |- context [analyzeBatchLoop engine' rest ?a] => set (acc' := a)
    end.
    specialize (IH engine' acc'). cbn zeta in IH |- *.
    destruct IH as (Hmap' & Hmemo' & ps & cs & acts & Hps & Hcs & Hacts & Hlen & Hle & Hgt & Hin).
    split; [congruence|]. split; [auto|].
    rewrite Hmap in Hin.
    subst acc'. destruct (confidence m >? 70)%Z eqn:Hconf;
      [destruct (lookupPattern (patternMap engine') (pattern_id m)) as [pattern|] eqn:Hlook|].
    + cbn [patterns confidence_scores recommended_actions] in Hps, Hcs, Hacts.
      exists (pattern :: ps), (confidence m :: cs), (suggested_actions m ++ acts).
      rewrite Hps, Hcs, Hacts, <- !app_assoc. cbn [app length].
      repeat (split; [first [reflexivity|lia]|]). split.
      * constructor; [|exact Hgt]. apply Z.gtb_lt in Hconf. lia.
      * constructor; [|exact Hin]. rewrite <- Hmap.
        apply lookupPattern_In in Hlook.
        change pattern with (snd (pattern_id m, pattern)). apply in_map. exact Hlook.
    + exists ps, cs, acts. cbn [length]. repeat (split; [first [assumption|lia]|]). exact Hin.
    + exists ps, cs, acts. cbn [length]. repeat (split; [first [assumption|lia]|]). exact Hin.
Qed.

(** X20. What a local batch analysis returns: [analyzeBatchLocally] lists
    one pattern and one confidence score for every error it recognised,
    so both lists have the same length, at most the size of the batch;
    every listed score is above 70 and every listed pattern is a pattern
    of the library.  The recommended actions are free of duplicates.  The
    analysis does not change the library and forgets nothing the memo
    held. *)
Theorem analyzeBatchLocally_result `{Host} (engine : Engine) (errorBatch : list ErrorContext) :
  let r := fst (analyzeBatchLocally engine errorBatch) in
  let engine' := snd (analyzeBatchLocally engine errorBatch) in
  length (patterns r) = length (confidence_scores r) /\
  (length (confidence_scores r) <= length errorBatch)%nat /\
  List.Forall (fun c => (70 < c)%Z) (confidence_scores r) /\
  List.Forall (fun p => In p (map snd (patternMap engine))) (patterns r) /\
  List.NoDup (recommended_actions r) /\
  patternMap engine' = patternMap engine /\
  (forall k m, signatureCache engine !! k = Some m -> signatureCache engine' !! k = Some m).
Proof.
  cbn zeta. unfold analyzeBatchLocally.
  pose proof (analyzeBatchLoop_facts errorBatch engine
                {| patterns := []; confidence_scores := []; recommended_actions := [] |})
    as Hloop.
  cbn zeta in Hloop.
  destruct (analyzeBatchLoop engine errorBatch _) as [r engine'].
  cbn [fst snd patterns confidence_scores recommended_actions app] in *.
  destruct Hloop as (Hmap & Hmemo & ps & cs & acts & -> & -> & _ & Hlen & Hle & Hgt & Hin).
  split; [exact Hlen|]. split; [exact Hle|]. split; [exact Hgt|]. split; [exact Hin|].
  split; [apply dedup_facts|]. split; [exact Hmap|exact Hmemo].
Qed.

(** *** The handlers on top of the classifier *)

Import Server.

Lemma scanPatterns_confidence (patterns : list (string * ErrorPattern)) (ctx : ErrorContext) :
  confidence (scanPatterns patterns ctx) = 0%Z \/
  (90 <= confidence (scanPatterns patterns ctx) <= 100)%Z.
Proof.
  destruct (scanPatterns_result patterns ctx) as [->|(e & _ & Hq & ->)]; [left; reflexivity|].
  right. cbn [confidence matchOf]. apply calculateConfidence_range.
  unfold qualifies in Hq. apply andb_true_iff in Hq. exact (proj1 Hq).
Qed.

Lemma memoSound_newEngine : memoSound newEngine.
Proof. intros k m Hk. cbn [signatureCache newEngine] in Hk. rewrite lookup_empty in Hk. discriminate. Qed.

Lemma matchErrorPattern_memoSound `{Host} (engine : Engine) (ctx : ErrorContext) :
  memoSound engine ->
  (confidence (fst (matchErrorPattern engine ctx)) = 0%Z \/
   (90 <= confidence (fst (matchErrorPattern engine ctx)) <= 100)%Z) /\
  memoSound (snd (matchErrorPattern engine ctx)).
Proof.
  intros Hsound. unfold matchErrorPattern.
  destruct (signatureCache engine !! createErrorSignature ctx) as [cached|] eqn:Hmemo;
    cbn [fst snd].
  - split; [exact (Hsound _ _ Hmemo)|exact Hsound].
  - split; [apply scanPatterns_confidence|].
    intros k m. cbn [signatureCache].
    destruct (decide (createErrorSignature ctx = k)) as [<-|Hne].
    + rewrite lookup_insert_eq. intros [= <-]. apply scanPatterns_confidence.
    + rewrite lookup_insert_ne by exact Hne. apply Hsound.
Qed.

(** X21. What [captureErrorContext] answers.  On a server whose memo holds
    only matches the classifier can produce and whose queue is keyed by
    the ids of its items, the answer is either a local match with a
    confidence between 90 and 100, the outcome of the cache look-up under
    the matched pattern's id, no API cost and an untouched queue; or
    the error is queued, with a reported local confidence of exactly 0, a
    position of at least 1, a cost estimate between 0.05 and 0.08 dollars,
    as doubles compare, and an untouched result cache.  So a confidence between 1 and 89 is
    never reported.  The usage tracker and the pattern library are never
    changed, and both assumptions hold again afterwards. *)
Theorem captureErrorContext_answers `{Host} (srv : Server) (args : ErrorContext)
    (clock : CaptureClock) :
  memoSound (localPatternEngine srv) ->
  wellFormed (processingScheduler srv) ->
  let r := fst (captureErrorContext srv args clock) in
  let srv' := snd (captureErrorContext srv args clock) in
  let localMatch := fst (matchErrorPattern (localPatternEngine srv) args) in
  claudeInterface srv' = claudeInterface srv /\
  patternMap (localPatternEngine srv') = patternMap (localPatternEngine srv) /\
  memoSound (localPatternEngine srv') /\
  wellFormed (processingScheduler srv') /\
  ((r = local_pattern_match (confidence localMatch) (pattern_type localMatch)
          (fst (IntelligenceCache.getCachedSolution (intelligenceCache srv)
                  (pattern_id localMatch) (tAccess clock))) 0 /\
    (90 <= confidence localMatch <= 100)%Z /\
    processingScheduler srv' = processingScheduler srv) \/
   (exists position time cost,
      r = queued_for_claude_analysis position time 0 cost /\
      confidence localMatch = 0%Z /\
      (1 <= position)%nat /\
      (0.05 <= cost)%Q /\
      (Double.nearest 0.05 <= cost)%Q /\ (cost <= Double.nearest 0.08)%Q /\
      intelligenceCache srv' = intelligenceCache srv)).
Proof.
  intros Hsound Hwf. cbn zeta. unfold captureErrorContext.
  destruct (matchErrorPattern_memoSound (localPatternEngine srv) args Hsound) as [Hconf Hsound'].
  pose proof (matchErrorPattern_patternMap (localPatternEngine srv) args) as Hmap.
  destruct (matchErrorPattern (localPatternEngine srv) args) as [localMatch engine'].
  cbn [fst snd] in *.
  destruct (confidence localMatch >? 85)%Z eqn:Hhigh.
  - apply Z.gtb_lt in Hhigh.
    destruct (IntelligenceCache.getCachedSolution (intelligenceCache srv)
                (pattern_id localMatch) (tAccess clock)) as [cachedSolution cache'] eqn:Hget.
    cbn [fst snd claudeInterface localPatternEngine processingScheduler].
    split; [reflexivity|]. split; [exact Hmap|]. split; [exact Hsound'|]. split; [exact Hwf|].
    left. split; [reflexivity|split; [lia|reflexivity]].
  - rewrite Z.gtb_ltb in Hhigh. apply Z.ltb_ge in Hhigh.
    assert (Hzero : confidence localMatch = 0%Z) by lia.
    pose proof (wellFormed_queueForClaudeAnalysis (processingScheduler srv) args
                  (tDateNow clock) (tQueued clock) Hwf) as Hwf'.
    pose proof (queue_position_at_least_one (processingScheduler srv) args
                  (tDateNow clock) (tQueued clock)
                  (wellFormed_addressesValid _ Hwf)) as Hpos.
    destruct (estimateProcessingCost_range args) as (Hlo0 & Hlo & Hhi).
    destruct (queueForClaudeAnalysis (processingScheduler srv) args
                (tDateNow clock) (tQueued clock)) as [queueResult scheduler'] eqn:Hq.
    cbn [fst snd claudeInterface localPatternEngine processingScheduler intelligenceCache] in *.
    split; [reflexivity|]. split; [exact Hmap|]. split; [exact Hsound'|]. split; [exact Hwf'|].
    right. exists (position queueResult), (estimated_time queueResult), (cost_estimate queueResult).
    rewrite Hzero.
    assert (Hcost : cost_estimate queueResult = estimateProcessingCost args).
    { unfold queueForClaudeAnalysis in Hq. injection Hq as <- _. reflexivity. }
    rewrite Hcost.
    split; [reflexivity|]. split; [reflexivity|]. split; [exact Hpos|].
    split; [exact Hlo0|]. split; [exact Hlo|]. split; [exact Hhi|reflexivity].
Qed.

Lemma captureErrorContext_answers_witness :
  fst (@captureErrorContext Fixtures.exampleHost newServer Fixtures.hangA
         {| tAccess := 0; tDateNow := 0; tQueued := 0 |}) =
  local_pattern_match 90 "javascript_network_error" None 0.
Proof.
  destruct (@captureErrorContext_answers Fixtures.exampleHost newServer Fixtures.hangA
              {| tAccess := 0; tDateNow := 0; tQueued := 0 |}
              memoSound_newEngine wellFormed_newScheduler)
    as (_ & _ & _ & _ & [(Hr & _)|(position & time & cost & _ & Hzero & _)]).
  - exact Hr.
  - vm_compute in Hzero. discriminate Hzero.
Defined.

(** X22. [analyzeErrorPatterns] never falls back for lack of budget.  With
    depth [local_only] the batch is analysed locally at no cost and the
    usage tracker, the result cache and the queue are untouched.  With any
    other depth the handler tests the budget report itself, an object and so
    always truthy,
    so the answer is never [local_fallback_budget_exceeded] and never a
    local analysis: the batch goes to the gateway, the classifier and its
    memo are not touched, and the usage tracker is the one the gateway
    leaves. *)
Theorem analyzeErrorPatterns_never_falls_back `{Host} (srv : Server) (args : AnalyzeArgs)
    (run : GatewayRun) :
  let r := fst (analyzeErrorPatterns srv args run) in
  let srv' := snd (analyzeErrorPatterns srv args run) in
  let depth := default "claude_if_needed" (analysis_depth args) in
  (forall patterns status cost, r <> local_fallback_budget_exceeded patterns status cost) /\
  processingScheduler srv' = processingScheduler srv /\
  (depth = "local_only" ->
   r = local_only (fst (analyzeBatchLocally (localPatternEngine srv) (error_batch args))) 0 /\
   localPatternEngine srv' =
     snd (analyzeBatchLocally (localPatternEngine srv) (error_batch args)) /\
   claudeInterface srv' = claudeInterface srv /\
   intelligenceCache srv' = intelligenceCache srv) /\
  (depth <> "local_only" ->
   (forall analysis cost, r <> local_only analysis cost) /\
   localPatternEngine srv' = localPatternEngine srv /\
   claudeInterface srv' =
     snd (ClaudeInterface.analyzeBatchWithBudget (claudeInterface srv) (error_batch args)
            (default true (cross_repo_context args)) (tCheck run) (api run) (tRecord run))).
Proof.
  cbn zeta. unfold analyzeErrorPatterns.
  destruct (String.eqb (default "claude_if_needed" (analysis_depth args)) "local_only") eqn:Elocal.
  - apply String.eqb_eq in Elocal.
    destruct (analyzeBatchLocally (localPatternEngine srv) (error_batch args))
      as [localAnalysis engine'].
    cbn [fst snd processingScheduler claudeInterface intelligenceCache localPatternEngine].
    split; [intros; discriminate|]. split; [reflexivity|].
    split; [intros _; repeat split; reflexivity|]. intros Hne. contradiction.
  - apply String.eqb_neq in Elocal.
    change (negb (Js.truthyObject checkDailyBudget)) with false. cbn [andb].
    destruct (ClaudeInterface.analyzeBatchWithBudget (claudeInterface srv) (error_batch args)
                (default true (cross_repo_context args)) (tCheck run) (api run) (tRecord run))
      as [claudeAnalysis tracker'].
    destruct claudeAnalysis as [res|msg|];
      [destruct (IntelligenceCache.cacheAnalysisResults _ _ _) as [cached cache'];
       destruct cached as [u|msg|]|..];
      cbn [fst snd processingScheduler claudeInterface intelligenceCache localPatternEngine];
      (split; [intros; discriminate|]); (split; [reflexivity|]);
      (split; [intros Heq; contradiction|]); intros _;
      (split; [intros; discriminate|]); split; reflexivity.
Qed.

(* ===================================================================== *)
(** ** The tool handlers *)
(* ===================================================================== *)

Import Js IntelligenceCache Tools.

(** *** Feedback on a fix *)

Lemma getCachedSolution_effect (c : Cache) (k : string) (now : Z) :
  let r := getCachedSolution c k now in
  (forall pid, is_Some (solutionCache c !! pid) <-> is_Some (solutionCache (snd r) !! pid)) /\
  size (solutionCache (snd r)) = size (solutionCache c) /\
  (forall k', k' <> k -> solutionCache (snd r) !! k' = solutionCache c !! k') /\
  match solutionCache c !! k with
  | Some sol =>
      fst r = Some (touch sol now) /\
      solutionCache (snd r) !! k = Some (touch sol now) /\
      cacheHits (snd r) = S (cacheHits c) /\ cacheMisses (snd r) = cacheMisses c
  | None =>
      fst r = None /\
      solutionCache (snd r) = solutionCache c /\
      cacheHits (snd r) = cacheHits c /\ cacheMisses (snd r) = S (cacheMisses c)
  end.
Proof.
  cbn zeta. unfold getCachedSolution.
  destruct (solutionCache c !! k) as [sol|] eqn:Hk; cbn [fst snd solutionCache cacheHits cacheMisses].
  - split; [|split; [|split]].
    + intros pid. destruct (decide (k = pid)) as [<-|Hne].
      * rewrite lookup_insert_eq, Hk. split; eauto.
      * rewrite lookup_insert_ne by exact Hne. reflexivity.
    + apply map_size_insert_Some. eauto.
    + intros k' Hne. apply lookup_insert_ne. congruence.
    + rewrite lookup_insert_eq. auto.
  - split; [reflexivity|]. split; [reflexivity|]. split; [reflexivity|]. auto.
Qed.

Lemma updateSolutionEffectiveness_effect (c : Cache) (k : string) (ok : bool) (now : Z) :
  let c' := updateSolutionEffectiveness c k ok now in
  (forall pid, is_Some (solutionCache c !! pid) <-> is_Some (solutionCache c' !! pid)) /\
  size (solutionCache c') = size (solutionCache c) /\
  (forall k', k' <> k -> solutionCache c' !! k' = solutionCache c !! k') /\
  cacheHits c' = cacheHits c /\ cacheMisses c' = cacheMisses c /\
  solutionCache c' !! k = option_map (fun sol => applyFeedback sol ok now) (solutionCache c !! k).
Proof.
  cbn zeta. unfold updateSolutionEffectiveness.
  destruct (solutionCache c !! k) as [sol|] eqn:Hk;
    cbn [withSolutions solutionCache cacheHits cacheMisses option_map].
  - split; [|split; [|split; [|split; [|split]]]]; try reflexivity.
    + intros pid. destruct (decide (k = pid)) as [<-|Hne].
      * rewrite lookup_insert_eq, Hk. split; eauto.
      * rewrite lookup_insert_ne by exact Hne. reflexivity.
    + apply map_size_insert_Some. eauto.
    + intros k' Hne. apply lookup_insert_ne. congruence.
    + apply lookup_insert_eq.
  - split; [reflexivity|]. split; [reflexivity|]. split; [reflexivity|].
    split; [reflexivity|]. split; [reflexivity|exact Hk].
Qed.



(** *** The taxonomy update *)

Lemma cacheAnalysisResults_single `{Host} (c : Cache) (pattern : JVal) (now : Z) :
  cacheAnalysisResults c [("patterns", JArr [pattern]); ("novel_insights", JArr [])] now =
  match solutionOfPattern pattern now with
  | Ok solution => (Ok tt, updateCacheStatistics (cacheSolution c solution))
  | Throw m => (Throw m, c)
  | IllTyped => (IllTyped, c)
  end.
Proof.
  unfold cacheAnalysisResults.
  change (assoc "patterns" [("patterns", JArr [pattern]); ("novel_insights", JArr [])])
    with (JArr [pattern]).
  change (assoc "novel_insights" [("patterns", JArr [pattern]); ("novel_insights", JArr [])])
    with (JArr []).
  cbn [or_else truthy iterate cacheEach].
  destruct (solutionOfPattern pattern now); reflexivity.
Qed.

Lemma cacheSolution_effect (c : Cache) (solution : CachedSolution) :
  let c' := updateCacheStatistics (cacheSolution c solution) in
  (forall pid, is_Some (solutionCache c !! pid) -> is_Some (solutionCache c' !! pid)) /\
  (size (solutionCache c) <= size (solutionCache c') <= S (size (solutionCache c)))%nat /\
  cacheHits c' = cacheHits c /\ cacheMisses c' = cacheMisses c.
Proof.
  cbn zeta. unfold updateCacheStatistics, cacheSolution, withSolutions.
  cbn [solutionCache cacheHits cacheMisses].
  split; [|split; [|split; reflexivity]].
  - intros pid Hs. destruct (decide (pattern_id solution = pid)) as [<-|Hne].
    + rewrite lookup_insert_eq. eauto.
    + rewrite lookup_insert_ne by exact Hne. exact Hs.
  - destruct (solutionCache c !! pattern_id solution) as [old|] eqn:Hold.
    + rewrite map_size_insert_Some by eauto. lia.
    + rewrite map_size_insert_None by exact Hold. lia.
Qed.

Lemma taxonomyLoop_facts `{Host} (patterns : list JVal) (clock : nat -> Z) (c : Cache)
    (i updatedPatterns newPatterns : nat) :
  let out := taxonomyLoop patterns c i clock updatedPatterns newPatterns in
  (forall pid, is_Some (solutionCache c !! pid) -> is_Some (solutionCache (snd out) !! pid)) /\
  match fst out with
  | Ok (updated, added) =>
      exists du dn,
        updated = (updatedPatterns + du)%nat /\ added = (newPatterns + dn)%nat /\
        (du + dn = length patterns)%nat /\
        cacheHits (snd out) = (cacheHits c + du)%nat /\
        cacheMisses (snd out) = (cacheMisses c + dn)%nat /\
        (size (solutionCache c) <= size (solutionCache (snd out)) <=
         size (solutionCache c) + dn)%nat
  | _ => True
  end.
Proof.
  revert c i updatedPatterns newPatterns.
  induction patterns as [|pattern rest IH]; intros c i u n; cbn zeta; cbn [taxonomyLoop].
  - cbn [fst snd]. split; [auto|]. exists 0%nat, 0%nat. cbn [length]. repeat split; lia.
  - destruct (patternIdOf pattern) as [patternId|m|]; [|cbn; auto|cbn; auto].
    destruct (getCachedSolution_effect c patternId (clock (2 * i)%nat))
      as (Hkeys1 & Hsize1 & _ & Hat1).
    cbn zeta in *.
    destruct (getCachedSolution c patternId (clock (2 * i)%nat)) as [existingPattern c1].
    cbn [fst snd] in *.
    destruct (solutionCache c !! patternId) as [sol|] eqn:Hk.
    + destruct Hat1 as (-> & _ & Hh1 & Hm1).
      destruct (updateSolutionEffectiveness_effect c1 patternId true (clock (2 * i + 1)%nat))
        as (Hkeys2 & Hsize2 & _ & Hh2 & Hm2 & _).
      cbn zeta in *.
      set (c2 := updateSolutionEffectiveness c1 patternId true (clock (2 * i + 1)%nat)) in *.
      specialize (IH c2 (S i) (S u) n). cbn zeta in IH. destruct IH as [Hkeys Hres].
      split; [intros pid Hs; apply Hkeys, Hkeys2, Hkeys1; exact Hs|].
      destruct (fst (taxonomyLoop rest c2 (S i) clock (S u) n)) as [[updated added]|m|];
        [|exact I|exact I].
      destruct Hres as (du & dn & -> & -> & Hlen & Hh & Hm & Hsz).
      exists (S du), dn. cbn [length]. repeat split; lia.
    + destruct Hat1 as (-> & Hsame1 & Hh1 & Hm1).
      rewrite cacheAnalysisResults_single.
      destruct (solutionOfPattern pattern (clock (2 * i + 1)%nat)) as [solution|m|];
        [|cbn [fst snd]; split; [intros pid Hs; apply Hkeys1; exact Hs|exact I]
         |cbn [fst snd]; split; [intros pid Hs; apply Hkeys1; exact Hs|exact I]].
      destruct (cacheSolution_effect c1 solution) as (Hkeys2 & Hsize2 & Hh2 & Hm2).
      cbn zeta in *.
      set (c2 := updateCacheStatistics (cacheSolution c1 solution)) in *.
      specialize (IH c2 (S i) u (S n)). cbn zeta in IH. destruct IH as [Hkeys Hres].
      split; [intros pid Hs; apply Hkeys, Hkeys2, Hkeys1; exact Hs|].
      destruct (fst (taxonomyLoop rest c2 (S i) clock u (S n))) as [[updated added]|m|];
        [|exact I|exact I].
      destruct Hres as (du & dn & -> & -> & Hlen & Hh & Hm & Hsz).
      exists du, (S dn). cbn [length]. repeat split; lia.
Qed.

(** X24. What a taxonomy update reports.  When [updateErrorTaxonomy]
    completes on a list of patterns, the numbers of added and of updated
    patterns add up to the length of the list, and the reported total is
    the size of the pattern library plus the number of cached solutions
    after the update.  The update itself is counted in the cache's
    statistics: the hit counter goes up by the number of updated patterns
    and the miss counter by the number of added ones.  The cache grows by
    at most the number of added patterns.  However the call ends, every
    id cached before is cached after and nothing outside the cache
    changes; a failure is reported as a failed taxonomy update. *)
Theorem updateErrorTaxonomy_counts `{Host} (srv : Server.Server) (patterns : list JVal)
    (taxonomy_version : option string) (clock : nat -> Z) :
  let r := fst (updateErrorTaxonomy srv (JArr patterns) taxonomy_version clock) in
  let srv' := snd (updateErrorTaxonomy srv (JArr patterns) taxonomy_version clock) in
  let c := Server.intelligenceCache srv in
  let c' := Server.intelligenceCache srv' in
  Server.localPatternEngine srv' = Server.localPatternEngine srv /\
  Server.claudeInterface srv' = Server.claudeInterface srv /\
  Server.processingScheduler srv' = Server.processingScheduler srv /\
  (forall pid, is_Some (solutionCache c !! pid) -> is_Some (solutionCache c' !! pid)) /\
  match r with
  | taxonomy_completed version added updated total =>
      version = default "1.0" taxonomy_version /\
      (added + updated = length patterns)%nat /\
      total = (length (LocalPatternEngine.patternMap (Server.localPatternEngine srv)) +
               size (solutionCache c'))%nat /\
      cacheHits c' = (cacheHits c + updated)%nat /\
      cacheMisses c' = (cacheMisses c + added)%nat /\
      (size (solutionCache c) <= size (solutionCache c') <= size (solutionCache c) + added)%nat
  | taxonomy_failed error _ => error = "Failed to update error taxonomy"
  | taxonomy_ill_typed => True
  end.
Proof.
  cbn zeta. unfold updateErrorTaxonomy. cbn [iterate].
  destruct (taxonomyLoop_facts patterns clock (Server.intelligenceCache srv) 0 0 0)
    as [Hkeys Hres].
  cbn zeta in *.
  destruct (taxonomyLoop patterns (Server.intelligenceCache srv) 0 clock 0 0)
    as [[[updated added]|m|] c1];
    cbn [fst snd] in *.
  - unfold CacheUpkeep.getCacheStatistics, updateCacheStatistics.
    cbn [fst snd withCache Server.localPatternEngine Server.claudeInterface
         Server.processingScheduler Server.intelligenceCache solutionCache cacheHits
         cacheMisses cacheStats total_cached_solutions].
    split; [reflexivity|]. split; [reflexivity|]. split; [reflexivity|].
    split; [exact Hkeys|].
    destruct Hres as (du & dn & -> & -> & Hlen & Hh & Hm & Hsz). cbn [Nat.add] in *.
    repeat split; lia.
  - cbn [withCache Server.localPatternEngine Server.claudeInterface
         Server.processingScheduler Server.intelligenceCache].
    repeat split; auto.
  - cbn [withCache Server.localPatternEngine Server.claudeInterface
         Server.processingScheduler Server.intelligenceCache].
    repeat split; auto.
Qed.

(** *** External enrichment *)

Lemma checkDailyBudget_figures :
  Scheduler.can_proceed Scheduler.checkDailyBudget = true /\
  (Scheduler.remaining_budget Scheduler.checkDailyBudget == 0.58)%Q.
Proof. split; vm_compute; reflexivity. Qed.

Lemma Qltb_lt (a b : Q) : Qltb a b = true <-> (a < b)%Q.
Proof.
  unfold Qltb. rewrite negb_true_iff. split.
  - intros Hle. apply Qnot_le_lt. intros Hba. apply Qle_bool_iff in Hba. congruence.
  - intros Hlt. destruct (Qle_bool b a) eqn:E; [|reflexivity].
    apply Qle_bool_iff in E. apply Qlt_not_le in Hlt. contradiction.
Qed.

Lemma Qltb_ge (a b : Q) : Qltb a b = false <-> (b <= a)%Q.
Proof.
  unfold Qltb. rewrite negb_false_iff. apply Qle_bool_iff.
Qed.

Lemma Math_trunc_small (q : Q) : (-1 < q)%Q -> (q < 1)%Q -> Math_trunc q = 0%Z.
Proof.
  intros Hlo Hhi. unfold Math_trunc.
  destruct (Qle_bool 0 q) eqn:Hsign.
  - apply Qle_bool_iff in Hsign.
    pose proof (Qfloor_le q) as Hle. pose proof (Qlt_floor q) as Hlt.
    assert (H1 : (inject_Z (Qfloor q) < inject_Z 1)%Q) by (change (inject_Z 1) with 1%Q; lra).
    assert (H2 : (inject_Z 0 < inject_Z (Qfloor q + 1))%Q)
      by (change (inject_Z 0) with 0%Q; lra).
    rewrite <- Zlt_Qlt in H1, H2. lia.
  - assert (Hneg : (q < 0)%Q).
    { apply Qnot_le_lt. intros Hq. apply Qle_bool_iff in Hq. congruence. }
    pose proof (Qle_ceiling q) as Hle. pose proof (Qceiling_lt q) as Hlt.
    assert (H1 : (inject_Z (-1) < inject_Z (Qceiling q))%Q)
      by (change (inject_Z (-1)) with (-1)%Q; lra).
    assert (H2 : (inject_Z (Qceiling q - 1) < inject_Z 0)%Q)
      by (change (inject_Z 0) with 0%Q; lra).
    rewrite <- Zlt_Qlt in H1, H2. lia.
Qed.

Lemma slice0_below_one {A} (l : list A) (limit : Q) :
  (-1 < limit)%Q -> (limit < 1)%Q -> l <> [] ->
  slice0 l (Qmin (inject_Z (Z.of_nat (length l))) limit) = [].
Proof.
  intros Hlo Hhi Hne. unfold slice0. cbv zeta.
  assert (Hlen : (1 <= inject_Z (Z.of_nat (length l)))%Q).
  { change 1%Q with (inject_Z 1). rewrite <- Zle_Qle.
    destruct l; [contradiction|cbn [length]; lia]. }
  destruct (Qmin_cases (inject_Z (Z.of_nat (length l))) limit) as (_ & Hle & [Heq|Heq]);
    [lra|].
  rewrite Math_trunc_small by lra. cbn [Z.ltb Z.compare].
  rewrite Z.min_l by lia. reflexivity.
Qed.

(** X25. [enrichWithExternalIntel] sends no pattern to the gateway.  The
    handler compares the dollars the scheduler reports as remaining, 0.58,
    with [budget_limit], a number of patterns: with the default limit of 3
    and with any limit above 0.58 the answer is [budget_insufficient] and
    nothing changes.  With a limit between -1 and 0.58 the patterns that
    are not cached are cut to an empty batch, so the usage tracker is
    either untouched or what a gateway call on the empty batch leaves; a
    report of acquired intelligence then counts at least one analysed
    pattern.  The classifier and the queue are never touched. *)
Theorem enrichWithExternalIntel_sends_no_pattern `{Host} (srv : Server.Server)
    (args : EnrichArgs) (clock : nat -> Z) (run : Server.GatewayRun) :
  let limit := default 3%Q (budget_limit args) in
  (-1 < limit)%Q ->
  let r := fst (enrichWithExternalIntel srv args clock run) in
  let srv' := snd (enrichWithExternalIntel srv args clock run) in
  Server.localPatternEngine srv' = Server.localPatternEngine srv /\
  Server.processingScheduler srv' = Server.processingScheduler srv /\
  (Scheduler.remaining_budget Scheduler.checkDailyBudget == 0.58)%Q /\
  ((0.58 < limit)%Q ->
   r = budget_insufficient (Scheduler.remaining_budget Scheduler.checkDailyBudget) limit /\
   srv' = srv) /\
  (Server.claudeInterface srv' = Server.claudeInterface srv \/
   Server.claudeInterface srv' =
     snd (ClaudeInterface.analyzeBatchWithBudget (Server.claudeInterface srv) [] true
            (Server.tCheck run) (Server.api run) (Server.tRecord run))) /\
  (forall analyzed insights cost savings,
     r = external_intelligence_acquired analyzed insights cost savings ->
     (1 <= analyzed)%nat /\ savings = (cost * 10)%Q /\
     exists res,
       fst (ClaudeInterface.analyzeBatchWithBudget (Server.claudeInterface srv) [] true
              (Server.tCheck run) (Server.api run) (Server.tRecord run)) = Ok res /\
       cost = ClaudeInterface.api_cost res).
Proof.
  cbn zeta. intros Hlo. unfold enrichWithExternalIntel.
  set (limit := default 3%Q (budget_limit args)) in *.
  destruct checkDailyBudget_figures as [Hcan Hrem]. rewrite Hcan. cbn [negb orb].
  destruct (Qltb (Scheduler.remaining_budget Scheduler.checkDailyBudget) limit) eqn:Hcmp.
  { cbn [fst snd]. split; [reflexivity|]. split; [reflexivity|]. split; [exact Hrem|].
    split; [intros _; split; reflexivity|]. split; [left; reflexivity|].
    intros; discriminate. }
  apply Qltb_ge in Hcmp. rewrite Hrem in Hcmp.
  assert (Hnever : (0.58 < limit)%Q -> False) by (intros Hgt; lra).
  destruct (iterate (novel_error_patterns args)) as [patterns|m|];
    [|cbn [fst snd]; split; [reflexivity|]; split; [reflexivity|]; split; [exact Hrem|];
      split; [intros Hgt; destruct (Hnever Hgt)|];
      split; [left; reflexivity|intros; discriminate]..].
  destruct (filterNovel patterns (Server.intelligenceCache srv) 0 clock)
    as [[novelPatterns|m|] c1];
    [|cbn [fst snd withCache Server.localPatternEngine Server.claudeInterface
           Server.processingScheduler];
      split; [reflexivity|]; split; [reflexivity|]; split; [exact Hrem|];
      split; [intros Hgt; destruct (Hnever Hgt)|];
      split; [left; reflexivity|intros; discriminate]..].
  destruct novelPatterns as [|pattern novelPatterns].
  { cbn [fst snd withCache Server.localPatternEngine Server.claudeInterface
         Server.processingScheduler].
    split; [reflexivity|]. split; [reflexivity|]. split; [exact Hrem|].
    split; [intros Hgt; destruct (Hnever Hgt)|].
    split; [left; reflexivity|intros; discriminate]. }
  rewrite slice0_below_one by (first [lra|discriminate]).
  cbn [typedBatch].
  destruct (ClaudeInterface.analyzeBatchWithBudget (Server.claudeInterface srv) [] true
              (Server.tCheck run) (Server.api run) (Server.tRecord run))
    as [[res|m|] tracker'];
    [destruct (cacheAnalysisResults c1 _ (Server.tCache run)) as [[u|m|] c2]|..];
    cbn [fst snd withCache Server.localPatternEngine Server.claudeInterface
         Server.processingScheduler];
    (split; [reflexivity|]); (split; [reflexivity|]); (split; [exact Hrem|]);
    (split; [intros Hgt; destruct (Hnever Hgt)|]);
    (split; [first [right; reflexivity|left; reflexivity]|]);
    try (intros; discriminate).
  intros analyzed insights cost savings [= <- _ <- <-].
  split; [cbn [length]; lia|]. split; [reflexivity|]. exists res. split; reflexivity.
Qed.

Lemma enrichWithExternalIntel_sends_no_pattern_witness :
  fst (@enrichWithExternalIntel Fixtures.exampleHost Server.newServer
         {| novel_error_patterns := JArr [Fixtures.p1]; budget_limit := None |}
         (fun _ => 0%Z)
         (Fixtures.runAt 2000 (ClaudeInterface.ApiResponse Fixtures.p1Response))) =
  budget_insufficient (Scheduler.remaining_budget Scheduler.checkDailyBudget) 3.
Proof.
  refine (proj1 (proj1 (proj2 (proj2 (proj2
    (@enrichWithExternalIntel_sends_no_pattern Fixtures.exampleHost Server.newServer
       {| novel_error_patterns := JArr [Fixtures.p1]; budget_limit := None |}
       (fun _ => 0%Z)
       (Fixtures.runAt 2000 (ClaudeInterface.ApiResponse Fixtures.p1Response)) _)))) _)).
  - reflexivity.
  - reflexivity.
Defined.

(** *** Preventive fixes *)

(** The object the handler hands to the queue has no [error_message], so
    the priority rules raise on it. *)
Lemma queueForClaudeAnalysis_preventive (s : Scheduler.Scheduler) (error_pattern : JVal)
    (target_repo : string) (dateNow queuedAt : Z) :
  queueForClaudeAnalysis s
    [ ("error_pattern", error_pattern);
      ("target_repo", JStr target_repo);
      ("analysis_type", JStr "preventive_fixes") ] dateNow queuedAt =
  Throw "Cannot read properties of undefined (reading 'toLowerCase')".
Proof. reflexivity. Qed.

(** X26. [suggestPreventiveFixes] never queues anything.  Whatever the
    arguments, the queue and the usage tracker are untouched and the
    pattern library is unchanged, and the answer is never
    [queued_for_claude_preventive_analysis]: it is a set of cached fixes
    for the target repository at no cost (the classifier is then not
    consulted), or the classifier's actions with a confidence above 70 at
    no cost, or a failure. *)
Theorem suggestPreventiveFixes_never_queues `{Host} (srv : Server.Server)
    (args : PreventiveArgs) (clock : Server.CaptureClock) :
  let r := fst (suggestPreventiveFixes srv args clock) in
  let srv' := snd (suggestPreventiveFixes srv args clock) in
  Server.processingScheduler srv' = Server.processingScheduler srv /\
  Server.claudeInterface srv' = Server.claudeInterface srv /\
  LocalPatternEngine.patternMap (Server.localPatternEngine srv') =
    LocalPatternEngine.patternMap (Server.localPatternEngine srv) /\
  match r with
  | cached_preventive_fixes repo _ _ _ _ _ _ cost =>
      repo = target_repo args /\ cost = 0%Q /\
      Server.localPatternEngine srv' = Server.localPatternEngine srv
  | local_pattern_preventive_fixes repo _ confidence cost =>
      repo = target_repo args /\ cost = 0%Q /\ (70 < confidence)%Z
  | queued_for_claude_preventive_analysis _ _ _ => False
  | preventive_failed error _ => error = "Failed to suggest preventive fixes"
  | preventive_ill_typed => True
  end.
Proof.
  cbn zeta. unfold suggestPreventiveFixes.
  destruct (properties (error_pattern args) "pattern_id") as [field|m|];
    [|cbn; repeat split; reflexivity|cbn; repeat split; reflexivity].
  destruct (getCachedSolutionAt (Server.intelligenceCache srv) (field "pattern_id")
              (Server.tAccess clock)) as [[cached|] cache'].
  { cbn [fst snd withCache Server.localPatternEngine Server.claudeInterface
         Server.processingScheduler]. repeat split; reflexivity. }
  destruct (asString (or_else (field "error_message") (JStr "Pattern-based analysis")))
    as [message|m|];
    [destruct (environmentOf (field "environment_info")) as [env|m|]|..];
    try (cbn [fst snd withCache Server.localPatternEngine Server.claudeInterface
              Server.processingScheduler]; repeat split; reflexivity).
  pose proof (matchErrorPattern_patternMap (Server.localPatternEngine srv)
                {| error_message := message; stack_trace := None;
                   repo_context := target_repo args; environment_info := env |}) as Hmap.
  destruct (LocalPatternEngine.matchErrorPattern (Server.localPatternEngine srv) _)
    as [localMatch engine'].
  cbn [snd] in Hmap.
  destruct (LocalPatternEngine.confidence localMatch >? 70)%Z eqn:Hconf.
  - cbn [fst snd Server.localPatternEngine Server.claudeInterface Server.processingScheduler].
    apply Z.gtb_lt in Hconf. repeat split; first [reflexivity|assumption].
  - rewrite queueForClaudeAnalysis_preventive.
    cbn [fst snd Server.localPatternEngine Server.claudeInterface Server.processingScheduler].
    repeat split; first [reflexivity|assumption].
Qed.

(** X27. An unrecognised pattern makes [suggestPreventiveFixes] fail.  When
    the pattern's id is not cached and the classifier's confidence for the
    pattern's message in the target repository is at most 70, the handler
    hands the queue an object without [error_message]; the priority rules
    raise on it, so the answer is the failure "Cannot read properties of
    undefined (reading 'toLowerCase')", nothing is queued, and the look-up
    has been counted as a cache miss. *)
Theorem suggestPreventiveFixes_unrecognised_fails `{Host} (srv : Server.Server)
    (args : PreventiveArgs) (clock : Server.CaptureClock)
    (fs : list (string * JVal)) (message : string) (env : option (list (string * JVal))) :
  error_pattern args = JObj fs ->
  fst (getCachedSolutionAt (Server.intelligenceCache srv) (assoc "pattern_id" fs)
         (Server.tAccess clock)) = None ->
  asString (or_else (assoc "error_message" fs) (JStr "Pattern-based analysis")) = Ok message ->
  environmentOf (assoc "environment_info" fs) = Ok env ->
  (LocalPatternEngine.confidence
     (fst (LocalPatternEngine.matchErrorPattern (Server.localPatternEngine srv)
             {| error_message := message; stack_trace := None;
                repo_context := target_repo args; environment_info := env |})) <= 70)%Z ->
  let r := fst (suggestPreventiveFixes srv args clock) in
  let srv' := snd (suggestPreventiveFixes srv args clock) in
  r = preventive_failed "Failed to suggest preventive fixes"
        "Cannot read properties of undefined (reading 'toLowerCase')" /\
  Server.processingScheduler srv' = Server.processingScheduler srv /\
  solutionCache (Server.intelligenceCache srv') = solutionCache (Server.intelligenceCache srv) /\
  cacheMisses (Server.intelligenceCache srv') = S (cacheMisses (Server.intelligenceCache srv)).
Proof.
  intros Hobj Hmiss Hmsg Henv Hconf. cbn zeta. unfold suggestPreventiveFixes.
  rewrite Hobj. cbn [properties].
  assert (Hcache :
    exists cache',
      getCachedSolutionAt (Server.intelligenceCache srv) (assoc "pattern_id" fs)
        (Server.tAccess clock) = (None, cache') /\
      solutionCache cache' = solutionCache (Server.intelligenceCache srv) /\
      cacheMisses cache' = S (cacheMisses (Server.intelligenceCache srv))).
  { revert Hmiss. unfold getCachedSolutionAt.
    destruct (assoc "pattern_id" fs) as [| |b|q|s|l|o];
      try (intros _; eexists; split; [reflexivity|split; reflexivity]).
    destruct (getCachedSolution_effect (Server.intelligenceCache srv) s (Server.tAccess clock))
      as (_ & _ & _ & Hat).
    cbn zeta in Hat.
    destruct (getCachedSolution (Server.intelligenceCache srv) s (Server.tAccess clock))
      as [found cache'].
    cbn [fst snd] in *. intros ->.
    destruct (solutionCache (Server.intelligenceCache srv) !! s).
    - destruct Hat as [Hfalse _]. discriminate.
    - destruct Hat as (_ & Hsame & _ & Hm). exists cache'. auto. }
  destruct Hcache as (cache' & -> & Hsame & Hm).
  rewrite Hmsg, Henv.
  destruct (LocalPatternEngine.matchErrorPattern (Server.localPatternEngine srv) _)
    as [localMatch engine'].
  cbn [fst] in Hconf.
  assert (Hlow : (LocalPatternEngine.confidence localMatch >? 70)%Z = false)
    by (rewrite Z.gtb_ltb; apply Z.ltb_ge; exact Hconf).
  rewrite Hlow, queueForClaudeAnalysis_preventive.
  cbn [fst snd Server.processingScheduler Server.intelligenceCache]. auto.
Qed.

Lemma suggestPreventiveFixes_unrecognised_fails_witness :
  fst (@suggestPreventiveFixes Fixtures.exampleHost Server.newServer
         {| error_pattern := Fixtures.p1; target_repo := "shop"; risk_tolerance := None |}
         {| Server.tAccess := 0; Server.tDateNow := 0; Server.tQueued := 0 |}) =
  preventive_failed "Failed to suggest preventive fixes"
    "Cannot read properties of undefined (reading 'toLowerCase')".
Proof.
  refine (proj1
    (@suggestPreventiveFixes_unrecognised_fails Fixtures.exampleHost Server.newServer
       {| error_pattern := Fixtures.p1; target_repo := "shop"; risk_tolerance := None |}
       {| Server.tAccess := 0; Server.tDateNow := 0; Server.tQueued := 0 |}
       _ "Pattern-based analysis" (Some []) eq_refl _ eq_refl eq_refl _)).
  - reflexivity.
  - vm_compute. discriminate.
Defined.

(** *** The risk scan *)

Import ScanFacts.

Section RiskScanFacts.

Variable test : RiskyPattern -> string -> bool.

Lemma analyzeCodeChangeRisk_facts (change : CodeChange) :
  let a := analyzeCodeChangeRisk test change in
  (0 <= change_risk_score a <= 100)%Z /\
  length (recommendations a) = length (risk_factors a) /\
  (risk_factors a = [] -> change_risk_score a = 0%Z) /\
  change_file_path a = file_path change.
Proof.
  cbn zeta. unfold analyzeCodeChangeRisk.
  cbn [change_risk_score recommendations risk_factors change_file_path].
  rewrite length_map. unfold riskyPatterns. cbn [List.filter pattern].
  destruct (test asyncWithoutCatch _), (test consoleLog _), (test hardcodedCredentials _),
    (test dynamicCodeExecution _), (test innerHtmlFromUser _);
    cbn [fold_left risk];
    (split; [lia|]); (split; [reflexivity|]); (split; [|reflexivity]);
    first [intros _; reflexivity|intros Hnil; discriminate Hnil].
Qed.

Lemma assess_facts (changes : list CodeChange) (highRisk mediumRisk lowRisk : list ChangeRisk)
    (notes : list string) :
  scoresWithin 80 100 highRisk -> scoresWithin 50 79 mediumRisk -> scoresWithin 0 49 lowRisk ->
  let '(highRisk', mediumRisk', lowRisk', notes') :=
    assess test changes highRisk mediumRisk lowRisk notes in
  (length highRisk' + length mediumRisk' + length lowRisk' =
   length highRisk + length mediumRisk + length lowRisk + length changes)%nat /\
  scoresWithin 80 100 highRisk' /\ scoresWithin 50 79 mediumRisk' /\
  scoresWithin 0 49 lowRisk'.
Proof.
  revert highRisk mediumRisk lowRisk notes.
  induction changes as [|change rest IH]; intros highRisk mediumRisk lowRisk notes Hh Hm Hl;
    cbn [assess].
  - cbn [length]. split; [lia|auto].
  - destruct (analyzeCodeChangeRisk_facts change) as (Hrange & _).
    cbn zeta in Hrange.
    set (a := analyzeCodeChangeRisk test change) in *.
    destruct (80 <=? change_risk_score a)%Z eqn:E80;
      [|destruct (50 <=? change_risk_score a)%Z eqn:E50].
    + apply Z.leb_le in E80.
      specialize (IH (highRisk ++ [a]) mediumRisk lowRisk (notes ++ recommendations a)).
      destruct (assess test rest (highRisk ++ [a]) mediumRisk lowRisk _)
        as [[[h m] l] n].
      destruct IH as (Hlen & IH); [|exact Hm|exact Hl|].
      { apply Forall_app. split; [exact Hh|]. constructor; [lia|constructor]. }
      rewrite length_app in Hlen. cbn [length] in *. split; [lia|exact IH].
    + apply Z.leb_le in E50. apply Z.leb_gt in E80.
      specialize (IH highRisk (mediumRisk ++ [a]) lowRisk (notes ++ recommendations a)).
      destruct (assess test rest highRisk (mediumRisk ++ [a]) lowRisk _)
        as [[[h m] l] n].
      destruct IH as (Hlen & IH); [exact Hh| |exact Hl|].
      { apply Forall_app. split; [exact Hm|]. constructor; [lia|constructor]. }
      rewrite length_app in Hlen. cbn [length] in *. split; [lia|exact IH].
    + apply Z.leb_gt in E50.
      specialize (IH highRisk mediumRisk (lowRisk ++ [a]) (notes ++ recommendations a)).
      destruct (assess test rest highRisk mediumRisk (lowRisk ++ [a]) _)
        as [[[h m] l] n].
      destruct IH as (Hlen & IH); [exact Hh|exact Hm| |].
      { apply Forall_app. split; [exact Hl|]. constructor; [lia|constructor]. }
      rewrite length_app in Hlen. cbn [length] in *. split; [lia|exact IH].
Qed.

Lemma assess_lists (changes : list CodeChange) (highRisk mediumRisk lowRisk : list ChangeRisk)
    (notes : list string) :
  let analyses := map (analyzeCodeChangeRisk test) changes in
  assess test changes highRisk mediumRisk lowRisk notes =
    (highRisk ++ List.filter (fun a => (80 <=? change_risk_score a)%Z) analyses,
     mediumRisk ++
       List.filter (fun a => negb (80 <=? change_risk_score a)%Z &&
                             (50 <=? change_risk_score a)%Z) analyses,
     lowRisk ++ List.filter (fun a => negb (50 <=? change_risk_score a)%Z) analyses,
     notes ++ concat (map recommendations analyses)).
Proof.
  cbn zeta. revert highRisk mediumRisk lowRisk notes.
  induction changes as [|change rest IH]; intros highRisk mediumRisk lowRisk notes;
    cbn [assess map List.filter concat].
  - rewrite !app_nil_r. reflexivity.
  - set (a := analyzeCodeChangeRisk test change).
    destruct (80 <=? change_risk_score a)%Z eqn:E80.
    + assert (E50 : (50 <=? change_risk_score a)%Z = true)
        by (apply Z.leb_le; apply Z.leb_le in E80; lia).
      rewrite E50. cbn [negb andb]. rewrite IH, <- !app_assoc. reflexivity.
    + destruct (50 <=? change_risk_score a)%Z eqn:E50; cbn [negb andb];
        rewrite IH, <- !app_assoc; reflexivity.
Qed.

Lemma weighted_mean_range (h m l : nat) :
  (0 < h + m + l)%nat ->
  (inject_Z 20 <=
   inject_Z (Z.of_nat (h * 80 + m * 50 + l * 20)) / inject_Z (Z.of_nat (h + m + l)))%Q /\
  (inject_Z (Z.of_nat (h * 80 + m * 50 + l * 20)) / inject_Z (Z.of_nat (h + m + l)) <=
   inject_Z 80)%Q.
Proof.
  intros Hpos.
  assert (Hden : (0 < inject_Z (Z.of_nat (h + m + l)))%Q).
  { change 0%Q with (inject_Z 0). rewrite <- Zlt_Qlt. lia. }
  split.
  - apply Qle_shift_div_l; [exact Hden|].
    rewrite <- inject_Z_mult, <- Zle_Qle. lia.
  - apply Qle_shift_div_r; [exact Hden|].
    rewrite <- inject_Z_mult, <- Zle_Qle. lia.
Qed.

(** X28. What a risk scan can report.  [scanCodeForRisks] puts every change
    in exactly one of its three lists: a score from 80 to 100 is high
    risk, from 50 to 79 medium and below 50 low; each list holds the
    analyses of its changes in the order of the scan, and the
    recommendations are those of all changes.  The overall score is the
    mean of the weights 80, 50 and 20 of the lists, not of the scores:
    it is 0 for an empty scan and between 20 and 80 otherwise.  So with a
    threshold of 80 or more every scan is [safe_to_commit], and with the
    default threshold of 70 an empty scan is. *)
Theorem scanCodeForRisks_report (code_changes : list CodeChange) (risk_threshold : option Q) :
  let report := scanCodeForRisks test code_changes risk_threshold in
  (length (high_risk_patterns report) + length (medium_risk_patterns report) +
   length (low_risk_patterns report) = length code_changes)%nat /\
  scoresWithin 80 100 (high_risk_patterns report) /\
  scoresWithin 50 79 (medium_risk_patterns report) /\
  scoresWithin 0 49 (low_risk_patterns report) /\
  (code_changes = [] ->
   overall_risk_score report = 0%Z /\ report_risk_level report = "low") /\
  (code_changes <> [] -> (20 <= overall_risk_score report <= 80)%Z) /\
  ((80 <= default 70 risk_threshold)%Q -> commit_recommendation report = "safe_to_commit") /\
  (code_changes = [] -> risk_threshold = None ->
   commit_recommendation report = "safe_to_commit") /\
  (let analyses := map (analyzeCodeChangeRisk test) code_changes in
   high_risk_patterns report =
     List.filter (fun a => (80 <=? change_risk_score a)%Z) analyses /\
   medium_risk_patterns report =
     List.filter (fun a => negb (80 <=? change_risk_score a)%Z &&
                           (50 <=? change_risk_score a)%Z) analyses /\
   low_risk_patterns report =
     List.filter (fun a => negb (50 <=? change_risk_score a)%Z) analyses /\
   all_recommendations report = concat (map recommendations analyses)).
Proof.
  cbn zeta. unfold scanCodeForRisks.
  pose proof (assess_lists code_changes [] [] [] []) as Hlists. cbn zeta in Hlists.
  cbn [app] in Hlists.
  pose proof (assess_facts code_changes [] [] [] []) as Hfacts.
  destruct (assess test code_changes [] [] [] []) as [[[highRisk mediumRisk] lowRisk] notes].
  destruct Hfacts as (Hlen & Hh & Hm & Hl); [constructor|constructor|constructor|].
  cbn [length Nat.add] in Hlen.
  cbn [high_risk_patterns medium_risk_patterns low_risk_patterns overall_risk_score
       report_risk_level commit_recommendation all_recommendations].
  set (total := (length highRisk + length mediumRisk + length lowRisk)%nat) in *.
  assert (Hoverall :
    (code_changes = [] -> (0 <? total)%nat = false) /\
    (code_changes <> [] -> (0 <? total)%nat = true)).
  { split; intros Hc.
    - subst code_changes. cbn [length] in Hlen. rewrite Hlen. reflexivity.
    - apply Nat.ltb_lt. destruct code_changes; [contradiction|cbn [length] in Hlen; lia]. }
  destruct Hoverall as [Hempty Hsome].
  split; [exact Hlen|]. split; [exact Hh|]. split; [exact Hm|]. split; [exact Hl|].
  assert (Hrange : (0 <= (if (0 <? total)%nat
                          then Math_round
                                 (inject_Z (Z.of_nat (length highRisk * 80 +
                                                      length mediumRisk * 50 +
                                                      length lowRisk * 20)) /
                                  inject_Z (Z.of_nat total))
                          else 0) <= 80)%Z).
  { destruct (0 <? total)%nat eqn:Epos; [|lia].
    apply Nat.ltb_lt in Epos.
    destruct (weighted_mean_range (length highRisk) (length mediumRisk) (length lowRisk) Epos)
      as [Hlo Hhi].
    pose proof (Math_round_bounds _ 20 80 Hlo Hhi) as [Hb1 Hb2].
    split; [etransitivity; [|exact Hb1]; lia|exact Hb2]. }
  split; [|split; [|split; [|split]]].
  - intros Hc. rewrite (Hempty Hc). split; reflexivity.
  - intros Hc. rewrite (Hsome Hc).
    destruct (weighted_mean_range (length highRisk) (length mediumRisk) (length lowRisk))
      as [Hlo Hhi]; [apply Nat.ltb_lt, Hsome, Hc|].
    exact (Math_round_bounds _ 20 80 Hlo Hhi).
  - intros Hth.
    match goal with
    | |- (if Qltb ?t ?o then _ else _) = _ =>
        assert (Hno : Qltb t o = false); [|rewrite Hno; reflexivity]
    end.
    apply Qltb_ge.
    eapply Qle_trans; [|exact Hth].
    change 80%Q with (inject_Z 80). rewrite <- Zle_Qle. lia.
  - intros Hc ->. rewrite (Hempty Hc). reflexivity.
  - injection Hlists as -> -> -> ->. repeat split; reflexivity.
Qed.

End RiskScanFacts.
